(** * openact: the stdio JSON-RPC test harness and the OAuth2 callback listener

    A shallow embedding of

      - [src/test_stdio_rpc_e2e.py]   (module [E2E]):   the end-to-end workflow,
      - [src/test_stdio_rpc.py]       (module [Basic]): the smoke test,
      - [src/scripts/callback_server.py] (modules [Callback] and
        [CallbackHandler]): the port and the request handler of the listener,
      - [src/authflow/scripts/callback_server.py] (module [AuthflowCallback]):
        the port of its copy,

    together with the parts of Python they stand on: [str] and [bytes],
    UTF-8, [str.strip], [json.dumps], [json.loads], truthiness, [in],
    subscripting, [dict.get], [try]/[finally], [int], and of [urllib.parse]
    the query of a path, [parse_qs] and [unquote].

    Conventions.
      - A Python [str] is a list of code points ([N]); a [bytes] object is a
        list of [byte].  Literals of the source are written as Rocq strings
        and coerced.
      - A JSON text that must hold a double quote is written with an
        apostrophe in its place and passed through [jtext].
      - The child process is an opaque responder.  What the harness can see of
        it is the byte stream it reads from the child's stdout, so a run is a
        function of that stream (and of the few facts of the host the scripts
        consult).  Writes to the child's stdin are assumed to succeed and
        reads to return; a child that never answers, a child that never
        exits, and a broken pipe are outside the model.
      - Calls of [print] and pauses leave no mark on the model. *)

From Stdlib Require Import ZArith NArith List String Ascii Lia Bool.
From Stdlib Require Import DecimalN DecimalPos DecimalFacts.
From Stdlib.Strings Require Import Byte.
From stdpp Require Import gmap strings.
Import ListNotations.

Set Warnings "-register-all".
Open Scope string_scope.
Open Scope list_scope.
Open Scope N_scope.

(** ** Text and bytes *)

(** A Python [str]: a sequence of code points. *)
Definition str := list N.

(** A Python [bytes]. *)
Definition bytes := list byte.

Definition s2u (s : string) : str := map N_of_ascii (list_ascii_of_string s).
Coercion s2u : string >-> str.
Arguments s2u : simpl never.

(** [jtext s] is [s] with every apostrophe (39) turned into a double quote
    (34): a way to write JSON texts as Rocq literals. *)
Definition jtext (s : string) : str :=
  map (fun c => if c =? 39 then 34 else c) (s2u s).

Fixpoint str_eqb (a b : str) : bool :=
  match a, b with
  | [], [] => true
  | x :: a', y :: b' => (x =? y) && str_eqb a' b'
  | _, _ => false
  end.

(** [s.startswith(p)], returning what follows the prefix. *)
Fixpoint strip_prefix (p s : str) : option str :=
  match p with
  | [] => Some s
  | c :: p' =>
      match s with
      | d :: s' => if c =? d then strip_prefix p' s' else None
      | [] => None
      end
  end.

Definition starts_with (p s : str) : bool :=
  match strip_prefix p s with Some _ => true | None => false end.

(** [needle in hay] for two [str]. *)
Fixpoint contains (needle hay : str) : bool :=
  starts_with needle hay ||
  match hay with
  | [] => false
  | _ :: t => contains needle t
  end.

(** [sep.join(parts)]. *)
Fixpoint join (sep : str) (parts : list str) : str :=
  match parts with
  | [] => []
  | [p] => p
  | p :: ps => p ++ sep ++ join sep ps
  end.

(** [str.isspace] on one code point (CPython's [_PyUnicode_IsWhitespace]). *)
Definition isspace (c : N) : bool :=
  ((9 <=? c) && (c <=? 13)) || ((28 <=? c) && (c <=? 32)) ||
  (c =? 133) || (c =? 160) || (c =? 5760) ||
  ((8192 <=? c) && (c <=? 8202)) || (c =? 8232) || (c =? 8233) ||
  (c =? 8239) || (c =? 8287) || (c =? 12288).

Fixpoint lstrip (s : str) : str :=
  match s with
  | c :: t => if isspace c then lstrip t else s
  | [] => []
  end.

Definition rstrip (s : str) : str := rev (lstrip (rev s)).

(** [s.strip()]. *)
Definition strip (s : str) : str := rstrip (lstrip s).

Definition byte_of_N (n : N) : byte :=
  match Byte.of_N (n mod 256) with Some b => b | None => x00 end.

Definition is_cont (b : N) : bool := (128 <=? b) && (b <=? 191).

(** [bytes.decode()] (UTF-8, strict).  [None] is [UnicodeDecodeError]:
    a stray or missing continuation byte, an overlong form, a surrogate, or a
    code point past U+10FFFF. *)
Fixpoint utf8_decode (bs : list N) : option str :=
  match bs with
  | [] => Some []
  | b0 :: r0 =>
      if b0 <? 128 then cons b0 <$> utf8_decode r0
      else if b0 <? 194 then None
      else if b0 <? 224 then
        match r0 with
        | b1 :: r1 =>
            if is_cont b1
            then cons ((b0 - 192) * 64 + (b1 - 128)) <$> utf8_decode r1
            else None
        | _ => None
        end
      else if b0 <? 240 then
        match r0 with
        | b1 :: b2 :: r2 =>
            let c := (b0 - 224) * 4096 + (b1 - 128) * 64 + (b2 - 128) in
            if is_cont b1 && is_cont b2 && (2048 <=? c) &&
               negb ((55296 <=? c) && (c <=? 57343))
            then cons c <$> utf8_decode r2
            else None
        | _ => None
        end
      else if b0 <? 245 then
        match r0 with
        | b1 :: b2 :: b3 :: r3 =>
            let c := (b0 - 240) * 262144 + (b1 - 128) * 4096 +
                     (b2 - 128) * 64 + (b3 - 128) in
            if is_cont b1 && is_cont b2 && is_cont b3 &&
               (65536 <=? c) && (c <=? 1114111)
            then cons c <$> utf8_decode r3
            else None
        | _ => None
        end
      else None
  end.

Definition bytes_decode (bs : bytes) : option str :=
  utf8_decode (map Byte.to_N bs).

(** The UTF-8 form of one code point; [None] for a surrogate (and for what is
    no code point at all), where [str.encode()] raises. *)
Definition utf8_encode1 (c : N) : option (list N) :=
  if c <? 128 then Some [c]
  else if c <? 2048 then Some [192 + c / 64; 128 + c mod 64]
  else if (55296 <=? c) && (c <=? 57343) then None
  else if c <? 65536 then
    Some [224 + c / 4096; 128 + (c / 64) mod 64; 128 + c mod 64]
  else if c <=? 1114111 then
    Some [240 + c / 262144; 128 + (c / 4096) mod 64;
          128 + (c / 64) mod 64; 128 + c mod 64]
  else None.

Fixpoint utf8_encode (s : str) : option (list N) :=
  match s with
  | [] => Some []
  | c :: t =>
      match utf8_encode1 c, utf8_encode t with
      | Some bs, Some r => Some (bs ++ r)
      | _, _ => None
      end
  end.

(** [s.encode()]. *)
Definition str_encode (s : str) : option bytes :=
  map byte_of_N <$> utf8_encode s.

(** [stream.readline()] on a binary stream: the bytes up to and including the
    first line feed, or all that is left when there is none (at end of file
    that is [b""]).  Returns the line and the rest of the stream. *)
Fixpoint readline (bs : bytes) : bytes * bytes :=
  match bs with
  | [] => ([], [])
  | b :: t =>
      if Byte.eqb b x0a then ([b], t)
      else let '(l, r) := readline t in (b :: l, r)
  end.

(** ** JSON values, as Python holds them

    [json.loads] yields [None], [bool], [int], [float], [str], [list] and
    [dict]; the harness passes such values around and hands them back to
    [json.dumps].  A [dict] keeps its keys in insertion order, each once: it is
    an association list here, updated by [dict_set].

    Floats.  A numeral with a fraction or an exponent (and [NaN],
    [Infinity], [-Infinity]) decodes to a Python float.  The value is kept as
    the numeral it was read from; the two things the scripts could ever do with
    it, test its truth value and print it again, are left to [FloatSem], over
    which every definition and theorem is generic. *)

Inductive json : Type :=
| JNull
| JBool (b : bool)
| JInt (z : Z)
| JFloat (lit : str)
| JStr (s : str)
| JArr (xs : list json)
| JObj (kvs : list (str * json)).

Definition ascii_text (s : str) : Prop := Forall (fun c => c < 128) s.

Class FloatSem := {
  (** [bool(float(lit))] *)
  float_truthy : str -> bool;
  (** [float.__repr__(float(lit))] *)
  float_repr : str -> str;
  (** a float prints in ASCII *)
  float_repr_ascii : forall lit, ascii_text (float_repr lit)
}.

(** A stand-in for evaluating runs whose data hold no float. *)
Definition no_floats : FloatSem :=
  {| float_truthy := fun _ => true;
     float_repr := fun _ => [];
     float_repr_ascii := fun _ => List.Forall_nil _ |}.

(** [d[k] = v] on a dict. *)
Fixpoint dict_set (d : list (str * json)) (k : str) (v : json)
  : list (str * json) :=
  match d with
  | [] => [(k, v)]
  | (k', v') :: t =>
      if str_eqb k' k then (k', v) :: t else (k', v') :: dict_set t k v
  end.

(** [d.get(k)], [None] when the key is absent. *)
Fixpoint dict_get (d : list (str * json)) (k : str) : option json :=
  match d with
  | [] => None
  | (k', v) :: t => if str_eqb k' k then Some v else dict_get t k
  end.

(** ** json.dumps (default options: [ensure_ascii], separators [", "] and
    [": "], no indentation) *)

Fixpoint uint_chars (u : Decimal.uint) : str :=
  match u with
  | Decimal.Nil => []
  | Decimal.D0 u => 48 :: uint_chars u
  | Decimal.D1 u => 49 :: uint_chars u
  | Decimal.D2 u => 50 :: uint_chars u
  | Decimal.D3 u => 51 :: uint_chars u
  | Decimal.D4 u => 52 :: uint_chars u
  | Decimal.D5 u => 53 :: uint_chars u
  | Decimal.D6 u => 54 :: uint_chars u
  | Decimal.D7 u => 55 :: uint_chars u
  | Decimal.D8 u => 56 :: uint_chars u
  | Decimal.D9 u => 57 :: uint_chars u
  end.

(** [int.__repr__] *)
Definition int_repr (z : Z) : str :=
  match z with
  | Zneg p => 45 :: uint_chars (N.to_uint (Npos p))
  | _ => uint_chars (N.to_uint (Z.to_N z))
  end.

Definition hexdigit (d : N) : N := if d <? 10 then 48 + d else 87 + d.

(** ['\\u{0:04x}'.format(n)] for [n < 0x10000] *)
Definition uescape (n : N) : str :=
  [92; 117; hexdigit (n / 4096 mod 16); hexdigit (n / 256 mod 16);
   hexdigit (n / 16 mod 16); hexdigit (n mod 16)].

(** The replacement [py_encode_basestring_ascii] makes for one character:
    the short escapes, [\uXXXX] for what is not printable ASCII, a surrogate
    pair past the basic plane. *)
Definition escape_char (c : N) : str :=
  if c =? 34 then [92; 34]
  else if c =? 92 then [92; 92]
  else if c =? 10 then [92; 110]
  else if c =? 13 then [92; 114]
  else if c =? 9 then [92; 116]
  else if c =? 12 then [92; 102]
  else if c =? 8 then [92; 98]
  else if (32 <=? c) && (c <=? 126) then [c]
  else if c <? 65536 then uescape c
  else
    let n := c - 65536 in
    uescape (N.lor 55296 (N.land (N.shiftr n 10) 1023)) ++
    uescape (N.lor 56320 (N.land n 1023)).

Definition encode_basestring_ascii (s : str) : str :=
  34 :: flat_map escape_char s ++ [34].

Section Dumps.
Context {F : FloatSem}.

Fixpoint dumps (v : json) : str :=
  match v with
  | JNull => "null"
  | JBool true => "true"
  | JBool false => "false"
  | JInt z => int_repr z
  | JFloat lit => float_repr lit
  | JStr s => encode_basestring_ascii s
  | JArr xs =>
      91 :: join ", "
              (list_rect (fun _ => list str) []
                 (fun x _ r => dumps x :: r) xs) ++ [93]
  | JObj kvs =>
      123 :: join ", "
               (list_rect (fun _ => list str) []
                  (fun kv _ r =>
                     (encode_basestring_ascii (fst kv) ++ s2u ": " ++
                      dumps (snd kv)) :: r) kvs) ++ [125]
  end.
End Dumps.

(** ** json.loads (the scanner of [json.scanner] and [json.decoder]) *)

(** [WHITESPACE.match(s, i).end()]: JSON's blanks are space, tab, LF, CR. *)
Definition is_ws (c : N) : bool :=
  (c =? 32) || (c =? 9) || (c =? 10) || (c =? 13).

Fixpoint skip_ws (s : str) : str :=
  match s with
  | c :: t => if is_ws c then skip_ws t else s
  | [] => []
  end.

Definition isdigit (c : N) : bool := (48 <=? c) && (c <=? 57).

(** The longest run of ASCII digits at the head of [s], and the rest. *)
Fixpoint span_digits (s : str) : str * str :=
  match s with
  | c :: t =>
      if isdigit c then let '(ds, r) := span_digits t in (c :: ds, r)
      else ([], s)
  | [] => ([], [])
  end.

Fixpoint uint_of_chars (ds : str) : Decimal.uint :=
  match ds with
  | [] => Decimal.Nil
  | c :: t =>
      let u := uint_of_chars t in
      if c =? 48 then Decimal.D0 u else if c =? 49 then Decimal.D1 u
      else if c =? 50 then Decimal.D2 u else if c =? 51 then Decimal.D3 u
      else if c =? 52 then Decimal.D4 u else if c =? 53 then Decimal.D5 u
      else if c =? 54 then Decimal.D6 u else if c =? 55 then Decimal.D7 u
      else if c =? 56 then Decimal.D8 u else Decimal.D9 u
  end.

(** [int(lexeme)] for a lexeme of [-?[0-9]+]. *)
Definition int_of_lexeme (l : str) : Z :=
  match l with
  | c :: ds =>
      if c =? 45 then Z.opp (Z.of_N (N.of_uint (uint_of_chars ds)))
      else Z.of_N (N.of_uint (uint_of_chars l))
  | [] => 0%Z
  end.

(** The three groups of [NUMBER_RE]: an integer part (an optional minus sign,
    then a lone 0 or a nonzero digit and any digits), an optional fraction (a
    dot and digits) and an optional exponent (e or E, an optional sign,
    digits).  Each returns the text it matched and what follows. *)
Definition match_integer (s : str) : option (str * str) :=
  let '(sign, r) :=
    match s with
    | c :: r => if c =? 45 then ([45], r) else ([], s)
    | [] => ([], s)
    end in
  match r with
  | d :: r' =>
      if d =? 48 then Some (sign ++ [48], r')
      else if isdigit d then
        let '(ds, r'') := span_digits r' in Some (sign ++ d :: ds, r'')
      else None
  | [] => None
  end.

Definition match_frac (s : str) : option (str * str) :=
  match s with
  | c :: r =>
      if c =? 46 then
        match span_digits r with
        | ([], _) => None
        | (ds, r') => Some (46 :: ds, r')
        end
      else None
  | [] => None
  end.

Definition match_exp (s : str) : option (str * str) :=
  match s with
  | e :: r =>
      if (e =? 101) || (e =? 69) then
        let '(sg, r1) :=
          match r with
          | c :: r1 => if (c =? 45) || (c =? 43) then ([c], r1) else ([], r)
          | [] => ([], r)
          end in
        match span_digits r1 with
        | ([], _) => None
        | (ds, r2) => Some (e :: sg ++ ds, r2)
        end
      else None
  | [] => None
  end.

(** A number at the head of [s]: an [int] when only the integer group
    matched, a [float] otherwise. *)
Definition match_number (s : str) : option (json * str) :=
  match match_integer s with
  | None => None
  | Some (i, r) =>
      let '(f, r1) :=
        match match_frac r with Some (f, r1) => (f, r1) | None => ([], r) end in
      let '(e, r2) :=
        match match_exp r1 with Some (e, r2) => (e, r2) | None => ([], r1) end in
      match f, e with
      | [], [] => Some (JInt (int_of_lexeme i), r2)
      | _, _ => Some (JFloat (i ++ f ++ e), r2)
      end
  end.

Definition hexval (c : N) : option N :=
  if (48 <=? c) && (c <=? 57) then Some (c - 48)
  else if (97 <=? c) && (c <=? 102) then Some (c - 87)
  else if (65 <=? c) && (c <=? 70) then Some (c - 55)
  else None.

(** [_decode_uXXXX]: four hexadecimal digits. *)
Definition decode_hex4 (h1 h2 h3 h4 : N) : option N :=
  a ← hexval h1; b ← hexval h2; c ← hexval h3; d ← hexval h4;
  Some (((a * 16 + b) * 16 + c) * 16 + d).

(** The [BACKSLASH] table. *)
Definition backslash (e : N) : option N :=
  if e =? 34 then Some 34 else if e =? 92 then Some 92
  else if e =? 47 then Some 47 else if e =? 98 then Some 8
  else if e =? 102 then Some 12 else if e =? 110 then Some 10
  else if e =? 114 then Some 13 else if e =? 116 then Some 9
  else None.

(** [py_scanstring] (strict), from just after the opening quote: the decoded
    string and what follows the closing quote.  [None] is [JSONDecodeError]:
    no closing quote, a raw control character, a bad escape. *)
Fixpoint scanstring (s : str) : option (str * str) :=
  match s with
  | [] => None
  | c :: r =>
      if c =? 34 then Some ([], r)
      else if c =? 92 then
        match r with
        | [] => None
        | e :: r1 =>
            if e =? 117 then
              match r1 with
              | h1 :: h2 :: h3 :: h4 :: r2 =>
                  match decode_hex4 h1 h2 h3 h4 with
                  | None => None
                  | Some uni =>
                      let single :=
                        '(t, r') ← scanstring r2; Some (uni :: t, r') in
                      if (55296 <=? uni) && (uni <=? 56319) then
                        match r2 with
                        | b :: u :: g1 :: g2 :: g3 :: g4 :: r3 =>
                            if (b =? 92) && (u =? 117) then
                              match decode_hex4 g1 g2 g3 g4 with
                              | None => None
                              | Some uni2 =>
                                  if (56320 <=? uni2) && (uni2 <=? 57343) then
                                    '(t, r') ← scanstring r3;
                                    Some (65536 +
                                          N.lor (N.shiftl (uni - 55296) 10)
                                                (uni2 - 56320) :: t, r')
                                  else single
                              end
                            else single
                        | _ => single
                        end
                      else single
                  end
              | _ => None
              end
            else
              match backslash e with
              | None => None
              | Some d => '(t, r') ← scanstring r1; Some (d :: t, r')
              end
        end
      else if c <? 32 then None
      else '(t, r') ← scanstring r; Some (c :: t, r')
  end.

(** [_scan_once], [JSONArray] and [JSONObject].  Every call consumes input
    before it recurses, so [fuel] bounds the depth of the calls and never the
    input: [loads] gives enough of it. *)
Fixpoint scan_once (fuel : nat) (s : str) : option (json * str) :=
  match fuel with
  | O => None
  | S fuel' =>
      match s with
      | [] => None
      | c :: r =>
          if c =? 34 then '(t, r') ← scanstring r; Some (JStr t, r')
          else if c =? 123 then
            match skip_ws r with
            | d :: r' =>
                if d =? 125 then Some (JObj [], r')
                else if d =? 34 then object_items fuel' r' []
                else None
            | [] => None
            end
          else if c =? 91 then
            match skip_ws r with
            | d :: r' =>
                if d =? 93 then Some (JArr [], r')
                else array_items fuel' (d :: r') []
            | [] => None
            end
          else
            match strip_prefix "null" s with
            | Some r' => Some (JNull, r')
            | None =>
            match strip_prefix "true" s with
            | Some r' => Some (JBool true, r')
            | None =>
            match strip_prefix "false" s with
            | Some r' => Some (JBool false, r')
            | None =>
            match match_number s with
            | Some res => Some res
            | None =>
            match strip_prefix "NaN" s with
            | Some r' => Some (JFloat "NaN", r')
            | None =>
            match strip_prefix "Infinity" s with
            | Some r' => Some (JFloat "Infinity", r')
            | None =>
            match strip_prefix "-Infinity" s with
            | Some r' => Some (JFloat "-Infinity", r')
            | None => None
            end end end end end end end
      end
  end
with array_items (fuel : nat) (s : str) (acc : list json)
  : option (json * str) :=
  match fuel with
  | O => None
  | S fuel' =>
      '(v, r) ← scan_once fuel' s;
      match skip_ws r with
      | c :: r' =>
          if c =? 93 then Some (JArr (acc ++ [v]), r')
          else if c =? 44 then array_items fuel' (skip_ws r') (acc ++ [v])
          else None
      | [] => None
      end
  end
with object_items (fuel : nat) (s : str) (acc : list (str * json))
  : option (json * str) :=
  match fuel with
  | O => None
  | S fuel' =>
      '(k, r) ← scanstring s;
      match skip_ws r with
      | c :: r1 =>
          if c =? 58 then
            '(v, r2) ← scan_once fuel' (skip_ws r1);
            match skip_ws r2 with
            | d :: r3 =>
                if d =? 125 then Some (JObj (dict_set acc k v), r3)
                else if d =? 44 then
                  match skip_ws r3 with
                  | q :: r4 =>
                      if q =? 34 then object_items fuel' r4 (dict_set acc k v)
                      else None
                  | [] => None
                  end
                else None
            | [] => None
            end
          else None
      | [] => None
      end
  end.

(** [json.loads(s)]: one value, blanks around it, nothing else.  [None] is
    [JSONDecodeError]. *)
Definition loads (s : str) : option json :=
  '(v, r) ← scan_once (2 * length s + 2) (skip_ws s);
  match skip_ws r with [] => Some v | _ => None end.

(** ** Python values at run time

    The scripts never check the type of what [json.loads] gave them: a
    response may be any JSON value, and the operations below do on each what
    Python does, exceptions included. *)

Inductive exn :=
| AssertionError
| KeyError
| TypeError
| AttributeError
| ValueError
| UnicodeDecodeError
| UnicodeEncodeError
| OSError
| TimeoutExpired
| SystemExit (code : Z).

(** [isinstance(e, Exception)]: what an [except Exception] clause catches. *)
Definition is_Exception (e : exn) : bool :=
  match e with SystemExit _ => false | _ => true end.

Inductive result (A : Type) :=
| Val (a : A)
| Exc (e : exn).
Arguments Val {A} a.
Arguments Exc {A} e.

#[global] Instance result_ret : MRet result := fun A a => Val a.
#[global] Instance result_bind : MBind result := fun A B f m =>
  match m with Val a => f a | Exc e => Exc e end.

Definition is_str (v : json) : bool :=
  match v with JStr _ => true | _ => false end.

Definition is_JStr (k : str) (v : json) : bool :=
  match v with JStr s => str_eqb s k | _ => false end.

Definition has_key (k : str) (d : list (str * json)) : bool :=
  match dict_get d k with Some _ => true | None => false end.

Section PyOps.
Context {F : FloatSem}.

(** [bool(v)] *)
Definition truthy (v : json) : bool :=
  match v with
  | JNull => false
  | JBool b => b
  | JInt z => negb (Z.eqb z 0)
  | JFloat lit => float_truthy lit
  | JStr s => match s with [] => false | _ => true end
  | JArr xs => match xs with [] => false | _ => true end
  | JObj kvs => match kvs with [] => false | _ => true end
  end.

(** [k in v] for a str [k]: a key of a dict, an element of a list, a
    substring of a str; [TypeError] on the rest. *)
Definition py_in (k : str) (v : json) : result bool :=
  match v with
  | JObj kvs => Val (has_key k kvs)
  | JArr xs => Val (existsb (is_JStr k) xs)
  | JStr s => Val (contains k s)
  | _ => Exc TypeError
  end.

(** [v[k]] for a str [k] *)
Definition getitem (v : json) (k : str) : result json :=
  match v with
  | JObj kvs =>
      match dict_get kvs k with Some x => Val x | None => Exc KeyError end
  | _ => Exc TypeError
  end.

(** [v.get(k, default)] *)
Definition get (v : json) (k : str) (default : json) : result json :=
  match v with
  | JObj kvs =>
      Val (match dict_get kvs k with Some x => x | None => default end)
  | _ => Exc AttributeError
  end.

(** What [for c in v] goes through: the elements of a list, the keys of a
    dict, the characters of a str. *)
Definition py_iter (v : json) : result (list json) :=
  match v with
  | JArr xs => Val xs
  | JObj kvs => Val (map (fun kv => JStr (fst kv)) kvs)
  | JStr s => Val (map (fun c => JStr [c]) s)
  | _ => Exc TypeError
  end.

(** [r and "result" in r], as a condition *)
Definition is_success (r : json) : result bool :=
  if truthy r then py_in "result" r else Val false.
End PyOps.

(** [assert c] *)
Definition py_assert (c : result bool) : result unit :=
  ok ← c; if ok : bool then Val tt else Exc AssertionError.

(** ** The host and the child process *)

Inductive event :=
| Popen (cmd : list string) (env : gmap string string)
    (** [subprocess.Popen(cmd, stdin=PIPE, stdout=PIPE, stderr=PIPE, env=env,
        text=False)] returned *)
| Send (req : json)
    (** [stdin.write((json.dumps(req) + "\n").encode())] and [stdin.flush()] *)
| Readline (line : bytes)
    (** [stdout.readline()] returned [line] *)
| Terminate
| Wait (timeout : option N)
| Kill.

(** What a run depends on, and what it does ([trace], oldest event first). *)
Record world := World {
  environ : gmap string string;   (** [os.environ] *)
  cargo_on_path : bool;           (** [shutil.which("cargo")] finds it *)
  binary_path : string;           (** [target/debug/openact-stdio] beside the
                                      script, as an absolute path *)
  binary_exists : bool;           (** [os.path.exists(binary_path)] *)
  spawn_ok : bool;                (** [Popen] starts the command *)
  child_out : bytes;              (** what the child writes to its stdout
                                      before closing it, not yet read *)
  exits_in_time : bool;           (** after [terminate()] the child exits
                                      before [wait]'s timeout *)
  trace : list event
}.

Definition log (e : event) (w : world) : world :=
  World (environ w) (cargo_on_path w) (binary_path w) (binary_exists w)
        (spawn_ok w) (child_out w) (exits_in_time w) (trace w ++ [e]).

Definition set_child_out (bs : bytes) (w : world) : world :=
  World (environ w) (cargo_on_path w) (binary_path w) (binary_exists w)
        (spawn_ok w) bs (exits_in_time w) (trace w).

(** A command of a script: it returns or raises, and changes the world. *)
Definition M (A : Type) : Type := world -> result A * world.

#[global] Instance M_ret : MRet M := fun A a w => (Val a, w).
#[global] Instance M_bind : MBind M := fun A B f m w =>
  match m w with
  | (Val a, w') => f a w'
  | (Exc e, w') => (Exc e, w')
  end.

Definition raise {A} (e : exn) : M A := fun w => (Exc e, w).

Definition lift {A} (r : result A) : M A := fun w => (r, w).


Definition ask {A} (f : world -> A) : M A := fun w => (Val (f w), w).

Definition emit (e : event) : M unit := fun w => (Val tt, log e w).

(** [try: body finally: fin]: [fin] runs however [body] ends; an exception of
    [fin] replaces the outcome of [body]. *)
Definition try_finally {A} (body : M A) (fin : M unit) : M A := fun w =>
  match body w with
  | (r, w1) =>
      match fin w1 with
      | (Val _, w2) => (r, w2)
      | (Exc e, w2) => (Exc e, w2)
      end
  end.

(** [try: body except Exception: handler] *)
Definition try_except {A} (body : M A) (handler : M A) : M A := fun w =>
  match body w with
  | (Exc e, w1) => if is_Exception e then handler w1 else (Exc e, w1)
  | done => done
  end.

Definition popen (cmd : list string) (env : gmap string string) : M unit :=
  fun w => if spawn_ok w then (Val tt, log (Popen cmd env) w)
           else (Exc OSError, w).

Definition stdout_readline : M bytes := fun w =>
  let '(line, rest) := readline (child_out w) in
  (Val line, log (Readline line) (set_child_out rest w)).

Definition terminate : M unit := emit Terminate.

Definition kill : M unit := emit Kill.

(** [process.wait(timeout)]: without a timeout it waits for the child to exit;
    with one it raises [TimeoutExpired] when the child is still there. *)
Definition wait (timeout : option N) : M unit := fun w =>
  let w' := log (Wait timeout) w in
  match timeout with
  | Some _ => if exits_in_time w then (Val tt, w') else (Exc TimeoutExpired, w')
  | None => (Val tt, w')
  end.

(** The methods called, in order. *)
Definition method_of (e : event) : option json :=
  match e with
  | Send (JObj kvs) => dict_get kvs "method"
  | _ => None
  end.

Definition calls (t : list event) : list json := omap method_of t.

(** The request object [send_rpc_request] builds when [params] is given. *)
Definition request (method : str) (params : json) (request_id : Z) : json :=
  JObj [(s2u "jsonrpc", JStr "2.0"); (s2u "method", JStr method);
        (s2u "id", JInt request_id); (s2u "params", params)].

(** ... and when it is not. *)
Definition request0 (method : str) (request_id : Z) : json :=
  JObj [(s2u "jsonrpc", JStr "2.0"); (s2u "method", JStr method);
        (s2u "id", JInt request_id)].

Section Wire.
Context {F : FloatSem}.

(** The line a request is sent as. *)
Definition wire (req : json) : option bytes :=
  str_encode (dumps req ++ [10]).

(** The value [send_rpc_request] returns for a line read from the child:
    the decoded JSON, or [None] ([JNull]) when [json.loads] raised. *)
Definition decode_response (text : str) : json :=
  match loads (strip text) with Some v => v | None => JNull end.
End Wire.

(** One request/response exchange, seen from the harness: the line that is
    read next, the world after the request was written and that line read,
    and what [send_rpc_request] makes of the line. *)
Definition next_line (w : world) : bytes := fst (readline (child_out w)).

Definition exchange (req : json) (w : world) : world :=
  log (Readline (next_line w))
      (set_child_out (snd (readline (child_out w))) (log (Send req) w)).

Section Reply.
Context {F : FloatSem}.

Definition reply (w : world) : result json :=
  match bytes_decode (next_line w) with
  | Some text => Val (decode_response text)
  | None => Exc UnicodeDecodeError
  end.
End Reply.

(** A request or a read: the events of the exchanges. *)
Definition is_io (e : event) : bool :=
  match e with Send _ | Readline _ => true | _ => false end.

(** ** src/test_stdio_rpc_e2e.py *)

Module E2E.
Section WithFloats.
Context {F : FloatSem}.

(** [send_rpc_request(process, method, params=None, request_id=1)];
    [params = JNull] is the default [None].  The [print] of the [except]
    branch is not modelled. *)
Definition send_rpc_request (method : str) (params : json) (request_id : Z)
  : M json :=
  let req := [(s2u "jsonrpc", JStr "2.0"); (s2u "method", JStr method);
              (s2u "id", JInt request_id)] in
  let req :=
    match params with
    | JNull => req
    | _ => dict_set req "params" params
    end in
  match wire (JObj req) with
  | None => raise UnicodeEncodeError
  | Some _ => emit (Send (JObj req))
  end ;;
  raw ← stdout_readline;
  match bytes_decode raw with
  | None => raise UnicodeDecodeError
  | Some text => mret (decode_response text)
  end.

Definition tenant : str := "test".
Definition provider : str := "github".
Definition action_yaml : str :=
  "./providers/github/actions/get-user.openapi.yaml".
Definition action_name : str := "get-user".

(** [f"trn:openact:{tenant}:action/{provider}/{action_name}@v1"] *)
Definition expected_action_trn : str :=
  s2u "trn:openact:" ++ tenant ++ s2u ":action/" ++ provider ++ s2u "/" ++
  action_name ++ s2u "@v1".

Definition delete_params : json :=
  JObj [(s2u "trn", JStr expected_action_trn)].

Definition register_params : json :=
  JObj [(s2u "config_path", JStr action_yaml);
        (s2u "tenant", JStr tenant);
        (s2u "provider", JStr provider);
        (s2u "name", JStr action_name)].

Definition update_params (action_trn : json) : json :=
  JObj [(s2u "trn", action_trn); (s2u "config_path", JStr action_yaml)].

Definition auth_params : json :=
  JObj [(s2u "tenant", JStr tenant);
        (s2u "provider", JStr provider);
        (s2u "user_id", JStr "user1");
        (s2u "access_token", JStr "dummy-token-for-test")].

Definition bind_params (action_trn auth_trn : json) : json :=
  JObj [(s2u "tenant", JStr tenant);
        (s2u "action_trn", action_trn);
        (s2u "auth_trn", auth_trn)].

Definition binding_get_params (action_trn : json) : json :=
  JObj [(s2u "tenant", JStr tenant); (s2u "action_trn", action_trn)].

Definition run_params (action_trn : json) : json :=
  JObj [(s2u "tenant", JStr tenant); (s2u "action_trn", action_trn)].

Definition execution_get_params (execution_trn : json) : json :=
  JObj [(s2u "execution_trn", execution_trn)].

Definition execution_list_params : json :=
  JObj [(s2u "tenant", JStr tenant);
        (s2u "limit", JInt 10);
        (s2u "offset", JInt 0)].

(** [result = r["result"][field]] *)
Definition result_field (field : str) (r : json) : result json :=
  res ← getitem r "result"; getitem res field.

(** 1) Health *)
Definition step_health : M unit :=
  r ← send_rpc_request "health" JNull 1;
  lift (py_assert (is_success r)).

(** 2) Ensure a clean action state (delete if exists) *)
Definition step_clean : M unit :=
  send_rpc_request "action.delete" delete_params 1 ;;
  mret tt.

(** [msg = (r or {}).get("error", {}).get("message", "")] *)
Definition error_message (r : json) : result json :=
  e ← get (if truthy r then r else JObj []) "error" (JObj []);
  get e "message" (JStr []).

(** ["UNIQUE constraint failed: actions.trn" in msg or "already exists" in
    msg or "Invalid input" in msg] *)
Definition known_conflict (msg : json) : result bool :=
  a ← py_in "UNIQUE constraint failed: actions.trn" msg;
  if a : bool then Val true
  else b ← py_in "already exists" msg;
       if b : bool then Val true
       else py_in "Invalid input" msg.

(** What step 3 makes of the response [r]: [action_trn], or an exception *)
Definition register_handle (r : json) : result json :=
  ok ← is_success r;
  if ok : bool then result_field "action_trn" r
  else
    msg ← error_message r;
    conflict ← known_conflict msg;
    if conflict : bool then Val (JStr expected_action_trn)
    else Exc AssertionError.

(** 3) Register action; returns [action_trn] *)
Definition step_register : M json :=
  r ← send_rpc_request "action.register" register_params 1;
  lift (register_handle r).

(** [ru and ("result" in ru or "error" not in ru)], as a condition *)
Definition update_accepted (ru : json) : result bool :=
  if truthy ru
  then a ← py_in "result" ru;
       if a : bool then Val true
       else b ← py_in "error" ru; Val (negb b)
  else Val false.

(** Ensure OpenAPI content is stored (update regardless) *)
Definition step_update (action_trn : json) : M unit :=
  ru ← send_rpc_request "action.update" (update_params action_trn) 1;
  lift (py_assert (update_accepted ru)).

(** [isinstance(c, str) and tenant in c and provider in c] *)
Definition is_candidate (c : json) : bool :=
  match c with
  | JStr s => contains tenant s && contains provider s
  | _ => false
  end.

(** [conns = rl["result"].get("connections", [])], as the sequence the
    comprehension goes through *)
Definition listed_connections (rl : json) : result (list json) :=
  res ← getitem rl "result";
  conns ← get res "connections" (JArr []);
  py_iter conns.

(** [[c for c in conns if isinstance(c, str) and tenant in c and provider
    in c]] *)
Definition candidates (conns : list json) : list json :=
  filter (fun c => is_candidate c = true) conns.

(** What step 4 makes of the response [rl] of [auth.list]: [auth_trn], or
    an exception *)
Definition fallback_handle (rl : json) : result json :=
  py_assert (is_success rl) ;;
  conns ← listed_connections rl;
  match candidates conns with
  | [] => Exc AssertionError
  | c :: _ => Val c
  end.

(** 4) Create PAT connection; returns [auth_trn] *)
Definition step_auth : M json :=
  r ← send_rpc_request "auth.pat" auth_params 1;
  ok ← lift (is_success r);
  if ok : bool then lift (result_field "connection_trn" r)
  else
    rl ← send_rpc_request "auth.list" JNull 1;
    lift (fallback_handle rl).

(** 5) Bind *)
Definition step_bind (action_trn auth_trn : json) : M unit :=
  r ← send_rpc_request "binding.create"
        (bind_params action_trn auth_trn) 1;
  ok ← lift (is_success r);
  if ok : bool then mret tt
  else
    rg ← send_rpc_request "binding.get" (binding_get_params action_trn) 1;
    lift (py_assert (is_success rg)).

(** 6) Run; returns [execution_trn] *)
Definition step_run (action_trn : json) : M json :=
  r ← send_rpc_request "run" (run_params action_trn) 1;
  lift (py_assert (is_success r) ;; result_field "execution_trn" r).

(** [r and "result" in r and field in r["result"]], as a condition *)
Definition has_result_field (field : str) (r : json) : result bool :=
  ok ← is_success r;
  if ok : bool then res ← getitem r "result"; py_in field res
  else Val false.

(** 7) execution.get *)
Definition step_execution_get (execution_trn : json) : M unit :=
  r ← send_rpc_request "execution.get"
        (execution_get_params execution_trn) 1;
  lift (py_assert (has_result_field "execution" r)).

(** 8) execution.list *)
Definition step_execution_list : M unit :=
  r ← send_rpc_request "execution.list" execution_list_params 1;
  lift (py_assert (has_result_field "executions" r)).

(** The body of [main]'s [try], cut where a value is handed on: what
    follows step 4, what follows step 3, and the whole.  (The pause before
    the first request and the final [print] leave no mark on the model.) *)
Definition after_auth (action_trn auth_trn : json) : M unit :=
  step_bind action_trn auth_trn ;;
  execution_trn ← step_run action_trn;
  step_execution_get execution_trn ;;
  step_execution_list.

Definition after_register (action_trn : json) : M unit :=
  step_update action_trn ;;
  auth_trn ← step_auth;
  after_auth action_trn auth_trn.

Definition workflow : M unit :=
  step_health ;;
  step_clean ;;
  action_trn ← step_register;
  after_register action_trn.

(** The [finally] clause:
    [try: process.terminate(); process.wait(timeout=5)
     except Exception: process.kill()] *)
Definition stop : M unit :=
  try_except (terminate ;; wait (Some 5)) kill.

(** [env.update({...})] *)
Definition harness_env : gmap string string :=
  {[ "OPENACT_DATABASE_URL" :=
       "sqlite:/Users/sryu/projects/aionixone/openact/manifest/data/openact.db";
     "OPENACT_MASTER_KEY" := "your-32-byte-key-here-for-testing";
     "RUST_LOG" := "info" ]}.

(** Choose command: cargo run or direct binary *)
Definition choose_command : M (list string) :=
  cargo ← ask cargo_on_path;
  if cargo : bool then mret ["cargo"; "run"; "-q"; "-p"; "openact-stdio"]
  else
    found ← ask binary_exists;
    if found : bool then p ← ask binary_path; mret [p]
    else raise (SystemExit 1).

Definition main : M unit :=
  ambient ← ask environ;
  let env := harness_env ∪ ambient in
  cmd ← choose_command;
  popen cmd env ;;
  try_finally workflow stop.
End WithFloats.
End E2E.

(** ** src/test_stdio_rpc.py *)

Module Basic.
Section WithFloats.
Context {F : FloatSem}.

(** [send_rpc_request(process, method, params=None, request_id=1)]: here
    the parameters are attached when they are truthy ([if params:]). *)
Definition send_rpc_request (method : str) (params : json) (request_id : Z)
  : M json :=
  let request := [(s2u "jsonrpc", JStr "2.0"); (s2u "method", JStr method);
                  (s2u "id", JInt request_id)] in
  let request :=
    if truthy params then dict_set request "params" params else request in
  match wire (JObj request) with
  | None => raise UnicodeEncodeError
  | Some _ => emit (Send (JObj request))
  end ;;
  raw ← stdout_readline;
  match bytes_decode raw with
  | None => raise UnicodeDecodeError
  | Some text => mret (decode_response text)
  end.

Definition env : gmap string string :=
  {[ "OPENACT_DATABASE_URL" := "sqlite:./data/openact.db";
     "OPENACT_MASTER_KEY" := "your-32-byte-key-here-for-testing";
     "RUST_LOG" := "info" ]}.

(** Tests 1 to 3: [if response and "result" in response: ... else: ...];
    both branches only print. *)
Definition check_result (method : str) : M unit :=
  response ← send_rpc_request method JNull 1;
  lift (is_success response) ;;
  mret tt.

(** Test 4: [if response and "error" in response: ...] *)
Definition check_error (method : str) : M unit :=
  response ← send_rpc_request method JNull 1;
  lift (if truthy response then py_in "error" response else Val false) ;;
  mret tt.

(** Test 5: the registration; the [elif] branch prints
    [response['error']['message']]. *)
Definition check_register : M unit :=
  response ← send_rpc_request "action.register"
               (JObj [(s2u "config_path",
                       JStr "./providers/github/actions/get-user.yaml");
                      (s2u "tenant", JStr "test");
                      (s2u "provider", JStr "github");
                      (s2u "name", JStr "get-user")]) 1;
  if truthy response then
    a ← lift (py_in "result" response);
    if a : bool then mret tt
    else
      b ← lift (py_in "error" response);
      if b : bool then
        lift (e ← getitem response "error"; getitem e "message") ;; mret tt
      else mret tt
  else mret tt.

Definition checks : M unit :=
  check_result "health" ;;
  check_result "status" ;;
  check_result "doctor" ;;
  check_error "invalid_method" ;;
  check_register.

(** [test_stdio_rpc()].  [Popen] is the first statement of the [try]: when
    it raises, the [except] clause prints and [process] is unbound, so the
    [finally] clause does nothing; when it returns, the rest of the [try]
    runs under the same [except], and the [finally] clause terminates the
    child and waits for it. *)
Definition test_stdio_rpc : M unit :=
  started ← try_except
              (popen ["cargo"; "run"; "-q"; "-p"; "openact-stdio"] env ;;
               mret true)
              (mret false);
  if started : bool then
    try_finally (try_except checks (mret tt)) (terminate ;; wait None)
  else mret tt.
End WithFloats.
End Basic.

(** ** The callback listeners *)

(** [int(s)] for a str of ASCII: blanks around, a sign, decimal digits, single
    underscores between digits.  (Python also reads the decimal digits of
    other scripts; those are [ValueError] here.) *)
Fixpoint digits_value (acc : N) (after_digit : bool) (s : str) : option N :=
  match s with
  | [] => if after_digit then Some acc else None
  | c :: t =>
      if isdigit c then digits_value (acc * 10 + (c - 48)) true t
      else if (c =? 95) && after_digit then digits_value acc false t
      else None
  end.

Definition py_int (s : str) : result Z :=
  let body :=
    match strip s with
    | c :: t =>
        if c =? 45 then Z.opp <$> (Z.of_N <$> digits_value 0 false t)
        else if c =? 43 then Z.of_N <$> digits_value 0 false t
        else Z.of_N <$> digits_value 0 false (c :: t)
    | [] => None
    end in
  match body with Some z => Val z | None => Exc ValueError end.

(** src/scripts/callback_server.py *)
Module Callback.
(** [PORT = int(os.environ.get("OPENACT_CALLBACK_PORT", "8080"))] *)
Definition PORT (environ : gmap string string) : result Z :=
  py_int (s2u (default "8080" (environ !! "OPENACT_CALLBACK_PORT"))).
End Callback.

(** src/authflow/scripts/callback_server.py *)
Module AuthflowCallback.
(** [PORT = 8080] *)
Definition PORT (environ : gmap string string) : result Z := Val 8080%Z.
End AuthflowCallback.

(** The requests the two [send_rpc_request] build. *)
Definition e2e_request (method : str) (params : json) (id : Z) : json :=
  match params with
  | JNull => request0 method id
  | _ => request method params id
  end.

Definition basic_request {F : FloatSem} (method : str) (params : json) (id : Z)
  : json :=
  if truthy params then request method params id else request0 method id.

(** ** Notions the statements use *)

(** The handle of an action, as the service builds it. *)
Definition composite_key (tenant provider name : str) : str :=
  s2u "trn:openact:" ++ tenant ++ s2u ":action/" ++ provider ++ s2u "/" ++
  name ++ s2u "@v1".

(** The text [msg] holds one of the three idempotency markers. *)
Definition has_marker (msg : str) : bool :=
  contains "UNIQUE constraint failed: actions.trn" msg ||
  contains "already exists" msg ||
  contains "Invalid input" msg.

(** [None], or a JSON object: what a response is when the child speaks
    JSON-RPC, or says nothing that parses. *)
Definition is_response (v : json) : Prop :=
  v = JNull \/ exists kvs, v = JObj kvs.

(** Sample hosts: cargo is on the path, the child starts and will write
    [out]; it exits in time when asked to ([world_of]) or does not
    ([stubborn_world_of]). *)
Definition world_of (out : bytes) : world :=
  World ∅ true "/repo/target/debug/openact-stdio" false true out true [].

Definition stubborn_world_of (out : bytes) : world :=
  World ∅ true "/repo/target/debug/openact-stdio" false true out false [].

(** The bytes of some lines of JSON text, each ended by a line feed. *)
Definition lines (l : list string) : bytes :=
  flat_map (fun s => map byte_of_N (jtext s ++ [10])) l.

(** The child answers with a uniqueness conflict. *)
Definition conflict_world : world :=
  world_of (lines
    ["{'jsonrpc':'2.0','id':1,'error':{'code':-32000,'message':'UNIQUE constraint failed: actions.trn'}}"]).

(** The child answers with an empty object. *)
Definition empty_object_world : world := world_of (lines ["{}"]).

(** The child answers with an object that has neither [result] nor
    [error]. *)
Definition bare_world : world :=
  world_of (lines ["{'jsonrpc':'2.0','id':1}"]).



(** The child answers under another id than the request's. *)
Definition other_id_world : world :=
  world_of (lines ["{'jsonrpc':'2.0','id':999,'result':{}}"]).

(** Two worlds on the same host: they differ at most in what was read and
    what was done. *)
Definition same_host (w w' : world) : Prop :=
  environ w' = environ w /\ cargo_on_path w' = cargo_on_path w /\
  binary_path w' = binary_path w /\ binary_exists w' = binary_exists w /\
  spawn_ok w' = spawn_ok w /\ exits_in_time w' = exits_in_time w.

(** A command that only talks to the child: whatever it returns, it adds
    requests and reads to the trace and nothing else. *)
Definition exchanges_only {A} (m : M A) : Prop :=
  forall w, exists evs,
    trace (snd (m w)) = trace w ++ evs /\
    Forall (fun e => is_io e = true) evs /\
    same_host w (snd (m w)).

Definition is_terminate (e : event) : bool :=
  match e with Terminate => true | _ => false end.

(** How many times [terminate()] was called. *)
Definition terminations (t : list event) : nat :=
  length (List.filter is_terminate t).

(** The child answers the health check, then nothing. *)
Definition health_only_world : world :=
  world_of (lines ["{'jsonrpc':'2.0','id':1,'result':{}}"]).

(** The child refuses [auth.pat] and lists three connections. *)
Definition listing_world : world :=
  world_of (lines
    ["{'jsonrpc':'2.0','id':1,'error':{'code':-32000,'message':'exists'}}";
     "{'jsonrpc':'2.0','id':1,'result':{'connections':['trn:openact:other:connection/github/u','trn:openact:test:connection/github/user1','trn:openact:test:connection/github/user2']}}"]).

(** The answers of a service to a first, undisturbed run of the workflow. *)
Definition happy_lines : list string :=
  ["{'jsonrpc':'2.0','id':1,'result':{'status':'ok'}}";
   "{'jsonrpc':'2.0','id':1,'error':{'code':-32000,'message':'not found'}}";
   "{'jsonrpc':'2.0','id':1,'result':{'action_trn':'trn:openact:test:action/github/get-user@v1'}}";
   "{'jsonrpc':'2.0','id':1,'result':{}}";
   "{'jsonrpc':'2.0','id':1,'result':{'connection_trn':'trn:openact:test:connection/github/user1'}}";
   "{'jsonrpc':'2.0','id':1,'result':{}}";
   "{'jsonrpc':'2.0','id':1,'result':{'execution_trn':'trn:openact:test:execution/1'}}";
   "{'jsonrpc':'2.0','id':1,'result':{'execution':{}}}";
   "{'jsonrpc':'2.0','id':1,'result':{'executions':[]}}"].

Definition happy_world : world := world_of (lines happy_lines).

(** The same service on a host where [HOME] is set. *)
Definition home_world : world :=
  World {[ "HOME" := "/root" ]} true "/repo/target/debug/openact-stdio" false
        true (lines happy_lines) true [].

(** The child answers the health check, then sends a byte that is no
    UTF-8. *)
Definition bad_utf8_world : world :=
  world_of (lines ["{'jsonrpc':'2.0','id':1,'result':{}}"] ++ [xff; x0a]).

(** The command [E2E.main] starts on a host where it starts one. *)
Definition chosen_command (w : world) : list string :=
  if cargo_on_path w then ["cargo"; "run"; "-q"; "-p"; "openact-stdio"]
  else [binary_path w].

(** The variables the scripts set for the child. *)
Definition allow_list : gset string :=
  {[ "OPENACT_DATABASE_URL"; "OPENACT_MASTER_KEY"; "RUST_LOG" ]}.

Definition is_popen (e : event) : bool :=
  match e with Popen _ _ => true | _ => false end.

(** ** The wire format, read back *)

(** What the harness does with a line it reads, short of replacing a failure
    by [None]: decode the bytes, strip the text, parse it. *)
Definition decode_line (x : bytes) : option json :=
  text ← bytes_decode x; loads (strip text).

(** A Unicode scalar value: a code point that is no surrogate.  These are
    the characters UTF-8 can carry. *)
Definition scalarb (c : N) : bool :=
  (c <? 55296) || ((57343 <? c) && (c <=? 1114111)).

Definition text_ok (s : str) : bool := forallb scalarb s.

(** The JSON values without floats, whose strings are made of scalar values
    and whose objects have each key once: the values for which the round
    trip through the wire format is proved below. *)
Fixpoint json_ok (v : json) : bool :=
  match v with
  | JNull | JBool _ | JInt _ => true
  | JFloat _ => false
  | JStr s => text_ok s
  | JArr xs =>
      (fix all (l : list json) : bool :=
         match l with
         | [] => true
         | x :: t => json_ok x && all t
         end) xs
  | JObj kvs =>
      (fix all (l : list (str * json)) : bool :=
         match l with
         | [] => true
         | kv :: t =>
             text_ok (fst kv) && json_ok (snd kv) &&
             negb (has_key (fst kv) t) && all t
         end) kvs
  end.

(** The calls [scan_once] nests to read a value back. *)
Fixpoint weight (v : json) : nat :=
  match v with
  | JArr xs =>
      S ((fix sum (l : list json) : nat :=
            match l with
            | [] => O
            | x :: t => S (weight x + sum t)
            end) xs)
  | JObj kvs =>
      S ((fix sum (l : list (str * json)) : nat :=
            match l with
            | [] => O
            | kv :: t => S (weight (snd kv) + sum t)
            end) kvs)
  | _ => 1%nat
  end.

(** What may follow a number for it to end there. *)
Definition ends_number (rest : str) : Prop :=
  match rest with
  | [] => True
  | c :: _ => isdigit c = false /\ c <> 46 /\ c <> 101 /\ c <> 69
  end.

(** The request line the spec gives as the wire form, without the blanks
    [json.dumps] puts after commas and colons. *)
Definition compact_line : bytes :=
  lines ["{'jsonrpc':'2.0','method':'health','id':1}"].

(** [weight] and [json_ok] over the elements of an array and the members of an
    object. *)
Definition weights (xs : list json) : nat :=
  fold_right (fun x n => S (weight x + n)) O xs.

Definition member_weights (kvs : list (str * json)) : nat :=
  fold_right (fun kv n => S (weight (snd kv) + n)) O kvs.

Fixpoint members_ok (kvs : list (str * json)) : bool :=
  match kvs with
  | [] => true
  | kv :: t =>
      text_ok (fst kv) && json_ok (snd kv) && negb (has_key (fst kv) t) &&
      members_ok t
  end.

(** [scan_once] reads [v] back from what [dumps] wrote for it, whatever
    follows, given fuel for the calls it nests. *)
Definition reads_back {F : FloatSem} (v : json) : Prop :=
  json_ok v = true ->
  forall (rest : str) (fuel : nat),
    ends_number rest -> (weight v <= fuel)%nat ->
    scan_once fuel (dumps v ++ rest) = Some (v, rest).

(** What [dumps] writes for one member of an object, and for what follows a
    member: the closing brace, or a comma and the members left. *)
Definition member_text {F : FloatSem} (kv : str * json) : str :=
  encode_basestring_ascii (fst kv) ++ s2u ": " ++ dumps (snd kv).

Definition members_tail {F : FloatSem} (kvs : list (str * json)) (rest : str)
  : str :=
  match kvs with
  | [] => 125 :: rest
  | _ => 44 :: 32 :: join ", " (map member_text kvs) ++ 125 :: rest
  end.

(** ** Runs as a whole *)

(** The methods a full run of the workflow calls, in order: [auth.list] is
    among them only when [auth.pat] did not succeed, [binding.get] only when
    [binding.create] did not. *)
Definition workflow_methods (listed fetched : bool) : list json :=
  [JStr "health"; JStr "action.delete"; JStr "action.register";
   JStr "action.update"; JStr "auth.pat"] ++
  (if listed then [JStr "auth.list"] else []) ++
  [JStr "binding.create"] ++
  (if fetched then [JStr "binding.get"] else []) ++
  [JStr "run"; JStr "execution.get"; JStr "execution.list"].

(** The lines the next [n] calls of [readline] return. *)
Fixpoint answers (n : nat) (out : bytes) : list bytes :=
  match n with
  | O => []
  | S n' => fst (readline out) :: answers n' (snd (readline out))
  end.

(** What [send_rpc_request] makes of the line it read. *)
Definition answer (line : bytes) : result json :=
  match bytes_decode line with
  | Some text => Val (decode_response text)
  | None => Exc UnicodeDecodeError
  end.

(** Requests written and lines read, one for one. *)
Fixpoint dialogue (reqs : list json) (ls : list bytes) : list event :=
  match reqs, ls with
  | q :: reqs', l :: ls' => Send q :: Readline l :: dialogue reqs' ls'
  | _, _ => []
  end.

(** A request as the two scripts build them: no [request_id] is ever
    passed, so the id is the default. *)
Definition rpc_request (req : json) : Prop :=
  exists method,
    req = request0 method 1 \/ exists params, req = request method params 1.

(** A stretch of a trace in which every request written is followed by one
    read, and nothing else is done. *)
Inductive lockstep : list event -> Prop :=
| lockstep_nil : lockstep []
| lockstep_cons (req : json) (line : bytes) (evs : list event) :
    rpc_request req -> lockstep evs ->
    lockstep (Send req :: Readline line :: evs).

Definition in_lockstep {A} (m : M A) : Prop :=
  forall w, exists evs,
    trace (snd (m w)) = trace w ++ evs /\ lockstep evs.

(** A command that raises nothing an [except Exception] clause lets
    through. *)
Definition raises_exceptions_only {A} (m : M A) : Prop :=
  forall w e w', m w = (Exc e, w') -> is_Exception e = true.


(** A text without control characters. *)
Definition no_control (s : str) : Prop := Forall (fun c => 32 <= c) s.

(** A text of blanks only, as [str.strip] sees them. *)
Definition blank (s : str) : Prop := Forall (fun c => isspace c = true) s.


(** ** urllib.parse, as far as the callback handler uses it *)

(** [s.split(sep, 1)]: what is before and after the first [sep]; [None]
    when there is no [sep]. *)
Fixpoint split_once (sep : N) (s : str) : option (str * str) :=
  match s with
  | [] => None
  | c :: t =>
      if c =? sep then Some ([], t)
      else '(a, b) ← split_once sep t; Some (c :: a, b)
  end.

(** [s.split(sep)], as its first piece and the others. *)
Fixpoint pieces (sep : N) (s : str) : str * list str :=
  match s with
  | [] => ([], [])
  | c :: t =>
      let '(p, ps) := pieces sep t in
      if c =? sep then ([], p :: ps) else (c :: p, ps)
  end.

Definition split_all (sep : N) (s : str) : list str :=
  let '(p, ps) := pieces sep s in p :: ps.

(** [urlparse(path).query] for a path that starts with a slash followed by
    something else than a slash, as every path the handler parses does: no
    scheme and no host are found in it.  Tabs, carriage returns and line
    feeds are dropped, the fragment is cut off at the first [#], and the query
    is what follows the first [?] of the rest. *)
Definition url_query (path : str) : str :=
  let url :=
    List.filter (fun c => negb ((c =? 9) || (c =? 13) || (c =? 10))) path in
  let url := match split_once 35 url with Some (u, _) => u | None => url end in
  match split_once 63 url with Some (_, q) => q | None => [] end.

(** What [unquote_to_bytes] makes of the text between two percent signs:
    a byte and the rest when it starts with two hexadecimal digits, and the
    percent sign with the text as it is otherwise. *)
Definition unquote_item (item : str) : list N :=
  match item with
  | h1 :: h2 :: r =>
      match hexval h1, hexval h2 with
      | Some a, Some b => (a * 16 + b) :: r
      | _, _ => 37 :: item
      end
  | _ => 37 :: item
  end.

(** [unquote_to_bytes(s)] for an ASCII [s]. *)
Definition unquote_to_bytes (s : str) : list N :=
  let '(first, items) := pieces 37 s in
  first ++ flat_map unquote_item items.

(** [bytes.decode("utf-8", "replace")]: every maximal ill-formed stretch, as
    CPython's decoder delimits it, gives one U+FFFD.  A byte that cannot start
    a character is a stretch of its own; a lead byte whose next byte cannot
    follow it is one too, and decoding resumes at that next byte; a
    character cut short by the end of the input is one stretch. *)
Fixpoint utf8_decode_replace (bs : list N) : str :=
  match bs with
  | [] => []
  | b0 :: r0 =>
      if b0 <? 128 then b0 :: utf8_decode_replace r0
      else if b0 <? 194 then 65533 :: utf8_decode_replace r0
      else if b0 <? 224 then
        match r0 with
        | [] => [65533]
        | b1 :: r1 =>
            if is_cont b1
            then (b0 - 192) * 64 + (b1 - 128) :: utf8_decode_replace r1
            else 65533 :: utf8_decode_replace r0
        end
      else if b0 <? 240 then
        match r0 with
        | [] => [65533]
        | b1 :: r1 =>
            if negb (is_cont b1) ||
               (if b1 <? 160 then b0 =? 224 else b0 =? 237)
            then 65533 :: utf8_decode_replace r0
            else
              match r1 with
              | [] => [65533]
              | b2 :: r2 =>
                  if is_cont b2
                  then (b0 - 224) * 4096 + (b1 - 128) * 64 + (b2 - 128)
                       :: utf8_decode_replace r2
                  else 65533 :: utf8_decode_replace r1
              end
        end
      else if b0 <? 245 then
        match r0 with
        | [] => [65533]
        | b1 :: r1 =>
            if negb (is_cont b1) ||
               (if b1 <? 144 then b0 =? 240 else b0 =? 244)
            then 65533 :: utf8_decode_replace r0
            else
              match r1 with
              | [] => [65533]
              | b2 :: r2 =>
                  if negb (is_cont b2)
                  then 65533 :: utf8_decode_replace r1
                  else
                    match r2 with
                    | [] => [65533]
                    | b3 :: r3 =>
                        if is_cont b3
                        then (b0 - 240) * 262144 + (b1 - 128) * 4096 +
                             (b2 - 128) * 64 + (b3 - 128)
                             :: utf8_decode_replace r3
                        else 65533 :: utf8_decode_replace r2
                    end
              end
        end
      else 65533 :: utf8_decode_replace r0
  end.

(** The maximal runs of ASCII and of other characters a text is made of,
    each with whether it is ASCII: what [_asciire.split] cuts it into. *)
Fixpoint ascii_runs (s : str) : list (bool * str) :=
  match s with
  | [] => []
  | c :: t =>
      let a := c <? 128 in
      match ascii_runs t with
      | (a', r) :: rs =>
          if Bool.eqb a a' then (a, c :: r) :: rs
          else (a, [c]) :: (a', r) :: rs
      | [] => [(a, [c])]
      end
  end.

(** [unquote(s)] (UTF-8, errors replaced): the percent escapes of each ASCII
    run are turned into bytes and the run is decoded; the other characters
    stay. *)
Definition unquote (s : str) : str :=
  if existsb (N.eqb 37) s then
    flat_map (fun run : bool * str =>
                if fst run then utf8_decode_replace (unquote_to_bytes (snd run))
                else snd run)
             (ascii_runs s)
  else s.

(** [s.replace("+", " ")] *)
Definition plus_to_space (s : str) : str :=
  map (fun c => if c =? 43 then 32 else c) s.

(** What [parse_qsl] makes of one field: nothing when it is empty, has no
    [=] or has nothing after it, and the unquoted name and value otherwise. *)
Definition parse_field (name_value : str) : list (str * str) :=
  match split_once 61 name_value with
  | Some (name, c :: value) =>
      [(unquote (plus_to_space name), unquote (plus_to_space (c :: value)))]
  | _ => []
  end.

(** [parse_qsl(qs)] (separator [&], blank values dropped, not strict). *)
Definition parse_qsl (qs : str) : list (str * str) :=
  match qs with
  | [] => []
  | _ => flat_map parse_field (split_all 38 qs)
  end.

(** [parsed_result[name].append(value)], or [parsed_result[name] = [value]]
    for a new name.  Each name has its first value and the later ones. *)
Fixpoint qs_add (d : list (str * (str * list str))) (name value : str)
  : list (str * (str * list str)) :=
  match d with
  | [] => [(name, (value, []))]
  | (k, (v, vs)) :: t =>
      if str_eqb k name then (k, (v, vs ++ [value])) :: t
      else (k, (v, vs)) :: qs_add t name value
  end.

(** [parse_qs(qs)] *)
Definition parse_qs (qs : str) : list (str * (str * list str)) :=
  fold_left (fun d nv => qs_add d (fst nv) (snd nv)) (parse_qsl qs) [].

(** [query_params.get(name, [None])[0]] *)
Fixpoint first_value (d : list (str * (str * list str))) (name : str)
  : option str :=
  match d with
  | [] => None
  | (k, (v, _)) :: t => if str_eqb k name then Some v else first_value t name
  end.

(** ** src/scripts/callback_server.py: the handler *)

Module CallbackHandler.

(** What the handler does to the connection and to the file system. *)
Inductive action :=
| SendResponse (code : Z)              (** [self.send_response(code)] *)
| SendHeader (keyword value : str)     (** [self.send_header(...)] *)
| EndHeaders                           (** [self.end_headers()] *)
| Write (body : bytes)                 (** [self.wfile.write(body)] *)
| OpenForWriting (path : str)          (** [open(path, 'w')] returned *)
| FileWrite (text : str).              (** [f.write(text)] returned *)

(** What the handler depends on besides the request: whether the file can be
    opened, and which texts the locale's encoding can write. *)
Record host := Host {
  can_open : bool;
  can_encode : str -> bool
}.

Definition code_file : str := "/tmp/github_auth_code.txt".

Definition content_type : action :=
  SendHeader "Content-type" "text/html; charset=utf-8".

(** [f"<h1>OAuth error: {error}</h1>"] *)
Definition error_page (error : str) : str :=
  s2u "<h1>OAuth error: " ++ error ++ s2u "</h1>".

(** The page of the success branch; its heading starts with U+2705. *)
Definition success_page : str :=
  s2u "<html><head><title>Authorization Successful</title></head><body><h1>"
  ++ [9989] ++
  s2u " GitHub Authorization Successful!</h1><p>The authorization code has been saved. You can continue the OAuth2 process.</p><p>Please return to the terminal to see the results.</p></body></html>".

Definition missing_page : str := "<h1>Authorization code not found</h1>".

(** [self.wfile.write(html.encode('utf-8'))], after the actions [before] *)
Definition write_page (before : list action) (html : str)
  : list action * result unit :=
  match str_encode html with
  | Some body => (before ++ [Write body], Val tt)
  | None => (before, Exc UnicodeEncodeError)
  end.

(** [bool(v)] for what [first_value] gives: [None] and the empty text are
    falsy. *)
Definition given (v : option str) : option str :=
  match v with
  | Some (c :: t) => Some (c :: t)
  | _ => None
  end.

(** [do_GET(self)], as what it does and how it ends, for the request path
    [path].  The calls of [print] are not modelled. *)
Definition do_GET (h : host) (path : str) : list action * result unit :=
  if starts_with "/oauth/callback" path then
    let query_params := parse_qs (url_query path) in
    let code := first_value query_params "code" in
    let error := first_value query_params "error" in
    match given error with
    | Some error =>
        write_page [SendResponse 400; content_type; EndHeaders]
                   (error_page error)
    | None =>
        match given code with
        | Some code =>
            if can_open h then
              if can_encode h code then
                write_page [OpenForWriting code_file; FileWrite code;
                            SendResponse 200; content_type; EndHeaders]
                           success_page
              else ([OpenForWriting code_file], Exc UnicodeEncodeError)
            else ([], Exc OSError)
        | None =>
            write_page [SendResponse 400; content_type; EndHeaders]
                       missing_page
        end
    end
  else ([SendResponse 404; EndHeaders], Val tt).
End CallbackHandler.

(** ** Notions for the callback handler *)

(** A text that reaches the handler's parser as it is: neither a tab, a
    carriage return or a line feed, which [urlsplit] drops, nor a [#], which
    starts the fragment. *)
Definition query_safe (s : str) : bool :=
  forallb (fun c => negb ((c =? 9) || (c =? 13) || (c =? 10) || (c =? 35))) s.

(** A text that is its own value as a query parameter: query-safe, and
    without [&], [+] and [%]. *)
Definition plain (s : str) : bool :=
  query_safe s &&
  forallb (fun c => negb ((c =? 38) || (c =? 43) || (c =? 37))) s.



(** The first value under [name] in a list of fields. *)
Fixpoint first_in (fields : list (str * str)) (name : str) : option str :=
  match fields with
  | [] => None
  | (n, v) :: t => if str_eqb n name then Some v else first_in t name
  end.

(** A host on which the file can be written, in UTF-8. *)
Definition utf8_host : CallbackHandler.host :=
  CallbackHandler.Host true
    (fun s => match utf8_encode s with Some _ => true | None => false end).

(** A stretch of a path that holds nothing [urlsplit] drops or cuts at: no
    tab, carriage return or line feed, no [#] and no [?]. *)
Definition segment (s : str) : bool :=
  forallb
    (fun c => negb ((c =? 9) || (c =? 13) || (c =? 10) || (c =? 35) ||
                    (c =? 63))) s.

(** * Properties *)

(** ** Induction on JSON values *)

Lemma json_ind' (P : json -> Prop) :
  P JNull ->
  (forall b, P (JBool b)) ->
  (forall z, P (JInt z)) ->
  (forall lit, P (JFloat lit)) ->
  (forall s, P (JStr s)) ->
  (forall xs, Forall P xs -> P (JArr xs)) ->
  (forall kvs, Forall (fun kv => P (snd kv)) kvs -> P (JObj kvs)) ->
  forall v, P v.
Proof.
  intros Hnull Hbool Hint Hfloat Hstr Harr Hobj.
  fix IH 1. intros [ | b | z | lit | s | xs | kvs ].
  - exact Hnull.
  - apply Hbool.
  - apply Hint.
  - apply Hfloat.
  - apply Hstr.
  - apply Harr. induction xs as [ | x xs IHxs ].
    + constructor.
    + constructor; [ apply IH | exact IHxs ].
  - apply Hobj. induction kvs as [ | [k x] kvs IHkvs ].
    + constructor.
    + constructor; [ apply IH | exact IHkvs ].
Qed.

(** ** What [json.dumps] writes is ASCII, so encoding a request never fails *)

Lemma ascii_text_app (a b : str) :
  ascii_text a -> ascii_text b -> ascii_text (a ++ b).
Proof. unfold ascii_text. intros Ha Hb. apply Forall_app. split; assumption. Qed.

Lemma ascii_text_s2u (s : string) :
  forallb (fun c => c <? 128) (s2u s) = true -> ascii_text (s2u s).
Proof.
  unfold ascii_text. intros H. apply Forall_forall. intros c Hc.
  rewrite forallb_forall in H. apply N.ltb_lt. apply H.
  apply list_elem_of_In. exact Hc.
Qed.

Lemma uint_chars_ascii (u : Decimal.uint) : ascii_text (uint_chars u).
Proof.
  unfold ascii_text.
  induction u; simpl; constructor; try assumption; lia.
Qed.

Lemma int_repr_ascii (z : Z) : ascii_text (int_repr z).
Proof.
  destruct z; unfold int_repr; try apply uint_chars_ascii.
  constructor; [ lia | apply uint_chars_ascii ].
Qed.

Lemma hexdigit_ascii (d : N) : d < 16 -> hexdigit d < 128.
Proof. unfold hexdigit. intros H. destruct (N.ltb_spec d 10); lia. Qed.

Lemma uescape_ascii (n : N) : ascii_text (uescape n).
Proof.
  unfold ascii_text, uescape.
  repeat constructor; try lia;
    apply hexdigit_ascii; apply N.mod_lt; lia.
Qed.

Lemma escape_char_ascii (c : N) : ascii_text (escape_char c).
Proof.
  unfold escape_char.
  repeat match goal with
         | |- context [if ?b then _ else _] => destruct b eqn:?
         end;
    try (unfold ascii_text; repeat constructor; lia);
    try apply uescape_ascii.
  - match goal with
    | H : (32 <=? c) && (c <=? 126) = true |- _ =>
        apply andb_true_iff in H; destruct H as [_ H]; apply N.leb_le in H
    end.
    unfold ascii_text. repeat constructor. lia.
  - apply ascii_text_app; apply uescape_ascii.
Qed.

Lemma encode_basestring_ascii_ascii (s : str) :
  ascii_text (encode_basestring_ascii s).
Proof.
  unfold encode_basestring_ascii.
  change (34 :: flat_map escape_char s ++ [34])
    with ([34] ++ flat_map escape_char s ++ [34]).
  apply ascii_text_app; [ unfold ascii_text; repeat constructor; lia | ].
  apply ascii_text_app; [ | unfold ascii_text; repeat constructor; lia ].
  induction s as [ | c s IH ]; simpl.
  - constructor.
  - apply ascii_text_app; [ apply escape_char_ascii | exact IH ].
Qed.

Lemma join_ascii (sep : str) (parts : list str) :
  ascii_text sep -> Forall ascii_text parts -> ascii_text (join sep parts).
Proof.
  intros Hsep Hparts. induction Hparts as [ | p ps Hp Hps IH ]; simpl.
  - constructor.
  - destruct ps as [ | q ps ]; [ exact Hp | ].
    apply ascii_text_app; [ exact Hp | ].
    apply ascii_text_app; [ exact Hsep | exact IH ].
Qed.

Lemma utf8_encode_ascii (s : str) : ascii_text s -> utf8_encode s = Some s.
Proof.
  intros H. induction H as [ | c s Hc Hs IH ]; simpl; [ reflexivity | ].
  unfold utf8_encode1. apply N.ltb_lt in Hc. rewrite Hc, IH. reflexivity.
Qed.

Lemma list_rect_map {A B} (f : A -> B) (xs : list A) :
  list_rect (fun _ => list B) [] (fun x _ r => f x :: r) xs = map f xs.
Proof. induction xs as [ | x xs IH ]; simpl; [ reflexivity | now rewrite IH ]. Qed.

Section DumpsFacts.
Context {F : FloatSem}.

Lemma dumps_JArr (xs : list json) :
  dumps (JArr xs) = 91 :: join ", " (map dumps xs) ++ [93].
Proof. rewrite <- list_rect_map. reflexivity. Qed.

Lemma dumps_JObj (kvs : list (str * json)) :
  dumps (JObj kvs) =
  123 :: join ", "
           (map (fun kv => encode_basestring_ascii (fst kv) ++ s2u ": " ++
                           dumps (snd kv)) kvs) ++ [125].
Proof. rewrite <- list_rect_map. reflexivity. Qed.

Lemma dumps_ascii (v : json) : ascii_text (dumps v).
Proof.
  induction v as [ | b | z | lit | s | xs IH | kvs IH ] using json_ind'.
  - apply ascii_text_s2u. reflexivity.
  - destruct b; apply ascii_text_s2u; reflexivity.
  - apply int_repr_ascii.
  - apply float_repr_ascii.
  - apply encode_basestring_ascii_ascii.
  - rewrite dumps_JArr.
    apply (ascii_text_app [91]); [ unfold ascii_text; repeat constructor; lia | ].
    apply ascii_text_app; [ | unfold ascii_text; repeat constructor; lia ].
    apply join_ascii; [ apply ascii_text_s2u; reflexivity | ].
    induction IH as [ | x xs Hx Hxs IHxs ]; cbn [map]; constructor; assumption.
  - rewrite dumps_JObj.
    apply (ascii_text_app [123]); [ unfold ascii_text; repeat constructor; lia | ].
    apply ascii_text_app; [ | unfold ascii_text; repeat constructor; lia ].
    apply join_ascii; [ apply ascii_text_s2u; reflexivity | ].
    induction IH as [ | [k x] kvs Hx Hkvs IHkvs ]; cbn [map fst snd];
      constructor; [ | assumption ].
    apply ascii_text_app; [ apply encode_basestring_ascii_ascii | ].
    apply ascii_text_app; [ apply ascii_text_s2u; reflexivity | exact Hx ].
Qed.

(** [line.encode()] succeeds on every request. *)
Lemma wire_eq (req : json) :
  wire req = Some (map byte_of_N (dumps req ++ [10])).
Proof.
  unfold wire, str_encode. rewrite utf8_encode_ascii; [ reflexivity | ].
  apply ascii_text_app; [ apply dumps_ascii | ].
  unfold ascii_text. repeat constructor.
Qed.
End DumpsFacts.

(** ** One exchange *)

Lemma trace_log (e : event) (w : world) : trace (log e w) = trace w ++ [e].
Proof. reflexivity. Qed.

Lemma trace_exchange (req : json) (w : world) :
  trace (exchange req w) = trace w ++ [Send req; Readline (next_line w)].
Proof. unfold exchange. simpl. rewrite <- app_assoc. reflexivity. Qed.

Lemma bind_run {A B} (m : M A) (k : A -> M B) (w : world) :
  (m ≫= k) w =
  match m w with
  | (Val a, w') => k a w'
  | (Exc e, w') => (Exc e, w')
  end.
Proof. reflexivity. Qed.

Lemma readline_split (bs : bytes) :
  readline bs = (fst (readline bs), snd (readline bs)).
Proof. destruct (readline bs); reflexivity. Qed.

Section Exchange.
Context {F : FloatSem}.

(** [E2E.send_rpc_request] writes its request, reads one line, and returns
    what the line decodes to; it raises only when the line is not UTF-8. *)
Lemma e2e_send (method : str) (params : json) (id : Z) (w : world) :
  E2E.send_rpc_request method params id w =
  (reply w, exchange (e2e_request method params id) w).
Proof.
  unfold E2E.send_rpc_request.
  assert (Hreq :
    JObj (match params with
          | JNull => [(s2u "jsonrpc", JStr "2.0"); (s2u "method", JStr method);
                      (s2u "id", JInt id)]
          | _ => dict_set [(s2u "jsonrpc", JStr "2.0");
                           (s2u "method", JStr method);
                           (s2u "id", JInt id)] "params" params
          end) = e2e_request method params id)
    by (destruct params; reflexivity).
  rewrite Hreq. rewrite wire_eq.
  unfold mbind, M_bind, emit, stdout_readline, reply, exchange, next_line.
  rewrite (readline_split (child_out (log _ w))). simpl.
  destruct (bytes_decode (readline (child_out w)).1); reflexivity.
Qed.

Lemma basic_send (method : str) (params : json) (id : Z) (w : world) :
  Basic.send_rpc_request method params id w =
  (reply w, exchange (basic_request method params id) w).
Proof.
  unfold Basic.send_rpc_request.
  assert (Hreq :
    JObj (if truthy params
          then dict_set [(s2u "jsonrpc", JStr "2.0");
                         (s2u "method", JStr method);
                         (s2u "id", JInt id)] "params" params
          else [(s2u "jsonrpc", JStr "2.0"); (s2u "method", JStr method);
                (s2u "id", JInt id)]) = basic_request method params id)
    by (unfold basic_request; destruct (truthy params); reflexivity).
  rewrite Hreq. rewrite wire_eq.
  unfold mbind, M_bind, emit, stdout_readline, reply, exchange, next_line.
  rewrite (readline_split (child_out (log _ w))). simpl.
  destruct (bytes_decode (readline (child_out w)).1); reflexivity.
Qed.
End Exchange.

(** ** The steps, as functions of the reply *)

Ltac run_step :=
  unfold mbind, M_bind, lift;
  repeat first
    [ rewrite e2e_send; unfold e2e_request
    | match goal with
      | |- context [match ?r with Val _ => _ | Exc _ => _ end] =>
          destruct r eqn:?; simpl
      | |- context [if ?b then _ else _] => destruct b eqn:?; simpl
      end ];
  try reflexivity.

Section Steps.
Context {F : FloatSem}.

Lemma step_health_run (w : world) :
  E2E.step_health w =
  (r ← reply w; py_assert (is_success r), exchange (request0 "health" 1) w).
Proof. unfold E2E.step_health. run_step. Qed.

Lemma step_clean_run (w : world) :
  E2E.step_clean w =
  (reply w ;; Val tt,
   exchange (request "action.delete" E2E.delete_params 1) w).
Proof. unfold E2E.step_clean. run_step. Qed.

Lemma step_register_run (w : world) :
  E2E.step_register w =
  (r ← reply w; E2E.register_handle r,
   exchange (request "action.register" E2E.register_params 1) w).
Proof. unfold E2E.step_register. run_step. Qed.

Lemma step_update_run (a : json) (w : world) :
  E2E.step_update a w =
  (ru ← reply w; py_assert (E2E.update_accepted ru),
   exchange (request "action.update" (E2E.update_params a) 1) w).
Proof. unfold E2E.step_update. run_step. Qed.

Lemma step_run_run (a : json) (w : world) :
  E2E.step_run a w =
  (r ← reply w;
   py_assert (is_success r) ;; E2E.result_field "execution_trn" r,
   exchange (request "run" (E2E.run_params a) 1) w).
Proof. unfold E2E.step_run. run_step. Qed.

Lemma step_execution_get_run (x : json) (w : world) :
  E2E.step_execution_get x w =
  (r ← reply w; py_assert (E2E.has_result_field "execution" r),
   exchange (request "execution.get" (E2E.execution_get_params x) 1) w).
Proof. unfold E2E.step_execution_get. run_step. Qed.

Lemma step_execution_list_run (w : world) :
  E2E.step_execution_list w =
  (r ← reply w; py_assert (E2E.has_result_field "executions" r),
   exchange (request "execution.list" E2E.execution_list_params 1) w).
Proof. unfold E2E.step_execution_list. run_step. Qed.

(** Step 4 makes one exchange when [auth.pat] succeeded, or when telling
    so raised; two otherwise. *)
Lemma step_auth_run (w : world) :
  E2E.step_auth w =
  let w1 := exchange (request "auth.pat" E2E.auth_params 1) w in
  match r ← reply w; ok ← is_success r; Val (r, ok) with
  | Exc e => (Exc e, w1)
  | Val (r, true) => (E2E.result_field "connection_trn" r, w1)
  | Val (_, false) =>
      (rl ← reply w1; E2E.fallback_handle rl,
       exchange (request0 "auth.list" 1) w1)
  end.
Proof. unfold E2E.step_auth. run_step. Qed.

Lemma step_bind_run (a t : json) (w : world) :
  E2E.step_bind a t w =
  let w1 := exchange (request "binding.create" (E2E.bind_params a t) 1) w in
  match r ← reply w; ok ← is_success r; Val ok with
  | Exc e => (Exc e, w1)
  | Val true => (Val tt, w1)
  | Val false =>
      (rg ← reply w1; py_assert (is_success rg),
       exchange (request "binding.get" (E2E.binding_get_params a) 1) w1)
  end.
Proof. unfold E2E.step_bind. run_step. Qed.
End Steps.

(** ** Step 3: registration and the conflict recovery *)

Section Register.
Context {F : FloatSem}.

Lemma known_conflict_text (msg : str) :
  E2E.known_conflict (JStr msg) = Val (has_marker msg).
Proof.
  unfold E2E.known_conflict, has_marker, py_in. simpl.
  destruct (contains "UNIQUE constraint failed: actions.trn" msg);
    [ reflexivity | ].
  destruct (contains "already exists" msg); reflexivity.
Qed.

(** C1.  When the response [r] to [action.register] is not a success and
    carries a textual error message [msg] (absent parts defaulting to the
    empty text), step 3 returns a handle, and the workflow goes on with it,
    exactly when [msg] holds one of the three markers; the handle is then the
    composite key of the tenant, provider and name the request carried.
    With no marker the step raises [AssertionError] and nothing of the rest
    of the workflow runs. *)
Theorem register_conflict_recovery (w : world) (r : json) (msg : str) :
  reply w = Val r ->
  is_success r = Val false ->
  E2E.error_message r = Val (JStr msg) ->
  (forall t p n,
     getitem E2E.register_params "tenant" = Val (JStr t) ->
     getitem E2E.register_params "provider" = Val (JStr p) ->
     getitem E2E.register_params "name" = Val (JStr n) ->
     E2E.expected_action_trn = composite_key t p n) /\
  ((exists v w', E2E.step_register w = (Val v, w')) <->
   has_marker msg = true) /\
  (has_marker msg = true ->
   E2E.step_register w =
     (Val (JStr E2E.expected_action_trn),
      exchange (request "action.register" E2E.register_params 1) w) /\
   (a ← E2E.step_register; E2E.after_register a) w =
     E2E.after_register (JStr E2E.expected_action_trn)
       (exchange (request "action.register" E2E.register_params 1) w)) /\
  (has_marker msg = false ->
   (a ← E2E.step_register; E2E.after_register a) w =
     (Exc AssertionError,
      exchange (request "action.register" E2E.register_params 1) w)).
Proof.
  intros Hreply Hfail Hmsg.
  assert (Hstep : E2E.step_register w =
            (if has_marker msg then Val (JStr E2E.expected_action_trn)
             else Exc AssertionError,
             exchange (request "action.register" E2E.register_params 1) w)).
  { rewrite step_register_run, Hreply. simpl.
    unfold E2E.register_handle. rewrite Hfail. simpl.
    rewrite Hmsg. simpl. rewrite known_conflict_text. simpl.
    destruct (has_marker msg); reflexivity. }
  split; [ | split; [ | split ] ].
  - intros t p n Ht Hp Hn.
    injection Ht as <-. injection Hp as <-. injection Hn as <-.
    reflexivity.
  - rewrite Hstep. split.
    + intros (v & w' & Hv). destruct (has_marker msg);
        [ reflexivity | discriminate ].
    + intros ->. eauto.
  - intros Hm. unfold mbind at 1, M_bind. rewrite Hstep, Hm.
    split; reflexivity.
  - intros Hm. unfold mbind at 1, M_bind. rewrite Hstep, Hm. reflexivity.
Qed.
End Register.

Lemma register_conflict_recovery_witness :
  @E2E.step_register no_floats conflict_world =
  (Val (JStr (s2u "trn:openact:test:action/github/get-user@v1")),
   exchange (request "action.register" (@E2E.register_params) 1)
     conflict_world).
Proof.
  refine (proj1 (proj1 (proj2 (proj2
            (@register_conflict_recovery no_floats conflict_world
               (JObj [(s2u "jsonrpc", JStr "2.0"); (s2u "id", JInt 1);
                      (s2u "error",
                       JObj [(s2u "code", JInt (-32000));
                             (s2u "message",
                              JStr "UNIQUE constraint failed: actions.trn")])])
               "UNIQUE constraint failed: actions.trn" _ _ _))) _));
    vm_compute; reflexivity.
Defined.

(** ** Step 3b: the update and what it accepts *)

Section Update.
Context {F : FloatSem}.

Lemma update_accepted_object (kvs : list (str * json)) :
  E2E.update_accepted (JObj kvs) =
  Val (match kvs with [] => false | _ => true end &&
       (has_key "result" kvs || negb (has_key "error" kvs))).
Proof.
  unfold E2E.update_accepted. destruct kvs as [ | kv kvs ];
    [ reflexivity | ].
  cbn [truthy py_in mbind result_bind andb].
  destruct (has_key "result" (kv :: kvs)); reflexivity.
Qed.

(** C3, amended.  For a response [ru] to [action.update] that is [None] or
    a JSON object, the step is accepted exactly when [ru] is a nonempty
    object that has a [result] or lacks an [error]; the workflow then goes
    on to step 4, and otherwise ends with [AssertionError] there. *)
Theorem update_acceptance (w : world) (a ru : json) :
  reply w = Val ru ->
  is_response ru ->
  (E2E.step_update a w =
     (Val tt, exchange (request "action.update" (E2E.update_params a) 1) w)
   <-> exists kvs, ru = JObj kvs /\ kvs <> [] /\
         (has_key "result" kvs = true \/ has_key "error" kvs = false)) /\
  (E2E.step_update a w =
     (Val tt, exchange (request "action.update" (E2E.update_params a) 1) w)
   -> E2E.after_register a w =
      (t ← E2E.step_auth; E2E.after_auth a t)
        (exchange (request "action.update" (E2E.update_params a) 1) w)) /\
  (E2E.step_update a w <>
     (Val tt, exchange (request "action.update" (E2E.update_params a) 1) w)
   -> E2E.after_register a w =
      (Exc AssertionError,
       exchange (request "action.update" (E2E.update_params a) 1) w)).
Proof.
  intros Hreply Hshape.
  set (w1 := exchange (request "action.update" (E2E.update_params a) 1) w).
  assert (Hstep : exists b : bool,
            E2E.step_update a w =
              (if b then Val tt else Exc AssertionError, w1) /\
            (b = true <-> exists kvs, ru = JObj kvs /\ kvs <> [] /\
               (has_key "result" kvs = true \/ has_key "error" kvs = false))).
  { rewrite step_update_run, Hreply. cbn [mbind result_bind]. fold w1.
    destruct Hshape as [-> | [kvs ->]].
    - exists false. split; [ reflexivity | ].
      split; [ discriminate | ]. intros (kvs & Hk & _). discriminate.
    - rewrite update_accepted_object.
      exists (match kvs with [] => false | _ => true end &&
              (has_key "result" kvs || negb (has_key "error" kvs))).
      split.
      + unfold py_assert. cbn [mbind result_bind].
        destruct (_ && _); reflexivity.
      + split.
        * intros Hb. exists kvs. apply andb_true_iff in Hb.
          destruct Hb as [Hne Hor]. split; [ reflexivity | ].
          split; [ destruct kvs; [ discriminate | discriminate ] | ].
          apply orb_true_iff in Hor. destruct Hor as [Hr | He];
            [ left; exact Hr | right ].
          apply negb_true_iff in He. exact He.
        * intros (kvs' & Heq & Hne & Hor). injection Heq as <-.
          apply andb_true_iff. split.
          -- destruct kvs; [ congruence | reflexivity ].
          -- apply orb_true_iff. destruct Hor as [Hr | He];
               [ left; exact Hr | right; rewrite He; reflexivity ]. }
  destruct Hstep as (b & Hstep & Hb).
  split; [ | split ].
  - rewrite Hstep. rewrite <- Hb. destruct b; split; congruence.
  - intros Hok. unfold E2E.after_register, mbind at 1, M_bind.
    rewrite Hok. reflexivity.
  - intros Hno. unfold E2E.after_register, mbind at 1, M_bind.
    rewrite Hstep in *. destruct b; [ congruence | reflexivity ].
Qed.
End Update.

Lemma update_acceptance_witness :
  @E2E.step_update no_floats (JStr "a") bare_world =
  (Val tt,
   exchange (request "action.update" (E2E.update_params (JStr "a")) 1)
     bare_world).
Proof.
  refine (proj2 (proj1 (@update_acceptance no_floats bare_world (JStr "a")
                          (JObj [(s2u "jsonrpc", JStr "2.0");
                                 (s2u "id", JInt 1)]) _ _)) _).
  - vm_compute. reflexivity.
  - right. eexists. reflexivity.
  - eexists. split; [ reflexivity | ]. split; [ discriminate | ].
    right. vm_compute. reflexivity.
Defined.

(** C3 as stated fails on the empty object: it is a decoded response that is
    present and lacks an [error], and the step rejects it. *)
Lemma update_rejects_empty_object :
  reply empty_object_world = Val (JObj []) /\
  ~ (@E2E.step_update no_floats (JStr "a") empty_object_world =
       (Val tt,
        exchange (request "action.update" (E2E.update_params (JStr "a")) 1)
          empty_object_world)
     <-> JObj [] <> JNull /\
         (has_key "result" [] = true \/ has_key "error" [] = false)).
Proof.
  split; [ vm_compute; reflexivity | ].
  intros [_ H].
  assert (Hstep :
    @E2E.step_update no_floats (JStr "a") empty_object_world =
    (Exc AssertionError,
     exchange (request "action.update" (E2E.update_params (JStr "a")) 1)
       empty_object_world)) by (vm_compute; reflexivity).
  rewrite Hstep in H.
  assert (Hbad : (Exc AssertionError,
                  exchange (request "action.update"
                              (E2E.update_params (JStr "a")) 1)
                    empty_object_world) =
                 (@Val unit tt,
                  exchange (request "action.update"
                              (E2E.update_params (JStr "a")) 1)
                    empty_object_world)).
  { apply H. split; [ discriminate | right; reflexivity ]. }
  discriminate Hbad.
Qed.

(** ** The transport: what a line from the child becomes *)

Section Transport.
Context {F : FloatSem}.


(** The only exception of an exchange is [UnicodeDecodeError], when the
    line is not UTF-8. *)
Lemma e2e_send_raises (method : str) (params : json) (id : Z) (w : world)
    (e : exn) (w' : world) :
  E2E.send_rpc_request method params id w = (Exc e, w') ->
  e = UnicodeDecodeError /\ bytes_decode (next_line w) = None.
Proof.
  rewrite e2e_send. unfold reply.
  destruct (bytes_decode (next_line w)); intros H; inversion H; auto.
Qed.

(** C5, amended.  A response is returned as decoded whatever its [id]: an
    object whose [id] is not the request's comes back like any other, and
    whether it counts as a success depends on its [result] alone. *)
Theorem response_id_not_checked
    (method : str) (params : json) (id : Z) (w : world)
    (kvs : list (str * json)) :
  reply w = Val (JObj kvs) ->
  dict_get kvs "id" <> Some (JInt id) ->
  E2E.send_rpc_request method params id w =
    (Val (JObj kvs), exchange (e2e_request method params id) w) /\
  Basic.send_rpc_request method params id w =
    (Val (JObj kvs), exchange (basic_request method params id) w) /\
  is_success (JObj kvs) = Val (has_key "result" kvs).
Proof.
  intros Hreply _. rewrite e2e_send, basic_send, Hreply.
  split; [ reflexivity | ]. split; [ reflexivity | ].
  unfold is_success. destruct kvs; reflexivity.
Qed.
End Transport.



Lemma response_id_not_checked_witness :
  @E2E.send_rpc_request no_floats "health" JNull 1 other_id_world =
    (Val (JObj [(s2u "jsonrpc", JStr "2.0"); (s2u "id", JInt 999);
                (s2u "result", JObj [])]),
     exchange (e2e_request "health" JNull 1) other_id_world).
Proof.
  refine (proj1 (@response_id_not_checked no_floats "health" JNull 1
                   other_id_world _ _ _)).
  - vm_compute. reflexivity.
  - vm_compute. discriminate.
Defined.

(** C5 as stated fails: the request carries id 1, the response id 999, and
    the health check passes. *)
Lemma mismatched_id_is_accepted :
  e2e_request "health" JNull 1 = request0 "health" 1 /\
  (exists kvs, reply other_id_world = Val (JObj kvs) /\
               dict_get kvs "id" = Some (JInt 999)) /\
  @E2E.step_health no_floats other_id_world =
    (Val tt, exchange (request0 "health" 1) other_id_world).
Proof.
  split; [ reflexivity | ].
  split; [ | vm_compute; reflexivity ].
  eexists. split; vm_compute; reflexivity.
Qed.

(** ** Step 4: the auth connection and its fallback *)

Section Auth.
Context {F : FloatSem}.

Lemma candidates_spec (conns : list json) (c : json) :
  In c (E2E.candidates conns) <->
  In c conns /\
  exists s, c = JStr s /\ contains E2E.tenant s = true /\
            contains E2E.provider s = true.
Proof.
  unfold E2E.candidates. rewrite <- !list_elem_of_In, list_elem_of_filter.
  split.
  - intros [Hc Hin]. split; [ exact Hin | ].
    destruct c; try discriminate. simpl in Hc.
    apply andb_true_iff in Hc. eauto.
  - intros [Hin (s & -> & Ht & Hp)]. split; [ | exact Hin ].
    simpl. rewrite Ht, Hp. reflexivity.
Qed.

(** C2.  When the response [r] to [auth.pat] is not a success, step 4 calls
    [auth.list] next and nothing else.  With [rl] the response to that call:
    the step returns [c] exactly when [rl] is a success whose listed
    connections, filtered down to the strings that contain both the tenant
    and the provider, start with [c]; when no listed string contains both,
    the step raises, and the rest of the workflow ends there with the two
    requests of step 4 as its only ones: [binding.create] is never sent. *)
Theorem auth_fallback (w : world) (a r rl : json) :
  reply w = Val r ->
  is_success r = Val false ->
  reply (exchange (request "auth.pat" E2E.auth_params 1) w) = Val rl ->
  let w1 := exchange (request "auth.pat" E2E.auth_params 1) w in
  let w2 := exchange (request0 "auth.list" 1) w1 in
  trace w2 =
    trace w ++ [Send (request "auth.pat" E2E.auth_params 1);
                Readline (next_line w);
                Send (request0 "auth.list" 1);
                Readline (next_line w1)] /\
  (forall c,
     E2E.step_auth w = (Val c, w2) <->
     exists conns,
       is_success rl = Val true /\
       E2E.listed_connections rl = Val conns /\
       head (E2E.candidates conns) = Some c) /\
  (forall conns c,
     In c (E2E.candidates conns) <->
     In c conns /\
     exists s, c = JStr s /\ contains E2E.tenant s = true /\
               contains E2E.provider s = true) /\
  ((forall conns, is_success rl = Val true ->
                  E2E.listed_connections rl = Val conns ->
                  E2E.candidates conns = []) ->
   exists e,
     E2E.step_auth w = (Exc e, w2) /\
     (t ← E2E.step_auth; E2E.after_auth a t) w = (Exc e, w2) /\
     calls (trace w2) =
       calls (trace w) ++ [JStr "auth.pat"; JStr "auth.list"]).
Proof.
  intros Hr Hfail Hrl w1 w2.
  assert (Hstep : E2E.step_auth w = (E2E.fallback_handle rl, w2)).
  { rewrite step_auth_run. cbn zeta. rewrite Hr. cbn [mbind result_bind].
    rewrite Hfail. cbn [mbind result_bind]. rewrite Hrl.
    reflexivity. }
  split; [ | split; [ | split ] ].
  - unfold w2, w1. rewrite !trace_exchange, <- app_assoc. reflexivity.
  - intros c. rewrite Hstep. unfold E2E.fallback_handle, py_assert.
    cbn [mbind result_bind].
    destruct (is_success rl) as [ [ | ] | e ]; cbn [mbind result_bind].
    + destruct (E2E.listed_connections rl) as [conns | e];
        cbn [mbind result_bind].
      * split.
        -- intros H. exists conns. split; [ reflexivity | ].
           split; [ reflexivity | ].
           destruct (E2E.candidates conns); [ discriminate | ].
           inversion H. reflexivity.
        -- intros (conns' & _ & Hc & Hhead). injection Hc as <-.
           destruct (E2E.candidates conns); [ discriminate | ].
           simpl in Hhead. injection Hhead as ->. reflexivity.
      * split; [ discriminate | ].
        intros (conns & _ & Hc & _). discriminate.
    + split; [ discriminate | ]. intros (conns & Hs & _). discriminate.
    + split; [ discriminate | ]. intros (conns & Hs & _). discriminate.
  - intros conns c. apply candidates_spec.
  - intros Hnone.
    assert (He : exists e, E2E.fallback_handle rl = Exc e).
    { unfold E2E.fallback_handle, py_assert. cbn [mbind result_bind].
      destruct (is_success rl) as [ [ | ] | e ]; cbn [mbind result_bind];
        eauto.
      destruct (E2E.listed_connections rl) as [conns | e];
        cbn [mbind result_bind]; eauto.
      rewrite (Hnone conns eq_refl eq_refl). eauto. }
    destruct He as [e He]. exists e. rewrite Hstep, He.
    split; [ reflexivity | ]. split.
    + unfold mbind at 1, M_bind. rewrite Hstep, He. reflexivity.
    + unfold w2, w1. rewrite !trace_exchange. unfold calls.
      rewrite !omap_app, <- app_assoc. reflexivity.
Qed.
End Auth.

Lemma auth_fallback_witness :
  @E2E.step_auth no_floats listing_world =
  (Val (JStr "trn:openact:test:connection/github/user1"),
   exchange (request0 "auth.list" 1)
     (exchange (request "auth.pat" E2E.auth_params 1) listing_world)).
Proof.
  refine (proj2 (proj1 (proj2
            (@auth_fallback no_floats listing_world JNull
               (JObj [(s2u "jsonrpc", JStr "2.0"); (s2u "id", JInt 1);
                      (s2u "error",
                       JObj [(s2u "code", JInt (-32000));
                             (s2u "message", JStr "exists")])])
               (JObj [(s2u "jsonrpc", JStr "2.0"); (s2u "id", JInt 1);
                      (s2u "result",
                       JObj [(s2u "connections",
                              JArr [JStr "trn:openact:other:connection/github/u";
                                    JStr "trn:openact:test:connection/github/user1";
                                    JStr "trn:openact:test:connection/github/user2"])])])
               _ _ _)) _) _).
  - vm_compute. reflexivity.
  - vm_compute. reflexivity.
  - vm_compute. reflexivity.
  - eexists. split; [ vm_compute; reflexivity | ].
    split; vm_compute; reflexivity.
Defined.

(** ** Commands that only talk to the child *)

Lemma same_host_refl (w : world) : same_host w w.
Proof. unfold same_host. tauto. Qed.

Lemma same_host_trans (w1 w2 w3 : world) :
  same_host w1 w2 -> same_host w2 w3 -> same_host w1 w3.
Proof. unfold same_host. intuition congruence. Qed.

Lemma same_host_exchange (req : json) (w : world) :
  same_host w (exchange req w).
Proof. unfold same_host, exchange. simpl. tauto. Qed.

Lemma exchanges_only_ret {A} (a : A) : exchanges_only (mret a : M A).
Proof.
  intros w. exists []. simpl. rewrite app_nil_r.
  split; [ reflexivity | ]. split; [ constructor | apply same_host_refl ].
Qed.

Lemma exchanges_only_raise {A} (e : exn) : exchanges_only (raise e : M A).
Proof.
  intros w. exists []. simpl. rewrite app_nil_r.
  split; [ reflexivity | ]. split; [ constructor | apply same_host_refl ].
Qed.

Lemma exchanges_only_lift {A} (r : result A) : exchanges_only (lift r).
Proof.
  intros w. exists []. simpl. rewrite app_nil_r.
  split; [ reflexivity | ]. split; [ constructor | apply same_host_refl ].
Qed.

Lemma exchanges_only_bind {A B} (m : M A) (k : A -> M B) :
  exchanges_only m -> (forall a, exchanges_only (k a)) ->
  exchanges_only (m ≫= k).
Proof.
  intros Hm Hk w. unfold mbind, M_bind.
  destruct (Hm w) as (evs1 & Ht1 & Hio1 & Hh1).
  destruct (m w) as [[a | e] w1]; simpl in *.
  - destruct (Hk a w1) as (evs2 & Ht2 & Hio2 & Hh2).
    exists (evs1 ++ evs2). rewrite Ht2, Ht1, app_assoc.
    split; [ reflexivity | ].
    split; [ apply Forall_app; split; assumption | ].
    eapply same_host_trans; eassumption.
  - exists evs1. auto.
Qed.

Lemma exchanges_only_if {A} (b : bool) (x y : M A) :
  exchanges_only x -> exchanges_only y ->
  exchanges_only (if b then x else y).
Proof. destruct b; auto. Qed.

Lemma exchanges_only_try_except {A} (body handler : M A) :
  exchanges_only body -> exchanges_only handler ->
  exchanges_only (try_except body handler).
Proof.
  intros Hb Hh w. unfold try_except.
  destruct (Hb w) as (evs1 & Ht1 & Hio1 & Hh1).
  destruct (body w) as [[a | e] w1]; simpl in *.
  - exists evs1. auto.
  - destruct (is_Exception e); [ | exists evs1; auto ].
    destruct (Hh w1) as (evs2 & Ht2 & Hio2 & Hh2).
    exists (evs1 ++ evs2). rewrite Ht2, Ht1, app_assoc.
    split; [ reflexivity | ].
    split; [ apply Forall_app; split; assumption | ].
    eapply same_host_trans; eassumption.
Qed.

Create HintDb exchanges.

#[export] Hint Resolve exchanges_only_ret exchanges_only_raise
  exchanges_only_lift : exchanges.

Section OnlyExchanges.
Context {F : FloatSem}.

Lemma exchanges_only_e2e_send (method : str) (params : json) (id : Z) :
  exchanges_only (E2E.send_rpc_request method params id).
Proof.
  intros w. rewrite e2e_send. simpl. eexists.
  split; [ apply trace_exchange | ].
  split; [ repeat constructor | apply same_host_exchange ].
Qed.

Lemma exchanges_only_basic_send (method : str) (params : json) (id : Z) :
  exchanges_only (Basic.send_rpc_request method params id).
Proof.
  intros w. rewrite basic_send. simpl. eexists.
  split; [ apply trace_exchange | ].
  split; [ repeat constructor | apply same_host_exchange ].
Qed.

Hint Resolve exchanges_only_e2e_send exchanges_only_basic_send : exchanges.

Ltac only_exchanges :=
  repeat first
    [ solve [ auto 1 with exchanges ]
    | apply exchanges_only_if
    | apply exchanges_only_bind; [ | intros ? ] ].

Lemma exchanges_only_after_auth (a t : json) :
  exchanges_only (E2E.after_auth a t).
Proof.
  unfold E2E.after_auth, E2E.step_bind, E2E.step_run,
    E2E.step_execution_get, E2E.step_execution_list.
  only_exchanges.
Qed.

Lemma exchanges_only_after_register (a : json) :
  exchanges_only (E2E.after_register a).
Proof.
  unfold E2E.after_register, E2E.step_update, E2E.step_auth.
  only_exchanges.
Qed.

Lemma exchanges_only_workflow : exchanges_only E2E.workflow.
Proof.
  unfold E2E.workflow, E2E.step_health, E2E.step_clean, E2E.step_register.
  only_exchanges.
Qed.

Lemma exchanges_only_checks : exchanges_only Basic.checks.
Proof.
  unfold Basic.checks, Basic.check_result, Basic.check_error,
    Basic.check_register.
  only_exchanges.
Qed.
End OnlyExchanges.

(** ** Steps 1 to 3: the delete before the registration *)

Section Clean.
Context {F : FloatSem}.

(** How far a run of the workflow gets through its first steps: the health
    check fails; or it passes and the answer to [action.delete] is not UTF-8;
    or both pass, and the registration request is written next. *)
Lemma workflow_start (w : world) :
  let w1 := exchange (request0 "health" 1) w in
  let w2 := exchange (request "action.delete" E2E.delete_params 1) w1 in
  let w3 := exchange (request "action.register" E2E.register_params 1) w2 in
  (exists e, E2E.step_health w = (Exc e, w1) /\
             E2E.workflow w = (Exc e, w1)) \/
  (E2E.step_health w = (Val tt, w1) /\
   bytes_decode (next_line w1) = None /\
   E2E.workflow w = (Exc UnicodeDecodeError, w2)) \/
  (E2E.step_health w = (Val tt, w1) /\
   (exists text, bytes_decode (next_line w1) = Some text) /\
   exists rest, trace (snd (E2E.workflow w)) = trace w3 ++ rest).
Proof.
intros w1 w2 w3. unfold E2E.workflow.
rewrite bind_run, step_health_run. fold w1.
destruct (r ← reply w; py_assert (is_success r)) as [[] | e].
2: { left. exists e. split; reflexivity. }
right. rewrite bind_run, step_clean_run. fold w2.
unfold reply at 1 2.
destruct (bytes_decode (next_line w1)) as [text | ] eqn:Htext.
2: { left. split; [ reflexivity | ]. split; reflexivity. }
right. split; [ reflexivity | ]. split; [ eauto | ].
cbn [mbind result_bind].
rewrite bind_run, step_register_run. fold w3.
destruct (r ← reply w2; E2E.register_handle r) as [a | e].
- destruct (exchanges_only_after_register a w3) as (rest & Hrest & _).
  exists rest. exact Hrest.
- exists []. rewrite app_nil_r. reflexivity.
Qed.

(** C10, amended.  A registration request is never written unless the
    delete request for the composite key of the same tenant, provider and
    name was written before it; and once the health check has passed, the
    registration request follows the delete whatever UTF-8 text answered it,
    be it an error response or no JSON at all. *)
Theorem delete_precedes_register (w : world) :
  E2E.delete_params =
    JObj [(s2u "trn",
           JStr (composite_key E2E.tenant E2E.provider E2E.action_name))] /\
  (forall evs1 evs2 req,
     trace (snd (E2E.workflow w)) = trace w ++ evs1 ++ Send req :: evs2 ->
     method_of (Send req) = Some (JStr "action.register") ->
     In (Send (request "action.delete" E2E.delete_params 1)) evs1) /\
  (forall text,
     E2E.step_health w = (Val tt, exchange (request0 "health" 1) w) ->
     bytes_decode (next_line (exchange (request0 "health" 1) w)) =
       Some text ->
     exists l1 l2 l3 rest,
       trace (snd (E2E.workflow w)) =
       trace w ++
       [Send (request0 "health" 1); Readline l1;
        Send (request "action.delete" E2E.delete_params 1); Readline l2;
        Send (request "action.register" E2E.register_params 1); Readline l3]
       ++ rest).
Proof.
  split; [ reflexivity | ].
  pose proof (workflow_start w) as Hstart. cbv zeta in Hstart.
  set (w1 := exchange (request0 "health" 1) w) in *.
  set (w2 := exchange (request "action.delete" E2E.delete_params 1) w1) in *.
  set (w3 := exchange (request "action.register" E2E.register_params 1) w2)
    in *.
  assert (Ht1 : trace w1 = trace w ++ [Send (request0 "health" 1);
                                       Readline (next_line w)])
    by apply trace_exchange.
  assert (Ht2 : trace w2 =
                trace w ++ [Send (request0 "health" 1); Readline (next_line w);
                            Send (request "action.delete" E2E.delete_params 1);
                            Readline (next_line w1)]).
  { unfold w2. rewrite trace_exchange, Ht1, <- app_assoc. reflexivity. }
  assert (Ht3 : trace w3 =
                trace w ++ [Send (request0 "health" 1); Readline (next_line w);
                            Send (request "action.delete" E2E.delete_params 1);
                            Readline (next_line w1);
                            Send (request "action.register"
                                    E2E.register_params 1);
                            Readline (next_line w2)]).
  { unfold w3. rewrite trace_exchange, Ht2, <- app_assoc. reflexivity. }
  split.
  - intros evs1 evs2 req Htrace Hmethod.
    destruct Hstart as [(e & _ & Hw) | [(_ & _ & Hw) | (_ & _ & rest & Hw)]].
    + rewrite Hw in Htrace. cbn [snd] in Htrace. rewrite Ht1 in Htrace.
      apply app_inv_head in Htrace.
      destruct evs1 as [ | e1 [ | e2 evs1 ]]; simpl in Htrace;
        inversion Htrace; subst; try discriminate.
      destruct evs1; discriminate.
    + rewrite Hw in Htrace. cbn [snd] in Htrace. rewrite Ht2 in Htrace.
      apply app_inv_head in Htrace.
      destruct evs1 as [ | e1 [ | e2 [ | e3 [ | e4 evs1 ]]]];
        simpl in Htrace; inversion Htrace; subst; try discriminate.
      destruct evs1; discriminate.
    + rewrite Hw, Ht3, <- app_assoc in Htrace.
      apply app_inv_head in Htrace.
      destruct evs1 as [ | e1 [ | e2 [ | e3 evs1 ]]];
        simpl in Htrace; inversion Htrace; subst; try discriminate.
      right. right. left. reflexivity.
  - intros text Hhealth Htext.
    destruct Hstart as [(e & He & _) | [(_ & Hnone & _) | (_ & _ & rest & Hw)]].
    + rewrite He in Hhealth. discriminate.
    + rewrite Hnone in Htext. discriminate.
    + exists (next_line w), (next_line w1), (next_line w2), rest.
      rewrite Hw, Ht3, <- app_assoc. reflexivity.
Qed.
End Clean.

Lemma delete_precedes_register_witness :
  exists l1 l2 l3 rest,
    trace (snd (@E2E.workflow no_floats happy_world)) =
    trace happy_world ++
    [Send (request0 "health" 1); Readline l1;
     Send (request "action.delete" E2E.delete_params 1); Readline l2;
     Send (request "action.register" E2E.register_params 1); Readline l3]
    ++ rest.
Proof.
  refine (proj2 (proj2 (@delete_precedes_register no_floats happy_world))
            (jtext "{'jsonrpc':'2.0','id':1,'error':{'code':-32000,'message':'not found'}}" ++ [10]) _ _).
  - vm_compute. reflexivity.
  - vm_compute. reflexivity.
Defined.

(** C10 as stated fails: after a health check that passed, an answer to
    [action.delete] that is not UTF-8 ends the run with
    [UnicodeDecodeError], and no registration request is written. *)
Lemma undecodable_delete_reply_stops_the_run :
  @E2E.step_health no_floats bad_utf8_world =
    (Val tt, exchange (request0 "health" 1) bad_utf8_world) /\
  fst (@E2E.workflow no_floats bad_utf8_world) = Exc UnicodeDecodeError /\
  calls (trace (snd (@E2E.workflow no_floats bad_utf8_world))) =
    [JStr "health"; JStr "action.delete"].
Proof.
  split; [ vm_compute; reflexivity | ].
  split; vm_compute; reflexivity.
Qed.

(** ** The process: how it is started and how it is stopped *)

Lemma terminations_app (a b : list event) :
  terminations (a ++ b) = (terminations a + terminations b)%nat.
Proof. unfold terminations. rewrite List.filter_app, length_app. reflexivity. Qed.

Lemma terminations_io (evs : list event) :
  Forall (fun e => is_io e = true) evs -> terminations evs = 0%nat.
Proof.
  unfold terminations. induction 1 as [ | e evs He _ IH ]; [ reflexivity | ].
  simpl. destruct e; try discriminate; exact IH.
Qed.

Lemma no_popen_io (evs : list event) :
  Forall (fun e => is_io e = true) evs ->
  Forall (fun e => is_popen e = false) evs.
Proof.
  induction 1 as [ | e evs He _ IH ]; constructor; [ | exact IH ].
  destruct e; try discriminate; reflexivity.
Qed.

Lemma ask_run {A} (f : world -> A) (w : world) : ask f w = (Val (f w), w).
Proof. reflexivity. Qed.

Section Process.
Context {F : FloatSem}.

(** The [finally] clause of [E2E.main] never raises: it terminates the
    child, waits for it, and kills it when the wait timed out. *)
Lemma stop_run (w : world) :
  E2E.stop w =
  (Val tt,
   if exits_in_time w then log (Wait (Some 5)) (log Terminate w)
   else log Kill (log (Wait (Some 5)) (log Terminate w))).
Proof.
  unfold E2E.stop, try_except, terminate, kill, emit, wait.
  rewrite bind_run. simpl. destruct (exits_in_time w); reflexivity.
Qed.

(** A run of [E2E.main] on a host where the child starts: the child is
    started with the ambient environment under the harness's three variables,
    the workflow runs, and the [finally] clause stops the child; the outcome
    is the workflow's. *)
Lemma main_run (w : world) :
  spawn_ok w = true ->
  cargo_on_path w = true \/ binary_exists w = true ->
  exists evs,
    Forall (fun e => is_io e = true) evs /\
    fst (E2E.main w) =
      fst (E2E.workflow
             (log (Popen (chosen_command w) (E2E.harness_env ∪ environ w)) w))
    /\
    trace (snd (E2E.main w)) =
      trace w ++
      [Popen (chosen_command w) (E2E.harness_env ∪ environ w)] ++ evs ++
      [Terminate; Wait (Some 5)] ++ (if exits_in_time w then [] else [Kill]).
Proof.
  intros Hspawn Hcmd.
  set (w0 := log (Popen (chosen_command w) (E2E.harness_env ∪ environ w)) w).
  assert (Hmain : E2E.main w = try_finally E2E.workflow E2E.stop w0).
  { unfold E2E.main, E2E.choose_command, chosen_command in *.
    rewrite bind_run, ask_run. cbv beta iota.
    rewrite bind_run, bind_run, ask_run. cbv beta iota.
    destruct (cargo_on_path w) eqn:Hc.
    - unfold mret, M_ret. cbv beta iota.
      rewrite bind_run. unfold popen. rewrite Hspawn. reflexivity.
    - destruct Hcmd as [Hcmd | Hb]; [ discriminate | ].
      rewrite bind_run, ask_run. cbv beta iota. rewrite Hb.
      rewrite bind_run, ask_run. unfold mret, M_ret. cbv beta iota.
      rewrite bind_run. unfold popen. rewrite Hspawn. reflexivity. }
  rewrite Hmain. unfold try_finally.
  destruct (exchanges_only_workflow w0) as (evs & Htrace & Hio & Hhost).
  destruct (E2E.workflow w0) as [r w1]. cbn [fst snd] in *.
  exists evs. split; [ exact Hio | ].
  rewrite stop_run.
  assert (Hexit : exits_in_time w1 = exits_in_time w).
  { destruct Hhost as (_ & _ & _ & _ & _ & He). exact He. }
  rewrite Hexit. split; [ reflexivity | ].
  destruct (exits_in_time w); cbn [snd]; rewrite !trace_log, Htrace;
    unfold w0; rewrite trace_log, <- !app_assoc; reflexivity.
Qed.

(** A run of [Basic.test_stdio_rpc] on a host where the child starts. *)
Lemma test_stdio_rpc_run (w : world) :
  spawn_ok w = true ->
  exists evs,
    Forall (fun e => is_io e = true) evs /\
    trace (snd (Basic.test_stdio_rpc w)) =
      trace w ++
      [Popen ["cargo"; "run"; "-q"; "-p"; "openact-stdio"] Basic.env] ++
      evs ++ [Terminate; Wait None].
Proof.
  intros Hspawn.
  set (w0 := log (Popen ["cargo"; "run"; "-q"; "-p"; "openact-stdio"]
                        Basic.env) w).
  assert (Hrun : Basic.test_stdio_rpc w =
                 try_finally (try_except Basic.checks (mret tt))
                   (terminate ;; wait None) w0).
  { unfold Basic.test_stdio_rpc. rewrite bind_run.
    unfold try_except at 1. rewrite bind_run. unfold popen.
    rewrite Hspawn. reflexivity. }
  rewrite Hrun. unfold try_finally.
  assert (Hbody : exchanges_only (try_except Basic.checks (mret tt : M unit))).
  { apply exchanges_only_try_except;
      [ apply exchanges_only_checks | apply exchanges_only_ret ]. }
  destruct (Hbody w0) as (evs & Htrace & Hio & _).
  destruct (try_except Basic.checks (mret tt) w0) as [r w1].
  cbn [fst snd] in *.
  exists evs. split; [ exact Hio | ].
  rewrite bind_run. unfold terminate, emit, wait. cbn.
  destruct r; cbn; rewrite Htrace; unfold w0;
    rewrite trace_log, <- !app_assoc; reflexivity.
Qed.
End Process.

Section Teardown.
Context {F : FloatSem}.

(** C6.  On a host where the child starts, every run of [E2E.main] and
    every run of [Basic.test_stdio_rpc] stops the child exactly once, after
    the last exchange and however the body ended: [E2E.main] calls
    [terminate()], waits five seconds and kills the child when it has not
    exited by then, and its outcome is the workflow's, exception or not;
    [Basic.test_stdio_rpc] calls [terminate()] and waits for the exit. *)
Theorem stop_exactly_once (w : world) :
  spawn_ok w = true ->
  (cargo_on_path w = true \/ binary_exists w = true ->
   terminations (trace (snd (E2E.main w))) = S (terminations (trace w)) /\
   exists cmd env evs,
     Forall (fun e => is_io e = true) evs /\
     fst (E2E.main w) = fst (E2E.workflow (log (Popen cmd env) w)) /\
     trace (snd (E2E.main w)) =
       trace w ++ [Popen cmd env] ++ evs ++
       [Terminate; Wait (Some 5)] ++
       (if exits_in_time w then [] else [Kill])) /\
  (terminations (trace (snd (Basic.test_stdio_rpc w))) =
     S (terminations (trace w)) /\
   exists cmd env evs,
     Forall (fun e => is_io e = true) evs /\
     trace (snd (Basic.test_stdio_rpc w)) =
       trace w ++ [Popen cmd env] ++ evs ++ [Terminate; Wait None]).
Proof.
  intros Hspawn. split.
  - intros Hcmd.
    destruct (main_run w Hspawn Hcmd) as (evs & Hio & Hout & Htrace).
    split; [ | eauto 6 ].
    rewrite Htrace, !terminations_app, (terminations_io evs Hio).
    destruct (exits_in_time w); unfold terminations; simpl; lia.
  - destruct (test_stdio_rpc_run w Hspawn) as (evs & Hio & Htrace).
    split; [ | eauto 6 ].
    rewrite Htrace, !terminations_app, (terminations_io evs Hio).
    unfold terminations. simpl. lia.
Qed.

(** C7, amended.  [E2E.main] starts the child with the whole ambient
    environment, the harness's three variables set over it: those three have
    the harness's values and every other ambient variable is handed on as it
    is.  It starts one process only.  ([Basic.test_stdio_rpc] hands over
    its three variables and no other.) *)
Theorem child_environment (w : world) :
  spawn_ok w = true ->
  cargo_on_path w = true \/ binary_exists w = true ->
  (exists cmd rest,
     trace (snd (E2E.main w)) =
       trace w ++ Popen cmd (E2E.harness_env ∪ environ w) :: rest /\
     Forall (fun e => is_popen e = false) rest) /\
  dom E2E.harness_env = allow_list /\
  (forall k v, E2E.harness_env !! k = Some v ->
               (E2E.harness_env ∪ environ w) !! k = Some v) /\
  (forall k, k ∉ allow_list ->
             (E2E.harness_env ∪ environ w) !! k = environ w !! k) /\
  (exists cmd rest,
     trace (snd (Basic.test_stdio_rpc w)) =
       trace w ++ Popen cmd Basic.env :: rest /\
     Forall (fun e => is_popen e = false) rest) /\
  dom Basic.env = allow_list.
Proof.
  intros Hspawn Hcmd.
  assert (Hdom : dom E2E.harness_env = allow_list).
  { unfold E2E.harness_env, allow_list. rewrite !dom_insert_L, dom_singleton_L.
    set_solver. }
  split; [ | split; [ exact Hdom | split; [ | split; [ | split ] ] ] ].
  - destruct (main_run w Hspawn Hcmd) as (evs & Hio & _ & Htrace).
    eexists _, _. split; [ exact Htrace | ].
    apply Forall_app. split; [ apply no_popen_io; exact Hio | ].
    destruct (exits_in_time w); repeat constructor.
  - intros k v Hk. apply lookup_union_Some_l. exact Hk.
  - intros k Hk. apply lookup_union_r. apply not_elem_of_dom.
    rewrite Hdom. exact Hk.
  - destruct (test_stdio_rpc_run w Hspawn) as (evs & Hio & Htrace).
    eexists _, _. split; [ exact Htrace | ].
    apply Forall_app. split; [ apply no_popen_io; exact Hio | ].
    repeat constructor.
  - unfold Basic.env, allow_list. rewrite !dom_insert_L, dom_singleton_L.
    set_solver.
Qed.
End Teardown.

Lemma stop_exactly_once_witness :
  terminations (trace (snd (@E2E.main no_floats happy_world))) = 1%nat /\
  terminations (trace (snd (@Basic.test_stdio_rpc no_floats happy_world))) =
    1%nat.
Proof.
  pose proof (@stop_exactly_once no_floats happy_world eq_refl) as [He Hb].
  split; [ exact (proj1 (He (or_introl eq_refl))) | exact (proj1 Hb) ].
Defined.

Lemma child_environment_witness :
  (E2E.harness_env ∪ environ home_world) !! "HOME" = Some "/root".
Proof.
  rewrite (proj1 (proj2 (proj2 (proj2
             (@child_environment no_floats home_world eq_refl
                (or_introl eq_refl))))) "HOME").
  - vm_compute. reflexivity.
  - unfold allow_list. rewrite !not_elem_of_union, !not_elem_of_singleton.
    repeat split; discriminate.
Defined.

(** C7 as stated fails: on a host where [HOME] is set, the environment
    [E2E.main] gives the child holds [HOME], which is none of the three
    variables of the allow-list. *)
Lemma ambient_variable_is_inherited :
  head (trace (snd (@E2E.main no_floats home_world))) =
    Some (Popen ["cargo"; "run"; "-q"; "-p"; "openact-stdio"]
                (E2E.harness_env ∪ environ home_world)) /\
  (E2E.harness_env ∪ environ home_world) !! "HOME" = Some "/root" /\
  "HOME" ∉ allow_list.
Proof.
  split; [ vm_compute; reflexivity | ].
  split; [ vm_compute; reflexivity | ].
  unfold allow_list. rewrite !not_elem_of_union, !not_elem_of_singleton.
  repeat split; discriminate.
Qed.

(** ** The wire format: reading back what was written *)

(** *** Bytes and text *)

Lemma to_N_byte_of_N (c : N) : c < 256 -> Byte.to_N (byte_of_N c) = c.
Proof.
  intros Hc. unfold byte_of_N. rewrite N.mod_small by exact Hc.
  destruct (Byte.of_N c) as [b | ] eqn:Hb.
  - apply Byte.to_of_N. exact Hb.
  - apply Byte.of_N_None_iff in Hb. lia.
Qed.

Lemma utf8_decode_ascii (s : str) :
  ascii_text s -> utf8_decode s = Some s.
Proof.
  induction 1 as [ | c s Hc _ IH ]; [ reflexivity | ].
  cbn [utf8_decode]. apply N.ltb_lt in Hc. rewrite Hc, IH. reflexivity.
Qed.

Lemma bytes_decode_ascii (s : str) :
  ascii_text s -> bytes_decode (map byte_of_N s) = Some s.
Proof.
  intros Hs. unfold bytes_decode.
  assert (Hmap : map Byte.to_N (map byte_of_N s) = s).
  { induction Hs as [ | c s Hc _ IH ]; [ reflexivity | ].
    cbn [map]. rewrite IH, to_N_byte_of_N by lia. reflexivity. }
  rewrite Hmap. apply utf8_decode_ascii. exact Hs.
Qed.

Lemma lstrip_head (c : N) (t : str) :
  isspace c = false -> lstrip (c :: t) = c :: t.
Proof. intros H. cbn [lstrip]. rewrite H. reflexivity. Qed.

(** A text between braces loses exactly its final line feed to [strip]. *)
Lemma strip_braced (body : str) :
  strip ((123 :: body ++ [125]) ++ [10]) = 123 :: body ++ [125].
Proof.
  unfold strip.
  change ((123 :: body ++ [125]) ++ [10])
    with (123 :: (body ++ [125]) ++ [10]).
  rewrite lstrip_head by reflexivity. unfold rstrip.
  assert (Hrev : rev (123 :: (body ++ [125]) ++ [10]) =
                 10 :: 125 :: rev body ++ [123]).
  { cbn [rev]. rewrite !rev_app_distr. reflexivity. }
  rewrite Hrev. cbn [lstrip].
  change (isspace 10) with true. change (isspace 125) with false.
  cbn iota. cbn [rev]. rewrite rev_app_distr, rev_involutive. reflexivity.
Qed.

Lemma skip_ws_head (c : N) (t : str) :
  is_ws c = false -> skip_ws (c :: t) = c :: t.
Proof. intros H. cbn [skip_ws]. rewrite H. reflexivity. Qed.

(** *** Strings *)

Lemma hexval_hexdigit (d : N) : d < 16 -> hexval (hexdigit d) = Some d.
Proof.
  intros Hd. unfold hexval, hexdigit.
  destruct (N.ltb_spec d 10) as [Hlt | Hge].
  - assert (H1 : (48 <=? 48 + d) && (48 + d <=? 57) = true).
    { apply andb_true_iff. split; apply N.leb_le; lia. }
    rewrite H1. f_equal. lia.
  - assert (H1 : (48 <=? 87 + d) && (87 + d <=? 57) = false).
    { apply andb_false_iff. right. apply N.leb_gt. lia. }
    assert (H2 : (97 <=? 87 + d) && (87 + d <=? 102) = true).
    { apply andb_true_iff. split; apply N.leb_le; lia. }
    rewrite H1, H2. f_equal. lia.
Qed.

Lemma decode_hex4_uescape (n : N) :
  n < 65536 ->
  decode_hex4 (hexdigit (n / 4096 mod 16)) (hexdigit (n / 256 mod 16))
              (hexdigit (n / 16 mod 16)) (hexdigit (n mod 16)) = Some n.
Proof.
  intros Hn. unfold decode_hex4.
  rewrite !hexval_hexdigit by (apply N.mod_lt; lia).
  cbn [mbind option_bind]. f_equal.
  assert (H256 : n / 256 = n / 16 / 16)
    by (rewrite N.Div0.div_div; reflexivity).
  assert (H4096 : n / 4096 = n / 16 / 16 / 16)
    by (rewrite !N.Div0.div_div; reflexivity).
  rewrite H256, H4096.
  pose proof (N.Div0.div_mod n 16) as E0.
  pose proof (N.Div0.div_mod (n / 16) 16) as E1.
  pose proof (N.Div0.div_mod (n / 16 / 16) 16) as E2.
  pose proof (N.Div0.div_mod (n / 16 / 16 / 16) 16) as E3.
  assert (Hz : n / 16 / 16 / 16 / 16 = 0).
  { rewrite !N.Div0.div_div. apply N.div_small. exact Hn. }
  rewrite Hz in E3.
  pose proof (N.mod_lt n 16). pose proof (N.mod_lt (n / 16) 16).
  pose proof (N.mod_lt (n / 16 / 16) 16).
  pose proof (N.mod_lt (n / 16 / 16 / 16) 16).
  lia.
Qed.

Lemma scanstring_u_single (h1 h2 h3 h4 uni : N) (r2 : str) :
  decode_hex4 h1 h2 h3 h4 = Some uni ->
  (55296 <=? uni) && (uni <=? 56319) = false ->
  scanstring (92 :: 117 :: h1 :: h2 :: h3 :: h4 :: r2) =
  '(t, r') ← scanstring r2; Some (uni :: t, r').
Proof.
  intros Hdec Hrange.
  change (scanstring (92 :: 117 :: h1 :: h2 :: h3 :: h4 :: r2))
    with (match decode_hex4 h1 h2 h3 h4 with
          | None => None
          | Some uni =>
              let single :=
                '(t, r') ← scanstring r2; Some (uni :: t, r') in
              if (55296 <=? uni) && (uni <=? 56319) then
                match r2 with
                | b :: u :: g1 :: g2 :: g3 :: g4 :: r3 =>
                    if (b =? 92) && (u =? 117) then
                      match decode_hex4 g1 g2 g3 g4 with
                      | None => None
                      | Some uni2 =>
                          if (56320 <=? uni2) && (uni2 <=? 57343) then
                            '(t, r') ← scanstring r3;
                            Some (65536 +
                                  N.lor (N.shiftl (uni - 55296) 10)
                                        (uni2 - 56320) :: t, r')
                          else single
                      end
                    else single
                | _ => single
                end
              else single
          end).
  rewrite Hdec. cbv zeta. rewrite Hrange. reflexivity.
Qed.

Lemma scanstring_u_pair (h1 h2 h3 h4 g1 g2 g3 g4 hi lo : N) (r3 : str) :
  decode_hex4 h1 h2 h3 h4 = Some hi ->
  (55296 <=? hi) && (hi <=? 56319) = true ->
  decode_hex4 g1 g2 g3 g4 = Some lo ->
  (56320 <=? lo) && (lo <=? 57343) = true ->
  scanstring (92 :: 117 :: h1 :: h2 :: h3 :: h4 ::
              92 :: 117 :: g1 :: g2 :: g3 :: g4 :: r3) =
  '(t, r') ← scanstring r3;
  Some (65536 + N.lor (N.shiftl (hi - 55296) 10) (lo - 56320) :: t, r').
Proof.
  intros Hhi Hhr Hlo Hlr.
  change (scanstring (92 :: 117 :: h1 :: h2 :: h3 :: h4 ::
                      92 :: 117 :: g1 :: g2 :: g3 :: g4 :: r3))
    with (match decode_hex4 h1 h2 h3 h4 with
          | None => None
          | Some uni =>
              let single :=
                '(t, r') ← scanstring
                             (92 :: 117 :: g1 :: g2 :: g3 :: g4 :: r3);
                Some (uni :: t, r') in
              if (55296 <=? uni) && (uni <=? 56319) then
                match decode_hex4 g1 g2 g3 g4 with
                | None => None
                | Some uni2 =>
                    if (56320 <=? uni2) && (uni2 <=? 57343) then
                      '(t, r') ← scanstring r3;
                      Some (65536 +
                            N.lor (N.shiftl (uni - 55296) 10)
                                  (uni2 - 56320) :: t, r')
                    else single
                end
              else single
          end).
  rewrite Hhi. cbv zeta. rewrite Hhr, Hlo, Hlr. reflexivity.
Qed.

(** *** Surrogate pairs *)

Lemma lor_shifted (a b : N) : b < 1024 -> N.lor (a * 1024) b = a * 1024 + b.
Proof.
  intros Hb.
  assert (Hland : N.land (a * 1024) b = 0).
  { apply N.bits_inj_0. intros i. rewrite N.land_spec.
    destruct (N.lt_ge_cases i 10) as [Hlo | Hhi].
    - change 1024 with (2 ^ 10). rewrite N.mul_pow2_bits_low by exact Hlo.
      reflexivity.
    - rewrite <- (N.mod_small b (2 ^ 10)) by exact Hb.
      rewrite N.mod_pow2_bits_high by exact Hhi.
      apply andb_false_r. }
  rewrite <- N.lxor_lor by exact Hland.
  symmetry. apply N.add_nocarry_lxor. exact Hland.
Qed.

Lemma surrogates (c : N) :
  65536 <= c -> c <= 1114111 ->
  let n := c - 65536 in
  let hi := N.lor 55296 (N.land (N.shiftr n 10) 1023) in
  let lo := N.lor 56320 (N.land n 1023) in
  (55296 <= hi /\ hi <= 56319) /\ (56320 <= lo /\ lo <= 57343) /\
  65536 + N.lor (N.shiftl (hi - 55296) 10) (lo - 56320) = c.
Proof.
  intros Hlo Hhi n hi lo.
  assert (Hn : n < 1048576) by (unfold n; lia).
  assert (Hq : N.land (N.shiftr n 10) 1023 = n / 1024).
  { change 1023 with (N.ones 10). rewrite N.land_ones, N.shiftr_div_pow2.
    change (2 ^ 10) with 1024. apply N.mod_small.
    apply N.Div0.div_lt_upper_bound. exact Hn. }
  assert (Hr : N.land n 1023 = n mod 1024).
  { change 1023 with (N.ones 10). rewrite N.land_ones. reflexivity. }
  assert (Hqb : n / 1024 < 1024)
    by (apply N.Div0.div_lt_upper_bound; exact Hn).
  assert (Hrb : n mod 1024 < 1024) by (apply N.mod_lt; lia).
  assert (Hhi_eq : hi = 55296 + n / 1024).
  { unfold hi. rewrite Hq. change 55296 with (54 * 1024).
    apply lor_shifted. exact Hqb. }
  assert (Hlo_eq : lo = 56320 + n mod 1024).
  { unfold lo. rewrite Hr. change 56320 with (55 * 1024).
    apply lor_shifted. exact Hrb. }
  split; [ lia | ]. split; [ lia | ].
  rewrite Hhi_eq, Hlo_eq.
  replace (55296 + n / 1024 - 55296) with (n / 1024) by lia.
  replace (56320 + n mod 1024 - 56320) with (n mod 1024) by lia.
  rewrite N.shiftl_mul_pow2. change (2 ^ 10) with 1024.
  rewrite lor_shifted by exact Hrb.
  pose proof (N.Div0.div_mod n 1024) as Hdm. unfold n in *. lia.
Qed.

(** *** Reading an escaped string back *)

Lemma scanstring_plain (c : N) (tail : str) :
  c <> 34 -> c <> 92 -> 32 <= c ->
  scanstring (c :: tail) = '(t, r') ← scanstring tail; Some (c :: t, r').
Proof.
  intros H34 H92 H32. cbn [scanstring].
  rewrite (proj2 (N.eqb_neq c 34) H34), (proj2 (N.eqb_neq c 92) H92).
  rewrite (proj2 (N.ltb_ge c 32) H32). reflexivity.
Qed.

Lemma scanstring_escape_char (c : N) (tail : str) :
  scalarb c = true ->
  scanstring (escape_char c ++ tail) =
  '(t, r') ← scanstring tail; Some (c :: t, r').
Proof.
  intros Hc. unfold escape_char.
  destruct (N.eqb_spec c 34) as [-> | H34]; [ reflexivity | ].
  destruct (N.eqb_spec c 92) as [-> | H92]; [ reflexivity | ].
  destruct (N.eqb_spec c 10) as [-> | H10]; [ reflexivity | ].
  destruct (N.eqb_spec c 13) as [-> | H13]; [ reflexivity | ].
  destruct (N.eqb_spec c 9) as [-> | H9]; [ reflexivity | ].
  destruct (N.eqb_spec c 12) as [-> | H12]; [ reflexivity | ].
  destruct (N.eqb_spec c 8) as [-> | H8]; [ reflexivity | ].
  destruct ((32 <=? c) && (c <=? 126)) eqn:Hprint.
  - apply andb_true_iff in Hprint. destruct Hprint as [Hlo _].
    apply N.leb_le in Hlo. cbn [app].
    apply scanstring_plain; assumption.
  - unfold scalarb in Hc.
    destruct (N.ltb_spec c 65536) as [Hbmp | Hastral].
    + unfold uescape. cbn [app].
      apply scanstring_u_single.
      * apply decode_hex4_uescape. exact Hbmp.
      * apply andb_false_iff.
        apply orb_true_iff in Hc. destruct Hc as [Hc | Hc].
        -- apply N.ltb_lt in Hc. left. apply N.leb_gt. lia.
        -- apply andb_true_iff in Hc. destruct Hc as [Hc _].
           apply N.ltb_lt in Hc. right. apply N.leb_gt. lia.
    + assert (Hmax : c <= 1114111).
      { apply orb_true_iff in Hc. destruct Hc as [Hc | Hc].
        - apply N.ltb_lt in Hc. lia.
        - apply andb_true_iff in Hc. destruct Hc as [_ Hc].
          apply N.leb_le in Hc. exact Hc. }
      destruct (surrogates c Hastral Hmax) as ((Hh1 & Hh2) & (Hl1 & Hl2) & Hsum).
      cbv zeta in Hh1, Hh2, Hl1, Hl2, Hsum.
      unfold uescape. cbn [app].
      rewrite (scanstring_u_pair _ _ _ _ _ _ _ _
                 (N.lor 55296 (N.land (N.shiftr (c - 65536) 10) 1023))
                 (N.lor 56320 (N.land (c - 65536) 1023))).
      * rewrite Hsum. reflexivity.
      * apply decode_hex4_uescape. lia.
      * apply andb_true_iff. split; apply N.leb_le; assumption.
      * apply decode_hex4_uescape. lia.
      * apply andb_true_iff. split; apply N.leb_le; assumption.
Qed.

Lemma scanstring_escaped (s rest : str) :
  text_ok s = true ->
  scanstring (flat_map escape_char s ++ 34 :: rest) = Some (s, rest).
Proof.
  induction s as [ | c s IH ]; intros Hok.
  - reflexivity.
  - cbn [text_ok forallb] in Hok. apply andb_true_iff in Hok.
    destruct Hok as [Hc Hs]. cbn [flat_map]. rewrite <- app_assoc.
    rewrite scanstring_escape_char by exact Hc.
    rewrite (IH Hs). reflexivity.
Qed.

(** [encode_basestring_ascii] and what follows it, seen from just after the
    opening quote. *)
Lemma scan_encoded_string (s rest : str) :
  text_ok s = true ->
  exists body,
    encode_basestring_ascii s ++ rest = 34 :: body /\
    scanstring body = Some (s, rest).
Proof.
  intros Hok. exists (flat_map escape_char s ++ 34 :: rest). split.
  - unfold encode_basestring_ascii. cbn [app]. rewrite <- app_assoc.
    reflexivity.
  - apply scanstring_escaped. exact Hok.
Qed.

(** *** Integers *)

Lemma span_digits_chars (u : Decimal.uint) (rest : str) :
  ends_number rest ->
  span_digits (uint_chars u ++ rest) = (uint_chars u, rest).
Proof.
  intros Hrest.
  induction u as [ | u IH | u IH | u IH | u IH | u IH | u IH | u IH | u IH
                   | u IH | u IH ];
    cbn [uint_chars app span_digits];
    try (change (isdigit 48) with true; change (isdigit 49) with true;
         change (isdigit 50) with true; change (isdigit 51) with true;
         change (isdigit 52) with true; change (isdigit 53) with true;
         change (isdigit 54) with true; change (isdigit 55) with true;
         change (isdigit 56) with true; change (isdigit 57) with true;
         cbn iota; rewrite IH; reflexivity).
  destruct rest as [ | c rest ]; [ reflexivity | ].
  destruct Hrest as [Hd _]. cbn [span_digits]. rewrite Hd. reflexivity.
Qed.

Lemma uint_of_chars_chars (u : Decimal.uint) :
  uint_of_chars (uint_chars u) = u.
Proof.
  induction u; cbn [uint_chars uint_of_chars]; rewrite ?IHu; reflexivity.
Qed.

Lemma to_uint_no_leading_zero (p : positive) (u : Decimal.uint) :
  Pos.to_uint p <> Decimal.D0 u.
Proof.
  intros Hp.
  assert (Hnorm : Decimal.unorm (Pos.to_uint p) = Pos.to_uint p).
  { rewrite <- DecimalPos.Unsigned.to_of, DecimalPos.Unsigned.of_to.
    reflexivity. }
  rewrite Hp in Hnorm. rewrite unorm_D0 in Hnorm.
  unfold Decimal.unorm in Hnorm.
  destruct (Decimal.nzhead u) eqn:Hnz.
  - apply (DecimalPos.Unsigned.to_uint_nonzero p). rewrite Hp.
    symmetry. exact Hnorm.
  - apply (nzhead_nonzero u u0). exact Hnz.
  - apply (nzhead_nonzero u u). rewrite Hnz. exact Hnorm.
  - apply (nzhead_nonzero u u). rewrite Hnz. exact Hnorm.
  - apply (nzhead_nonzero u u). rewrite Hnz. exact Hnorm.
  - apply (nzhead_nonzero u u). rewrite Hnz. exact Hnorm.
  - apply (nzhead_nonzero u u). rewrite Hnz. exact Hnorm.
  - apply (nzhead_nonzero u u). rewrite Hnz. exact Hnorm.
  - apply (nzhead_nonzero u u). rewrite Hnz. exact Hnorm.
  - apply (nzhead_nonzero u u). rewrite Hnz. exact Hnorm.
  - apply (nzhead_nonzero u u). rewrite Hnz. exact Hnorm.
Qed.

Lemma no_fraction_no_exponent (rest : str) :
  ends_number rest -> match_frac rest = None /\ match_exp rest = None.
Proof.
  destruct rest as [ | c rest ]; [ split; reflexivity | ].
  intros (_ & H46 & H101 & H69). unfold match_frac, match_exp.
  rewrite (proj2 (N.eqb_neq c 46) H46), (proj2 (N.eqb_neq c 101) H101),
    (proj2 (N.eqb_neq c 69) H69).
  split; reflexivity.
Qed.

(** The digits of a positive number, read back as an integer lexeme. *)
Lemma match_integer_pos (p : positive) (rest : str) :
  ends_number rest ->
  match_integer (uint_chars (Pos.to_uint p) ++ rest) =
    Some (uint_chars (Pos.to_uint p), rest) /\
  (exists d ds, uint_chars (Pos.to_uint p) = d :: ds /\ d <> 45).
Proof.
  intros Hrest.
  pose proof (DecimalPos.Unsigned.to_uint_nonnil p) as Hnil.
  pose proof (to_uint_no_leading_zero p) as Hzero.
  destruct (Pos.to_uint p) as [ | u | u | u | u | u | u | u | u | u | u ];
    [ contradiction | exfalso; apply (Hzero u); reflexivity | .. ];
    (split; [ | eexists _, _; split; [ reflexivity | discriminate ] ]);
    unfold match_integer; cbn;
    rewrite (span_digits_chars u rest Hrest); reflexivity.
Qed.

Lemma int_of_lexeme_pos (p : positive) :
  int_of_lexeme (uint_chars (Pos.to_uint p)) = Zpos p.
Proof.
  pose proof (match_integer_pos p [] I) as (_ & d & ds & Hd & H45).
  unfold int_of_lexeme. rewrite Hd.
  rewrite (proj2 (N.eqb_neq d 45) H45). rewrite <- Hd.
  rewrite uint_of_chars_chars.
  change (N.of_uint (Pos.to_uint p)) with (Pos.of_uint (Pos.to_uint p)).
  rewrite DecimalPos.Unsigned.of_to. reflexivity.
Qed.

Lemma match_number_int (z : Z) (rest : str) :
  ends_number rest ->
  match_number (int_repr z ++ rest) = Some (JInt z, rest).
Proof.
  intros Hrest.
  destruct (no_fraction_no_exponent rest Hrest) as [Hfrac Hexp].
  unfold match_number. destruct z as [ | p | p ].
  - change (int_repr 0 ++ rest) with (48 :: rest).
    change (match_integer (48 :: rest)) with (Some ([48], rest)).
    cbn iota. rewrite Hfrac, Hexp. reflexivity.
  - change (int_repr (Zpos p)) with (uint_chars (Pos.to_uint p)).
    rewrite (proj1 (match_integer_pos p rest Hrest)).
    cbn iota. rewrite Hfrac, Hexp. rewrite int_of_lexeme_pos. reflexivity.
  - change (int_repr (Zneg p)) with (45 :: uint_chars (Pos.to_uint p)).
    assert (Hm : match_integer ((45 :: uint_chars (Pos.to_uint p)) ++ rest) =
                 Some (45 :: uint_chars (Pos.to_uint p), rest)).
    { pose proof (match_integer_pos p rest Hrest) as (Hm & d & ds & Hd & H45).
      rewrite Hd in *. clear Hd. unfold match_integer in *.
      cbn [app] in *. change (45 =? 45) with true. cbn iota.
      rewrite (proj2 (N.eqb_neq d 45) H45) in Hm.
      destruct (d =? 48).
      - injection Hm; intros; subst; reflexivity.
      - destruct (isdigit d); [ | discriminate ].
        destruct (span_digits (ds ++ rest)) as [ds' r'].
        injection Hm; intros; subst; reflexivity. }
    rewrite Hm. cbn iota. rewrite Hfrac, Hexp.
    unfold int_of_lexeme. change (45 =? 45) with true. cbn iota.
    rewrite uint_of_chars_chars.
    change (N.of_uint (Pos.to_uint p)) with (Pos.of_uint (Pos.to_uint p)).
    rewrite DecimalPos.Unsigned.of_to. reflexivity.
Qed.

(** *** Dicts *)

Lemma str_eqb_eq (a b : str) : str_eqb a b = true <-> a = b.
Proof.
  revert b. induction a as [ | x a IH ]; intros [ | y b ]; cbn [str_eqb];
    try (split; [ discriminate | discriminate ]); [ tauto | ].
  rewrite andb_true_iff, N.eqb_eq, IH. split.
  - intros [-> ->]. reflexivity.
  - intros H. injection H as -> ->. split; reflexivity.
Qed.

Lemma str_eqb_refl (a : str) : str_eqb a a = true.
Proof. apply str_eqb_eq. reflexivity. Qed.

Lemma dict_get_app (d1 d2 : list (str * json)) (k : str) :
  dict_get (d1 ++ d2) k =
  match dict_get d1 k with Some v => Some v | None => dict_get d2 k end.
Proof.
  induction d1 as [ | [k' v'] d1 IH ]; [ reflexivity | ].
  cbn [app dict_get]. destruct (str_eqb k' k); [ reflexivity | exact IH ].
Qed.

Lemma has_key_app (d1 d2 : list (str * json)) (k : str) :
  has_key k (d1 ++ d2) = has_key k d1 || has_key k d2.
Proof.
  unfold has_key. rewrite dict_get_app.
  destruct (dict_get d1 k); reflexivity.
Qed.

Lemma has_key_cons (k' : str) (v : json) (d : list (str * json)) (k : str) :
  has_key k ((k', v) :: d) = str_eqb k' k || has_key k d.
Proof. unfold has_key. cbn [dict_get]. destruct (str_eqb k' k); reflexivity. Qed.

Lemma dict_set_fresh (d : list (str * json)) (k : str) (v : json) :
  has_key k d = false -> dict_set d k v = d ++ [(k, v)].
Proof.
  induction d as [ | [k' v'] d IH ]; intros Hfresh; [ reflexivity | ].
  rewrite has_key_cons in Hfresh. apply orb_false_iff in Hfresh.
  destruct Hfresh as [Hne Hd]. cbn [dict_set app]. rewrite Hne, (IH Hd).
  reflexivity.
Qed.

(** *** The scanner, one step at a time *)

Lemma scan_once_string (fuel : nat) (r : str) :
  scan_once (S fuel) (34 :: r) = '(t, r') ← scanstring r; Some (JStr t, r').
Proof. reflexivity. Qed.

Lemma scan_once_object (fuel : nat) (r : str) :
  scan_once (S fuel) (123 :: r) =
  match skip_ws r with
  | d :: r' =>
      if d =? 125 then Some (JObj [], r')
      else if d =? 34 then object_items fuel r' []
      else None
  | [] => None
  end.
Proof. reflexivity. Qed.

Lemma scan_once_array (fuel : nat) (r : str) :
  scan_once (S fuel) (91 :: r) =
  match skip_ws r with
  | d :: r' =>
      if d =? 93 then Some (JArr [], r')
      else array_items fuel (d :: r') []
  | [] => None
  end.
Proof. reflexivity. Qed.

Lemma array_items_step (fuel : nat) (s : str) (acc : list json) :
  array_items (S fuel) s acc =
  '(v, r) ← scan_once fuel s;
  match skip_ws r with
  | c :: r' =>
      if c =? 93 then Some (JArr (acc ++ [v]), r')
      else if c =? 44 then array_items fuel (skip_ws r') (acc ++ [v])
      else None
  | [] => None
  end.
Proof. reflexivity. Qed.

Lemma object_items_step (fuel : nat) (s : str) (acc : list (str * json)) :
  object_items (S fuel) s acc =
  '(k, r) ← scanstring s;
  match skip_ws r with
  | c :: r1 =>
      if c =? 58 then
        '(v, r2) ← scan_once fuel (skip_ws r1);
        match skip_ws r2 with
        | d :: r3 =>
            if d =? 125 then Some (JObj (dict_set acc k v), r3)
            else if d =? 44 then
              match skip_ws r3 with
              | q :: r4 =>
                  if q =? 34 then object_items fuel r4 (dict_set acc k v)
                  else None
              | [] => None
              end
            else None
        | [] => None
        end
      else None
  | [] => None
  end.
Proof. reflexivity. Qed.

Lemma json_ok_JArr (xs : list json) : json_ok (JArr xs) = forallb json_ok xs.
Proof.
  induction xs as [ | x xs IH ]; [ reflexivity | ].
  cbn [forallb]. rewrite <- IH. reflexivity.
Qed.

Lemma json_ok_JObj (kvs : list (str * json)) :
  json_ok (JObj kvs) = members_ok kvs.
Proof.
  induction kvs as [ | kv kvs IH ]; [ reflexivity | ].
  cbn [members_ok]. rewrite <- IH. reflexivity.
Qed.

Lemma weight_JArr (xs : list json) : weight (JArr xs) = S (weights xs).
Proof. reflexivity. Qed.

Lemma weight_JObj (kvs : list (str * json)) :
  weight (JObj kvs) = S (member_weights kvs).
Proof. reflexivity. Qed.

(** *** Values *)

Lemma isdigit_bounds (c : N) : isdigit c = true -> 48 <= c /\ c <= 57.
Proof.
  unfold isdigit. intros H. apply andb_true_iff in H.
  destruct H as [H1 H2]. apply N.leb_le in H1. apply N.leb_le in H2. lia.
Qed.

Lemma uint_chars_head (u : Decimal.uint) :
  u <> Decimal.Nil ->
  exists d t, uint_chars u = d :: t /\ isdigit d = true.
Proof.
  destruct u; intros Hu; [ contradiction | .. ];
    eexists _, _; (split; [ reflexivity | reflexivity ]).
Qed.

(** A number is scanned as a number. *)
Lemma scan_once_number (fuel : nat) (c : N) (r : str) (res : json * str) :
  isdigit c = true \/ c = 45 ->
  match_number (c :: r) = Some res ->
  scan_once (S fuel) (c :: r) = Some res.
Proof.
  intros Hc Hnum.
  assert (Hb : 45 <= c /\ c <= 57).
  { destruct Hc as [Hc | ->]; [ apply isdigit_bounds in Hc; lia | lia ]. }
  cbn [scan_once].
  rewrite (proj2 (N.eqb_neq c 34)), (proj2 (N.eqb_neq c 123)),
    (proj2 (N.eqb_neq c 91)) by lia.
  change (s2u "null") with [110; 117; 108; 108].
  change (s2u "true") with [116; 114; 117; 101].
  change (s2u "false") with [102; 97; 108; 115; 101].
  cbn [strip_prefix].
  rewrite (proj2 (N.eqb_neq 110 c)), (proj2 (N.eqb_neq 116 c)),
    (proj2 (N.eqb_neq 102 c)) by lia.
  rewrite Hnum. reflexivity.
Qed.

Lemma join_cons (sep x y : str) (ys : list str) :
  join sep (x :: y :: ys) = x ++ sep ++ join sep (y :: ys).
Proof. reflexivity. Qed.

Section ReadBack.
Context {F : FloatSem}.

Lemma dumps_head (v : json) :
  json_ok v = true ->
  exists c t, dumps v = c :: t /\ is_ws c = false /\ c <> 93.
Proof.
  destruct v as [ | [ | ] | z | lit | s | xs | kvs ]; intros Hok;
    try discriminate;
    try (eexists _, _; split; [ reflexivity | split; [ reflexivity | lia ] ]).
  - exists 110, [117; 108; 108]. repeat split. lia.
  - exists 116, [114; 117; 101]. repeat split. lia.
  - exists 102, [97; 108; 115; 101]. repeat split. lia.
  - destruct z as [ | p | p ].
    + eexists _, _. split; [ reflexivity | split; [ reflexivity | lia ] ].
    + destruct (uint_chars_head (Pos.to_uint p)
                  (DecimalPos.Unsigned.to_uint_nonnil p))
        as (d & t & Hd & Hdigit).
      exists d, t. split; [ exact Hd | ].
      apply isdigit_bounds in Hdigit. split; [ | lia ].
      unfold is_ws.
      rewrite (proj2 (N.eqb_neq d 32)), (proj2 (N.eqb_neq d 9)),
        (proj2 (N.eqb_neq d 10)), (proj2 (N.eqb_neq d 13)) by lia.
      reflexivity.
    + eexists _, _. split; [ reflexivity | split; [ reflexivity | lia ] ].
Qed.

(** Blanks before a written value are skipped and nothing more. *)
Lemma skip_ws_dumps (v : json) (rest : str) :
  json_ok v = true -> skip_ws (32 :: dumps v ++ rest) = dumps v ++ rest.
Proof.
  intros Hok. destruct (dumps_head v Hok) as (c & t & -> & Hws & _).
  cbn [skip_ws app]. change (is_ws 32) with true. cbn iota.
  rewrite Hws. reflexivity.
Qed.

Lemma reads_back_scalar (v : json) :
  match v with JArr _ | JObj _ => False | _ => True end -> reads_back v.
Proof.
  intros Hscalar Hok rest fuel Hrest Hfuel.
  destruct fuel as [ | fuel ];
    [ destruct v; cbn [weight] in Hfuel; lia | ].
  destruct v as [ | [ | ] | z | lit | s | xs | kvs ]; try contradiction;
    try discriminate; try reflexivity.
  - pose proof (match_number_int z rest Hrest) as Hnum.
    assert (Hhead : exists c r, int_repr z ++ rest = c :: r /\
                                (isdigit c = true \/ c = 45)).
    { destruct z as [ | p | p ].
      - eexists _, _. split; [ reflexivity | left; reflexivity ].
      - destruct (uint_chars_head (Pos.to_uint p)
                    (DecimalPos.Unsigned.to_uint_nonnil p))
          as (d & t & Hd & Hdigit).
        exists d, (t ++ rest). split; [ | left; exact Hdigit ].
        change (int_repr (Z.pos p)) with (uint_chars (Pos.to_uint p)).
        rewrite Hd. reflexivity.
      - eexists _, _. split; [ reflexivity | right; reflexivity ]. }
    destruct Hhead as (c & r & Heq & Hc).
    change (dumps (JInt z)) with (int_repr z).
    rewrite Heq in *. apply scan_once_number; assumption.
  - change (dumps (JStr s)) with (encode_basestring_ascii s).
    destruct (scan_encoded_string s rest Hok) as (body & -> & Hscan).
    rewrite scan_once_string, Hscan. reflexivity.
Qed.

Lemma ends_number_comma (t : str) : ends_number (44 :: t).
Proof. cbn. repeat split; try reflexivity; discriminate. Qed.

Lemma ends_number_bracket (t : str) : ends_number (93 :: t).
Proof. cbn. repeat split; try reflexivity; discriminate. Qed.

Lemma ends_number_brace (t : str) : ends_number (125 :: t).
Proof. cbn. repeat split; try reflexivity; discriminate. Qed.

Lemma array_items_dumps (xs : list json) :
  Forall reads_back xs ->
  forall (x : json) (acc : list json) (rest : str) (fuel : nat),
    reads_back x ->
    forallb json_ok (x :: xs) = true ->
    (weights (x :: xs) <= fuel)%nat ->
    array_items fuel (join ", " (map dumps (x :: xs)) ++ 93 :: rest) acc =
    Some (JArr (acc ++ x :: xs), rest).
Proof.
  induction 1 as [ | y ys Hy _ IH ]; intros x acc rest fuel Hx Hok Hfuel.
  - cbn [forallb] in Hok. apply andb_true_iff in Hok. destruct Hok as [Hokx _].
    unfold weights in Hfuel. cbn [fold_right] in Hfuel.
    destruct fuel as [ | fuel ]; [ lia | ].
    rewrite array_items_step. cbn [map join].
    rewrite (Hx Hokx (93 :: rest) fuel (ends_number_bracket rest)) by lia.
    reflexivity.
  - cbn [forallb] in Hok. apply andb_true_iff in Hok.
    destruct Hok as [Hokx Hokys].
    assert (Hoky : json_ok y = true).
    { cbn [forallb] in Hokys. apply andb_true_iff in Hokys. tauto. }
    unfold weights in Hfuel. cbn [fold_right] in Hfuel.
    fold (weights ys) in Hfuel.
    destruct fuel as [ | fuel ]; [ lia | ].
    rewrite array_items_step. cbn [map]. rewrite join_cons.
    change (s2u ", ") with [44; 32]. rewrite <- !app_assoc. cbn [app].
    rewrite (Hx Hokx (44 :: 32 :: join [44; 32] (dumps y :: map dumps ys) ++
                      93 :: rest) fuel (ends_number_comma _)) by lia.
    cbn [mbind option_bind skip_ws]. change (is_ws 44) with false.
    cbn iota. change (44 =? 93) with false. change (44 =? 44) with true.
    cbn iota.
    assert (Hskip : skip_ws (32 :: join [44; 32] (dumps y :: map dumps ys) ++
                             93 :: rest) =
                    join [44; 32] (dumps y :: map dumps ys) ++ 93 :: rest).
    { destruct ys as [ | y' ys' ].
      - cbn [map join]. apply skip_ws_dumps. exact Hoky.
      - cbn [map]. rewrite join_cons, <- app_assoc.
        apply skip_ws_dumps. exact Hoky. }
    rewrite Hskip.
    change (dumps y :: map dumps ys) with (map dumps (y :: ys)).
    change [44; 32] with (s2u ", ").
    rewrite (IH y (acc ++ [x]) rest fuel Hy Hokys).
    + rewrite <- app_assoc. reflexivity.
    + unfold weights. cbn [fold_right]. fold (weights ys). lia.
Qed.
End ReadBack.

Section ReadBackObjects.
Context {F : FloatSem}.

Lemma members_text (kv : str * json) (kvs : list (str * json)) (rest : str) :
  join ", " (map member_text (kv :: kvs)) ++ 125 :: rest =
  34 :: flat_map escape_char (fst kv) ++
        34 :: 58 :: 32 :: dumps (snd kv) ++ members_tail kvs rest.
Proof.
  assert (Hone : forall T,
            member_text kv ++ T =
            34 :: flat_map escape_char (fst kv) ++
                  34 :: 58 :: 32 :: dumps (snd kv) ++ T).
  { intros T. unfold member_text, encode_basestring_ascii.
    change (s2u ": ") with [58; 32]. cbn [app].
    rewrite <- !app_assoc. reflexivity. }
  destruct kvs as [ | kv' kvs ].
  - cbn [map join]. apply Hone.
  - cbn [map]. rewrite join_cons. change (s2u ", ") with [44; 32].
    rewrite <- !app_assoc. rewrite Hone. reflexivity.
Qed.

Lemma ends_number_members_tail (kvs : list (str * json)) (rest : str) :
  ends_number (members_tail kvs rest).
Proof.
  destruct kvs; [ apply ends_number_brace | apply ends_number_comma ].
Qed.

Lemma object_items_dumps (kvs : list (str * json)) :
  Forall (fun kv => reads_back (snd kv)) kvs ->
  forall (kv : str * json) (acc : list (str * json)) (rest : str)
         (fuel : nat),
    reads_back (snd kv) ->
    members_ok (kv :: kvs) = true ->
    (forall k, has_key k (kv :: kvs) = true -> has_key k acc = false) ->
    (member_weights (kv :: kvs) <= fuel)%nat ->
    object_items fuel
      (flat_map escape_char (fst kv) ++
       34 :: 58 :: 32 :: dumps (snd kv) ++ members_tail kvs rest) acc =
    Some (JObj (acc ++ kv :: kvs), rest).
Proof.
  induction 1 as [ | kv2 kvs Hkv2 _ IH ];
    intros [k v] acc rest fuel Hv Hok Hfresh Hfuel;
    cbn [fst snd] in *;
    cbn [members_ok fst snd] in Hok;
    apply andb_true_iff in Hok; destruct Hok as [Hok Hrest_ok];
    apply andb_true_iff in Hok; destruct Hok as [Hok Hk_fresh];
    apply andb_true_iff in Hok; destruct Hok as [Hk_ok Hv_ok];
    unfold member_weights in Hfuel; cbn [fold_right snd] in Hfuel;
    (destruct fuel as [ | fuel ]; [ lia | ]);
    rewrite object_items_step, (scanstring_escaped k _ Hk_ok);
    cbn [mbind option_bind skip_ws];
    change (is_ws 58) with false; cbn iota;
    change (58 =? 58) with true; cbn iota;
    rewrite (skip_ws_dumps v _ Hv_ok);
    rewrite (Hv Hv_ok _ fuel (ends_number_members_tail _ rest)) by lia;
    cbn [mbind option_bind];
    (assert (Hset : dict_set acc k v = acc ++ [(k, v)])
       by (apply dict_set_fresh, Hfresh; rewrite has_key_cons, str_eqb_refl;
           reflexivity));
    rewrite Hset.
  - reflexivity.
  - cbn [members_tail skip_ws]. change (is_ws 44) with false. cbn iota.
    change (44 =? 125) with false. change (44 =? 44) with true. cbn iota.
    rewrite members_text. cbn [skip_ws]. change (is_ws 32) with true.
    change (is_ws 34) with false. cbn iota.
    change (34 =? 34) with true. cbn iota.
    fold (member_weights kvs) in Hfuel.
    rewrite (IH kv2 (acc ++ [(k, v)]) rest fuel Hkv2 Hrest_ok).
    + rewrite <- app_assoc. reflexivity.
    + intros k' Hk'. rewrite has_key_app. apply orb_false_iff. split.
      * apply Hfresh. rewrite has_key_cons, Hk'. apply orb_true_r.
      * rewrite has_key_cons. apply orb_false_iff. split; [ | reflexivity ].
        destruct (str_eqb k k') eqn:Heq; [ | reflexivity ].
        apply str_eqb_eq in Heq. subst k'.
        rewrite Hk' in Hk_fresh. discriminate.
    + unfold member_weights. cbn [fold_right]. fold (member_weights kvs).
      lia.
Qed.

(** Every value of [json_ok] is read back from what was written for it. *)
Lemma scan_once_dumps (v : json) : reads_back v.
Proof.
  induction v as [ | b | z | lit | s | xs IH | kvs IH ] using json_ind';
    try (apply reads_back_scalar; exact I).
  - intros Hok rest fuel Hrest Hfuel.
    rewrite json_ok_JArr in Hok. rewrite weight_JArr in Hfuel.
    destruct fuel as [ | fuel ]; [ lia | ].
    rewrite dumps_JArr. cbn [app]. rewrite scan_once_array.
    destruct xs as [ | x xs ]; [ reflexivity | ].
    rewrite <- app_assoc. cbn [app].
    assert (Hokx : json_ok x = true).
    { cbn [forallb] in Hok. apply andb_true_iff in Hok. tauto. }
    assert (Hhead : exists c t,
              join ", " (map dumps (x :: xs)) ++ 93 :: rest = c :: t /\
              is_ws c = false /\ c <> 93).
    { destruct (dumps_head x Hokx) as (c & t & Hc & Hws & H93).
      destruct xs as [ | y ys ].
      - cbn [map join]. rewrite Hc. eexists _, _.
        split; [ reflexivity | auto ].
      - cbn [map]. rewrite join_cons, Hc. eexists _, _.
        split; [ reflexivity | auto ]. }
    destruct Hhead as (c & t & Heq & Hws & H93).
    rewrite Heq. cbn [skip_ws]. rewrite Hws.
    rewrite (proj2 (N.eqb_neq c 93) H93). rewrite <- Heq.
    inversion IH as [ | x' xs' Hx Hxs ]; subst.
    rewrite (array_items_dumps xs Hxs x [] rest fuel Hx Hok) by lia.
    reflexivity.
  - intros Hok rest fuel Hrest Hfuel.
    rewrite json_ok_JObj in Hok. rewrite weight_JObj in Hfuel.
    destruct fuel as [ | fuel ]; [ lia | ].
    rewrite dumps_JObj. cbn [app]. rewrite scan_once_object.
    destruct kvs as [ | kv kvs ]; [ reflexivity | ].
    rewrite <- app_assoc. cbn [app].
    change (fun kv0 : str * json =>
              encode_basestring_ascii (fst kv0) ++ s2u ": " ++
              dumps (snd kv0)) with member_text.
    rewrite members_text. cbn [skip_ws]. change (is_ws 34) with false.
    cbn iota. change (34 =? 125) with false. change (34 =? 34) with true.
    cbn iota.
    inversion IH as [ | kv' kvs' Hkv Hkvs ]; subst.
    rewrite (object_items_dumps kvs Hkvs kv [] rest fuel Hkv Hok).
    + reflexivity.
    + intros k _. reflexivity.
    + lia.
Qed.
End ReadBackObjects.

(** *** Fuel: [loads] gives enough of it *)

Section Fuel.
Context {F : FloatSem}.

Lemma join_weights (texts : list str) (ws : list nat) :
  Forall2 (fun t w => (w <= 2 * length t + 1)%nat) texts ws ->
  (fold_right (fun w n => S (w + n)) O ws <=
   2 * length (join ", " texts) + 2)%nat.
Proof.
  induction 1 as [ | t w texts ws Htw Hrest IH ]; [ cbn; lia | ].
  cbn [fold_right]. destruct Hrest as [ | t' w' texts' ws' Ht' Hrest' ].
  - cbn [fold_right join]. lia.
  - rewrite join_cons, !length_app. change (length (s2u ", ")) with 2%nat.
    unfold str in *. lia.
Qed.

Lemma fold_right_map_weight {A} (f : A -> nat) (xs : list A) :
  fold_right (fun w n => S (w + n)) O (map f xs) =
  fold_right (fun x n => S (f x + n)) O xs.
Proof.
  induction xs as [ | x xs IH ]; [ reflexivity | ].
  cbn [map fold_right]. rewrite IH. reflexivity.
Qed.

Lemma weight_bound (v : json) : (weight v <= 2 * length (dumps v) + 1)%nat.
Proof.
  induction v as [ | b | z | lit | s | xs IH | kvs IH ] using json_ind';
    try (cbn [weight]; lia).
  - rewrite weight_JArr, dumps_JArr. cbn [length]. rewrite length_app.
    cbn [length].
    assert (H : (weights xs <= 2 * length (join ", " (map dumps xs)) + 2)%nat).
    { unfold weights. rewrite <- (fold_right_map_weight weight).
      apply join_weights.
      induction IH as [ | x xs Hx _ IHxs ]; cbn [map]; constructor;
        assumption. }
    lia.
  - rewrite weight_JObj, dumps_JObj. cbn [length]. rewrite length_app.
    cbn [length].
    assert (H : (member_weights kvs <=
                 2 * length (join ", " (map member_text kvs)) + 2)%nat).
    { unfold member_weights.
      rewrite <- (fold_right_map_weight (fun kv => weight (snd kv))).
      apply join_weights.
      induction IH as [ | kv kvs Hkv _ IHkvs ]; cbn [map]; constructor;
        [ | assumption ].
      unfold member_text. rewrite !length_app. cbn [fst snd] in *.
      unfold str in *. lia. }
    unfold member_text in H. unfold str in *. lia.
Qed.

(** [json.loads(json.dumps(v)) == v] *)
Lemma loads_dumps (v : json) : json_ok v = true -> loads (dumps v) = Some v.
Proof.
  intros Hok. unfold loads.
  destruct (dumps_head v Hok) as (c & t & Hc & Hws & _).
  assert (Hskip : skip_ws (dumps v) = dumps v).
  { rewrite Hc. apply skip_ws_head. exact Hws. }
  rewrite Hskip.
  pose proof (scan_once_dumps v Hok [] (2 * length (dumps v) + 2)%nat I) as Hs.
  rewrite app_nil_r in Hs. rewrite Hs.
  - reflexivity.
  - pose proof (weight_bound v). lia.
Qed.

(** The line written for an object decodes to the object. *)
Lemma decode_line_wire (kvs : list (str * json)) :
  json_ok (JObj kvs) = true ->
  exists x, wire (JObj kvs) = Some x /\ decode_line x = Some (JObj kvs).
Proof.
  intros Hok. rewrite wire_eq. eexists. split; [ reflexivity | ].
  unfold decode_line. rewrite bytes_decode_ascii.
  - cbn [mbind option_bind]. rewrite dumps_JObj, strip_braced.
    rewrite <- dumps_JObj. apply loads_dumps. exact Hok.
  - apply ascii_text_app; [ apply dumps_ascii | ].
    unfold ascii_text. repeat constructor.
Qed.

(** C8, amended.  For every request line the harness writes, for a method
    name and parameters free of floats, of surrogate code points and of
    repeated keys: the line decodes to the request object it was written for,
    and encoding what it decodes to gives the line again. *)
Theorem request_roundtrip (method : str) (params : json) (id : Z) :
  text_ok method = true ->
  json_ok params = true ->
  exists x,
    wire (e2e_request method params id) = Some x /\
    decode_line x = Some (e2e_request method params id) /\
    (forall v, decode_line x = Some v -> wire v = Some x).
Proof.
  intros Hmethod Hparams.
  assert (Hok : exists kvs, e2e_request method params id = JObj kvs /\
                            json_ok (JObj kvs) = true).
  { assert (Hshape : e2e_request method params id = request0 method id \/
                     e2e_request method params id =
                       request method params id)
      by (destruct params; auto).
    destruct Hshape as [-> | ->]; unfold request, request0;
      (eexists; split; [ reflexivity | ]);
      rewrite json_ok_JObj; cbn [members_ok fst snd];
      change (json_ok (JStr method)) with (text_ok method);
      rewrite ?Hmethod, ?Hparams; reflexivity. }
  destruct Hok as (kvs & Hreq & Hok). rewrite Hreq.
  destruct (decode_line_wire kvs Hok) as (x & Hwire & Hdecode).
  exists x. split; [ exact Hwire | ]. split; [ exact Hdecode | ].
  intros v Hv. rewrite Hdecode in Hv. injection Hv as <-. exact Hwire.
Qed.
End Fuel.

Lemma request_roundtrip_witness :
  exists x,
    @wire no_floats (e2e_request "action.delete" E2E.delete_params 1) =
      Some x /\
    decode_line x = Some (e2e_request "action.delete" E2E.delete_params 1).
Proof.
  destruct (@request_roundtrip no_floats "action.delete" E2E.delete_params 1
              eq_refl eq_refl) as (x & Hwire & Hdecode & _).
  exists x. split; assumption.
Defined.

(** C8 as stated fails: the compact line is a valid request in wire form, it
    decodes to the health request, and encoding that request gives another
    line, with a blank after each comma and colon. *)
Lemma compact_request_is_not_reproduced :
  decode_line compact_line = Some (request0 "health" 1) /\
  @wire no_floats (request0 "health" 1) <> Some compact_line /\
  @wire no_floats (request0 "health" 1) =
    Some (lines ["{'jsonrpc': '2.0', 'method': 'health', 'id': 1}"]).
Proof.
  split; [ vm_compute; reflexivity | ].
  split; [ vm_compute; discriminate | vm_compute; reflexivity ].
Qed.

(** *** The parser never runs out of fuel

    Every value read takes at least one character, and so does every
    separator: the calls of [scan_once] nest no deeper than twice the length
    of the text.  With the fuel [loads] gives, [None] is therefore always a
    text that is not JSON, and never a parse cut short. *)

Lemma skip_ws_length (s : str) : (length (skip_ws s) <= length s)%nat.
Proof.
  induction s as [ | c t IH ]; cbn [skip_ws]; [ lia | ].
  destruct (is_ws c); cbn [length]; lia.
Qed.

Lemma skip_ws_cons_length (s r : str) (c : N) :
  skip_ws s = c :: r -> (S (length r) <= length s)%nat.
Proof.
  intros H. pose proof (skip_ws_length s) as Hle.
  rewrite H in Hle. exact Hle.
Qed.

Lemma strip_prefix_length (p s r : str) :
  strip_prefix p s = Some r -> (length r + length p = length s)%nat.
Proof.
  revert s. induction p as [ | c p IH ]; intros s; cbn [strip_prefix].
  - intros [= ->]. cbn [length]. lia.
  - destruct s as [ | d s' ]; [ discriminate | ].
    destruct (c =? d); [ | discriminate ].
    intros H. apply IH in H. cbn [length]. lia.
Qed.

Lemma span_digits_length (s ds r : str) :
  span_digits s = (ds, r) -> (length r <= length s)%nat.
Proof.
  revert ds r. induction s as [ | c t IH ]; intros ds r; cbn [span_digits].
  - intros [= <- <-]. cbn [length]. lia.
  - destruct (isdigit c).
    + destruct (span_digits t) as [ds' r'] eqn:Ht.
      intros [= <- <-]. specialize (IH _ _ eq_refl). cbn [length]. lia.
    + intros [= <- <-]. lia.
Qed.

Lemma match_integer_length (s i r : str) :
  match_integer s = Some (i, r) -> (length r < length s)%nat.
Proof.
  unfold match_integer.
  assert (Hdigits : forall (sign r0 : str),
    match r0 with
    | d :: r' =>
        if d =? 48 then Some (sign ++ [48], r')
        else if isdigit d then
          let '(ds, r'') := span_digits r' in Some (sign ++ d :: ds, r'')
        else None
    | [] => None
    end = Some (i, r) -> (length r < length r0)%nat).
  { intros sign [ | d r' ]; [ discriminate | ].
    destruct (d =? 48).
    - intros [= <- <-]. cbn [length]. lia.
    - destruct (isdigit d); [ | discriminate ].
      destruct (span_digits r') as [ds r''] eqn:Hspan.
      intros [= <- <-]. apply span_digits_length in Hspan.
      cbn [length]. lia. }
  destruct s as [ | c s' ].
  - discriminate.
  - destruct (c =? 45).
    + intros H. apply Hdigits in H. cbn [length]. lia.
    + exact (Hdigits [] (c :: s')).
Qed.

Lemma match_frac_length (s f r : str) :
  match_frac s = Some (f, r) -> (length r <= length s)%nat.
Proof.
  unfold match_frac. destruct s as [ | c s' ]; [ discriminate | ].
  destruct (c =? 46); [ | discriminate ].
  destruct (span_digits s') as [ds r'] eqn:Hspan.
  apply span_digits_length in Hspan.
  destruct ds; [ discriminate | ].
  intros [= <- <-]. cbn [length]. lia.
Qed.

Lemma match_exp_length (s e r : str) :
  match_exp s = Some (e, r) -> (length r <= length s)%nat.
Proof.
  unfold match_exp. destruct s as [ | c s' ]; [ discriminate | ].
  destruct ((c =? 101) || (c =? 69)); [ | discriminate ].
  assert (Hsign : forall p : str * str,
    p = match s' with
        | c0 :: r1 => if (c0 =? 45) || (c0 =? 43) then ([c0], r1) else ([], s')
        | [] => ([], s')
        end -> (length (snd p) <= length s')%nat).
  { intros p ->. destruct s' as [ | c0 r1 ]; [ cbn; lia | ].
    destruct ((c0 =? 45) || (c0 =? 43)); cbn [snd length]; lia. }
  destruct (match s' with
            | c0 :: r1 =>
                if (c0 =? 45) || (c0 =? 43) then ([c0], r1) else ([], s')
            | [] => ([], s')
            end) as [sg r1] eqn:Hsg.
  specialize (Hsign (sg, r1) (eq_sym Hsg)). cbn [snd] in Hsign.
  destruct (span_digits r1) as [ds r2] eqn:Hspan.
  apply span_digits_length in Hspan.
  destruct ds; [ discriminate | ].
  intros [= <- <-]. cbn [length]. lia.
Qed.

Lemma match_number_length (s r : str) (v : json) :
  match_number s = Some (v, r) -> (length r < length s)%nat.
Proof.
  unfold match_number.
  destruct (match_integer s) as [ [i r0] | ] eqn:Hi; [ | discriminate ].
  apply match_integer_length in Hi.
  destruct (match_frac r0) as [ [f r1'] | ] eqn:Hf.
  - apply match_frac_length in Hf.
    destruct (match_exp r1') as [ [e r2] | ] eqn:He.
    + apply match_exp_length in He.
      destruct f, e; intros [= <- <-]; lia.
    + destruct f; intros [= <- <-]; lia.
  - destruct (match_exp r0) as [ [e r2] | ] eqn:He.
    + apply match_exp_length in He.
      destruct e; intros [= <- <-]; lia.
    + intros [= <- <-]; lia.
Qed.

Lemma scanstring_length (s t r : str) :
  scanstring s = Some (t, r) -> (length r < length s)%nat.
Proof.
  remember (length s) as n eqn:Hn. revert s t r Hn.
  induction n as [n IH] using lt_wf_ind. intros s t r Hn.
  assert (Hrec : forall (s' : str) (x : N),
    (length s' < n)%nat ->
    ('(t', r') ← scanstring s'; Some (x :: t', r')) = Some (t, r) ->
    (length r < n)%nat).
  { intros s' x Hlt H.
    destruct (scanstring s') as [ [t' r'] | ] eqn:Hs'; [ | discriminate ].
    cbn in H. injection H as <- <-.
    specialize (IH _ Hlt s' t' r' eq_refl Hs'). lia. }
  destruct s as [ | c s ]; [ discriminate | ]. cbn [length] in Hn.
  cbn [scanstring].
  destruct (c =? 34); [ intros [= <- <-]; lia | ].
  destruct (c =? 92).
  - destruct s as [ | e r1 ]; [ discriminate | ]. cbn [length] in Hn.
    destruct (e =? 117).
    + destruct r1 as [ | h1 [ | h2 [ | h3 [ | h4 r2 ] ] ] ]; try discriminate.
      cbn [length] in Hn.
      destruct (decode_hex4 h1 h2 h3 h4) as [uni | ]; [ | discriminate ].
      assert (Hsingle :
        ('(t', r') ← scanstring r2; Some (uni :: t', r')) = Some (t, r) ->
        (length r < n)%nat) by (apply Hrec; lia).
      destruct ((55296 <=? uni) && (uni <=? 56319)); [ | exact Hsingle ].
      destruct r2 as [ | b [ | u [ | g1 [ | g2 [ | g3 [ | g4 r3 ] ] ] ] ] ];
        try exact Hsingle.
      destruct ((b =? 92) && (u =? 117)); [ | exact Hsingle ].
      destruct (decode_hex4 g1 g2 g3 g4) as [uni2 | ]; [ | discriminate ].
      destruct ((56320 <=? uni2) && (uni2 <=? 57343)); [ | exact Hsingle ].
      apply Hrec. cbn [length] in Hn. lia.
    + destruct (backslash e) as [d | ]; [ | discriminate ].
      apply Hrec. lia.
  - destruct (c <? 32); [ discriminate | ].
    apply Hrec. lia.
Qed.

(** What a call returns is strictly shorter than what it was given. *)
Lemma scan_once_length (fuel : nat) :
  (forall s v r, scan_once fuel s = Some (v, r) ->
                 (length r < length s)%nat) /\
  (forall s acc v r, array_items fuel s acc = Some (v, r) ->
                     (length r < length s)%nat) /\
  (forall s acc v r, object_items fuel s acc = Some (v, r) ->
                     (length r < length s)%nat).
Proof.
  induction fuel as [ | fuel (IHs & IHa & IHo) ];
    [ repeat split; intros; discriminate | ].
  repeat split.
  - intros s v r. destruct s as [ | c s' ]; [ discriminate | ].
    cbn [scan_once].
    destruct (c =? 34).
    { destruct (scanstring s') as [ [t r'] | ] eqn:Hstr; [ | discriminate ].
      apply scanstring_length in Hstr. cbn. intros [= <- <-].
      cbn [length]. lia. }
    destruct (c =? 123).
    { destruct (skip_ws s') as [ | d r' ] eqn:Hws; [ discriminate | ].
      apply skip_ws_cons_length in Hws.
      destruct (d =? 125); [ intros [= <- <-]; cbn [length]; lia | ].
      destruct (d =? 34); [ | discriminate ].
      intros H. apply IHo in H. cbn [length]. lia. }
    destruct (c =? 91).
    { destruct (skip_ws s') as [ | d r' ] eqn:Hws; [ discriminate | ].
      apply skip_ws_cons_length in Hws.
      destruct (d =? 93); [ intros [= <- <-]; cbn [length]; lia | ].
      intros H. apply IHa in H. cbn [length] in *. lia. }
    destruct (strip_prefix "null" (c :: s')) as [r' | ] eqn:H1.
    { apply strip_prefix_length in H1.
      change (length (s2u "null")) with 4%nat in H1.
      intros [= <- <-]. lia. }
    destruct (strip_prefix "true" (c :: s')) as [r' | ] eqn:H2.
    { apply strip_prefix_length in H2.
      change (length (s2u "true")) with 4%nat in H2.
      intros [= <- <-]. lia. }
    destruct (strip_prefix "false" (c :: s')) as [r' | ] eqn:H3.
    { apply strip_prefix_length in H3.
      change (length (s2u "false")) with 5%nat in H3.
      intros [= <- <-]. lia. }
    destruct (match_number (c :: s')) as [ [v' r'] | ] eqn:H4.
    { apply match_number_length in H4. intros [= <- <-]. lia. }
    destruct (strip_prefix "NaN" (c :: s')) as [r' | ] eqn:H5.
    { apply strip_prefix_length in H5.
      change (length (s2u "NaN")) with 3%nat in H5.
      intros [= <- <-]. lia. }
    destruct (strip_prefix "Infinity" (c :: s')) as [r' | ] eqn:H6.
    { apply strip_prefix_length in H6.
      change (length (s2u "Infinity")) with 8%nat in H6.
      intros [= <- <-]. lia. }
    destruct (strip_prefix "-Infinity" (c :: s')) as [r' | ] eqn:H7;
      [ | discriminate ].
    apply strip_prefix_length in H7.
    change (length (s2u "-Infinity")) with 9%nat in H7.
    intros [= <- <-]. lia.
  - intros s acc v r. rewrite array_items_step.
    destruct (scan_once fuel s) as [ [v0 r0] | ] eqn:Hv; [ | discriminate ].
    apply IHs in Hv. cbn [mbind option_bind].
    destruct (skip_ws r0) as [ | c r' ] eqn:Hws; [ discriminate | ].
    apply skip_ws_cons_length in Hws.
    destruct (c =? 93); [ intros [= <- <-]; lia | ].
    destruct (c =? 44); [ | discriminate ].
    intros H. apply IHa in H. pose proof (skip_ws_length r') as Hr'. lia.
  - intros s acc v r. rewrite object_items_step.
    destruct (scanstring s) as [ [k r0] | ] eqn:Hk; [ | discriminate ].
    apply scanstring_length in Hk. cbn [mbind option_bind].
    destruct (skip_ws r0) as [ | c r1 ] eqn:Hws; [ discriminate | ].
    apply skip_ws_cons_length in Hws.
    destruct (c =? 58); [ | discriminate ].
    destruct (scan_once fuel (skip_ws r1)) as [ [v0 r2] | ] eqn:Hv;
      [ | discriminate ].
    apply IHs in Hv. pose proof (skip_ws_length r1) as Hr1. cbn [mbind option_bind].
    destruct (skip_ws r2) as [ | d r3 ] eqn:Hws2; [ discriminate | ].
    apply skip_ws_cons_length in Hws2.
    destruct (d =? 125); [ intros [= <- <-]; lia | ].
    destruct (d =? 44); [ | discriminate ].
    destruct (skip_ws r3) as [ | q r4 ] eqn:Hws3; [ discriminate | ].
    apply skip_ws_cons_length in Hws3.
    destruct (q =? 34); [ | discriminate ].
    intros H. apply IHo in H. lia.
Qed.

(** One more unit of fuel changes nothing once there are two units for each
    character (and one or two to spare). *)
Lemma fuel_stable (fuel : nat) :
  (forall s, (2 * length s + 1 <= fuel)%nat ->
             scan_once (S fuel) s = scan_once fuel s) /\
  (forall s acc, (2 * length s + 2 <= fuel)%nat ->
                 array_items (S fuel) s acc = array_items fuel s acc) /\
  (forall s acc, (2 * length s + 2 <= fuel)%nat ->
                 object_items (S fuel) s acc = object_items fuel s acc).
Proof.
  induction fuel as [ | fuel (IHs & IHa & IHo) ];
    [ repeat split; intros; lia | ].
  repeat split.
  - intros s Hfuel. destruct s as [ | c s' ]; [ reflexivity | ].
    cbn [length] in Hfuel.
    cbn [scan_once].
    destruct (c =? 34); [ reflexivity | ].
    destruct (c =? 123).
    { destruct (skip_ws s') as [ | d r' ] eqn:Hws; [ reflexivity | ].
      apply skip_ws_cons_length in Hws.
      destruct (d =? 125); [ reflexivity | ].
      destruct (d =? 34); [ | reflexivity ].
      apply IHo. lia. }
    destruct (c =? 91); [ | reflexivity ].
    destruct (skip_ws s') as [ | d r' ] eqn:Hws; [ reflexivity | ].
    apply skip_ws_cons_length in Hws.
    destruct (d =? 93); [ reflexivity | ].
    apply IHa. cbn [length]. lia.
  - intros s acc Hfuel. rewrite !array_items_step.
    rewrite IHs by lia.
    destruct (scan_once fuel s) as [ [v r] | ] eqn:Hv; [ | reflexivity ].
    apply (proj1 (scan_once_length fuel)) in Hv. cbn [mbind option_bind].
    destruct (skip_ws r) as [ | c r' ] eqn:Hws; [ reflexivity | ].
    apply skip_ws_cons_length in Hws.
    destruct (c =? 93); [ reflexivity | ].
    destruct (c =? 44); [ | reflexivity ].
    apply IHa. pose proof (skip_ws_length r') as Hr'. lia.
  - intros s acc Hfuel. rewrite !object_items_step.
    destruct (scanstring s) as [ [k r0] | ] eqn:Hk; [ | reflexivity ].
    apply scanstring_length in Hk. cbn [mbind option_bind].
    destruct (skip_ws r0) as [ | c r1 ] eqn:Hws; [ reflexivity | ].
    apply skip_ws_cons_length in Hws.
    destruct (c =? 58); [ | reflexivity ].
    pose proof (skip_ws_length r1) as Hr1.
    rewrite IHs by lia.
    destruct (scan_once fuel (skip_ws r1)) as [ [v r2] | ] eqn:Hv;
      [ | reflexivity ].
    apply (proj1 (scan_once_length fuel)) in Hv. cbn [mbind option_bind].
    destruct (skip_ws r2) as [ | d r3 ] eqn:Hws2; [ reflexivity | ].
    apply skip_ws_cons_length in Hws2.
    destruct (d =? 125); [ reflexivity | ].
    destruct (d =? 44); [ | reflexivity ].
    destruct (skip_ws r3) as [ | q r4 ] eqn:Hws3; [ reflexivity | ].
    apply skip_ws_cons_length in Hws3.
    destruct (q =? 34); [ | reflexivity ].
    apply IHo. lia.
Qed.

(** What some fuel reads, more fuel reads too. *)
Lemma fuel_monotone (fuel : nat) :
  (forall s res, scan_once fuel s = Some res ->
                 scan_once (S fuel) s = Some res) /\
  (forall s acc res, array_items fuel s acc = Some res ->
                     array_items (S fuel) s acc = Some res) /\
  (forall s acc res, object_items fuel s acc = Some res ->
                     object_items (S fuel) s acc = Some res).
Proof.
  induction fuel as [ | fuel (IHs & IHa & IHo) ];
    [ repeat split; intros; discriminate | ].
  repeat split.
  - intros s res. destruct s as [ | c s' ]; [ discriminate | ].
    cbn [scan_once].
    destruct (c =? 34); [ exact (fun H => H) | ].
    destruct (c =? 123).
    { destruct (skip_ws s') as [ | d r' ]; [ discriminate | ].
      destruct (d =? 125); [ exact (fun H => H) | ].
      destruct (d =? 34); [ | discriminate ].
      apply IHo. }
    destruct (c =? 91); [ | exact (fun H => H) ].
    destruct (skip_ws s') as [ | d r' ]; [ discriminate | ].
    destruct (d =? 93); [ exact (fun H => H) | ].
    apply IHa.
  - intros s acc res. rewrite !array_items_step.
    destruct (scan_once fuel s) as [ [v r] | ] eqn:Hv; [ | discriminate ].
    rewrite (IHs _ _ Hv). cbn [mbind option_bind].
    destruct (skip_ws r) as [ | c r' ]; [ discriminate | ].
    destruct (c =? 93); [ exact (fun H => H) | ].
    destruct (c =? 44); [ | discriminate ].
    apply IHa.
  - intros s acc res. rewrite !object_items_step.
    destruct (scanstring s) as [ [k r0] | ]; [ | discriminate ]. cbn [mbind option_bind].
    destruct (skip_ws r0) as [ | c r1 ]; [ discriminate | ].
    destruct (c =? 58); [ | discriminate ].
    destruct (scan_once fuel (skip_ws r1)) as [ [v r2] | ] eqn:Hv;
      [ | discriminate ].
    rewrite (IHs _ _ Hv). cbn [mbind option_bind].
    destruct (skip_ws r2) as [ | d r3 ]; [ discriminate | ].
    destruct (d =? 125); [ exact (fun H => H) | ].
    destruct (d =? 44); [ | discriminate ].
    destruct (skip_ws r3) as [ | q r4 ]; [ discriminate | ].
    destruct (q =? 34); [ | discriminate ].
    apply IHo.
Qed.

Lemma fuel_monotone_le (s : str) (res : json * str) (f g : nat) :
  (f <= g)%nat -> scan_once f s = Some res -> scan_once g s = Some res.
Proof.
  induction 1 as [ | g _ IH ]; [ exact (fun H => H) | ].
  intros H. apply (proj1 (fuel_monotone g)). exact (IH H).
Qed.

Lemma fuel_stable_le (s : str) (f g : nat) :
  (2 * length s + 1 <= f)%nat -> (f <= g)%nat ->
  scan_once g s = scan_once f s.
Proof.
  intros Hf. induction 1 as [ | g Hle IH ]; [ reflexivity | ].
  rewrite <- IH. apply (proj1 (fuel_stable g)). lia.
Qed.

(** The fuel of [loads] is enough: whatever any amount of fuel reads at the
    head of the text, [loads] reads, and more fuel than it gives reads no
    more. *)
Lemma loads_fuel_enough (s : str) (fuel : nat) (res : json * str) :
  scan_once fuel (skip_ws s) = Some res ->
  scan_once (2 * length s + 2) (skip_ws s) = Some res.
Proof.
  intros H. pose proof (skip_ws_length s) as Hws.
  destruct (Nat.le_gt_cases fuel (2 * length s + 2)) as [Hle | Hgt].
  - exact (fuel_monotone_le _ _ _ _ Hle H).
  - rewrite <- H. symmetry. apply fuel_stable_le; lia.
Qed.

(** [loads] fails on a text only when no amount of fuel reads it as one
    value with blanks around it. *)
Lemma loads_None (s : str) :
  loads s = None ->
  forall (fuel : nat) (v : json) (r : str),
    scan_once fuel (skip_ws s) = Some (v, r) -> skip_ws r <> [].
Proof.
  unfold loads. intros Hloads fuel v r H.
  rewrite (loads_fuel_enough _ _ _ H) in Hloads. cbn in Hloads.
  destruct (skip_ws r); [ discriminate | discriminate ].
Qed.

(** ** The callback listeners and their port *)

Lemma callback_port_default (environ : gmap string string) :
  environ !! "OPENACT_CALLBACK_PORT" = None ->
  Callback.PORT environ = Val 8080%Z.
Proof. intros H. unfold Callback.PORT. rewrite H. reflexivity. Qed.

Lemma authflow_port_fixed (environ : gmap string string) :
  AuthflowCallback.PORT environ = Val 8080%Z.
Proof. reflexivity. Qed.


(** ** Whole runs of the workflow *)

Lemma calls_app (a b : list event) : calls (a ++ b) = calls a ++ calls b.
Proof. unfold calls. apply omap_app. Qed.

Lemma calls_exchange (method : str) (params : json) (id : Z) (w : world) :
  calls (trace (exchange (request method params id) w)) =
  calls (trace w) ++ [JStr method].
Proof. rewrite trace_exchange, calls_app. reflexivity. Qed.

Lemma calls_exchange0 (method : str) (id : Z) (w : world) :
  calls (trace (exchange (request0 method id) w)) =
  calls (trace w) ++ [JStr method].
Proof. rewrite trace_exchange, calls_app. reflexivity. Qed.

Ltac calls_so_far :=
  cbn [fst snd];
  repeat first [ rewrite calls_exchange | rewrite calls_exchange0 ];
  rewrite <- ?app_assoc; cbn [app].

Ltac stops_after listed fetched :=
  exists listed, fetched; eexists;
  split; [ calls_so_far; reflexivity | ];
  split; [ eexists; cbn; reflexivity
         | intros Hdone; first [ discriminate Hdone | reflexivity ] ].

Ltac stops :=
  first [ stops_after false false | stops_after true false
        | stops_after false true | stops_after true true ].

Section CallOrder.
Context {F : FloatSem}.

(** X1.  Whatever the child answers, the methods a run of the workflow
    calls are a prefix of the fixed sequence health, action.delete,
    action.register, action.update, auth.pat, (auth.list), binding.create,
    (binding.get), run, execution.get, execution.list; a run that returns has
    called the whole sequence. *)
Theorem workflow_call_order (w : world) :
  exists (listed fetched : bool) (ms : list json),
    calls (trace (snd (E2E.workflow w))) = calls (trace w) ++ ms /\
    ms `prefix_of` workflow_methods listed fetched /\
    (fst (E2E.workflow w) = Val tt -> ms = workflow_methods listed fetched).
Proof.
  unfold E2E.workflow.
  rewrite bind_run, step_health_run.
  destruct (r ← reply w; py_assert (is_success r)) as [ [] | e ]; [ | stops ].
  rewrite bind_run, step_clean_run.
  match goal with |- context [reply ?w ;; Val tt] =>
    destruct (reply w ;; Val tt) as [ [] | e ]; [ | stops ] end.
  rewrite bind_run, step_register_run.
  match goal with |- context [r ← reply ?w; E2E.register_handle r] =>
    destruct (r ← reply w; E2E.register_handle r) as [ a | e ]; [ | stops ]
  end.
  unfold E2E.after_register.
  rewrite bind_run, step_update_run.
  match goal with |- context [ru ← reply ?w; py_assert _] =>
    destruct (ru ← reply w; py_assert (E2E.update_accepted ru))
      as [ [] | e ]; [ | stops ]
  end.
  rewrite bind_run, step_auth_run. cbv zeta.
  match goal with |- context [r ← reply ?w; ok ← is_success r; Val (r, ok)] =>
    destruct (r ← reply w; ok ← is_success r; Val (r, ok))
      as [ [r [ | ]] | e ]; [ | | stops ]
  end.
  - destruct (E2E.result_field "connection_trn" r) as [ t | e ]; [ | stops ].
    unfold E2E.after_auth.
    rewrite bind_run, step_bind_run. cbv zeta.
    match goal with |- context [r ← reply ?w; ok ← is_success r; Val ok] =>
      destruct (r ← reply w; ok ← is_success r; Val ok)
        as [ [ | ] | e ]; [ | | stops ]
    end.
    + rewrite bind_run, step_run_run.
      match goal with |- context [mbind ?k (reply ?w)] =>
        destruct (mbind k (reply w)) as [ x | e ]; [ | stops ] end.
      rewrite bind_run, step_execution_get_run.
      match goal with |- context [mbind ?k (reply ?w)] =>
        destruct (mbind k (reply w)) as [ [] | e ]; [ | stops ] end.
      rewrite step_execution_list_run.
      match goal with |- context [mbind ?k (reply ?w)] =>
        destruct (mbind k (reply w)) as [ [] | e ]; stops end.
    + match goal with |- context [mbind ?k (reply ?w)] =>
        destruct (mbind k (reply w)) as [ [] | e ]; [ | stops ] end.
      rewrite bind_run, step_run_run.
      match goal with |- context [mbind ?k (reply ?w)] =>
        destruct (mbind k (reply w)) as [ x | e ]; [ | stops ] end.
      rewrite bind_run, step_execution_get_run.
      match goal with |- context [mbind ?k (reply ?w)] =>
        destruct (mbind k (reply w)) as [ [] | e ]; [ | stops ] end.
      rewrite step_execution_list_run.
      match goal with |- context [mbind ?k (reply ?w)] =>
        destruct (mbind k (reply w)) as [ [] | e ]; stops end.
  - match goal with |- context [mbind ?k (reply ?w)] =>
      destruct (mbind k (reply w)) as [ t | e ]; [ | stops ] end.
    unfold E2E.after_auth.
    rewrite bind_run, step_bind_run. cbv zeta.
    match goal with |- context [r ← reply ?w; ok ← is_success r; Val ok] =>
      destruct (r ← reply w; ok ← is_success r; Val ok)
        as [ [ | ] | e ]; [ | | stops ]
    end.
    + rewrite bind_run, step_run_run.
      match goal with |- context [mbind ?k (reply ?w)] =>
        destruct (mbind k (reply w)) as [ x | e ]; [ | stops ] end.
      rewrite bind_run, step_execution_get_run.
      match goal with |- context [mbind ?k (reply ?w)] =>
        destruct (mbind k (reply w)) as [ [] | e ]; [ | stops ] end.
      rewrite step_execution_list_run.
      match goal with |- context [mbind ?k (reply ?w)] =>
        destruct (mbind k (reply w)) as [ [] | e ]; stops end.
    + match goal with |- context [mbind ?k (reply ?w)] =>
        destruct (mbind k (reply w)) as [ [] | e ]; [ | stops ] end.
      rewrite bind_run, step_run_run.
      match goal with |- context [mbind ?k (reply ?w)] =>
        destruct (mbind k (reply w)) as [ x | e ]; [ | stops ] end.
      rewrite bind_run, step_execution_get_run.
      match goal with |- context [mbind ?k (reply ?w)] =>
        destruct (mbind k (reply w)) as [ [] | e ]; [ | stops ] end.
      rewrite step_execution_list_run.
      match goal with |- context [mbind ?k (reply ?w)] =>
        destruct (mbind k (reply w)) as [ [] | e ]; stops end.
Qed.
End CallOrder.

Lemma reply_answer (w : world) : reply w = answer (next_line w).
Proof. reflexivity. Qed.

Lemma child_out_exchange (req : json) (w : world) :
  child_out (exchange req w) = snd (readline (child_out w)).
Proof. reflexivity. Qed.

Ltac answered H :=
  rewrite reply_answer; unfold next_line; rewrite ?child_out_exchange;
  rewrite H; cbn [mbind result_bind].

Section Undisturbed.
Context {F : FloatSem}.

(** X2.  A run in which every call succeeds.  When the child answers the
    nine requests with successes that carry the fields asked of them, the
    workflow returns after exactly nine exchanges, and the handles it was
    given are passed on as they came: [action_trn] of the registration to
    [action.update], [binding.create] and [run], [connection_trn] of
    [auth.pat] to [binding.create], [execution_trn] of [run] to
    [execution.get]. *)
Theorem undisturbed_run (w : world) (r1 r2 r3 r4 r5 r6 r7 r8 r9 a t x : json) :
  map answer (answers 9 (child_out w)) =
    map Val [r1; r2; r3; r4; r5; r6; r7; r8; r9] ->
  is_success r1 = Val true ->
  is_success r3 = Val true ->
  E2E.result_field "action_trn" r3 = Val a ->
  E2E.update_accepted r4 = Val true ->
  is_success r5 = Val true ->
  E2E.result_field "connection_trn" r5 = Val t ->
  is_success r6 = Val true ->
  is_success r7 = Val true ->
  E2E.result_field "execution_trn" r7 = Val x ->
  E2E.has_result_field "execution" r8 = Val true ->
  E2E.has_result_field "executions" r9 = Val true ->
  fst (E2E.workflow w) = Val tt /\
  trace (snd (E2E.workflow w)) =
    trace w ++
    dialogue
      [request0 "health" 1;
       request "action.delete" E2E.delete_params 1;
       request "action.register" E2E.register_params 1;
       request "action.update" (E2E.update_params a) 1;
       request "auth.pat" E2E.auth_params 1;
       request "binding.create" (E2E.bind_params a t) 1;
       request "run" (E2E.run_params a) 1;
       request "execution.get" (E2E.execution_get_params x) 1;
       request "execution.list" E2E.execution_list_params 1]
      (answers 9 (child_out w)).
Proof.
  intros Hanswers Hs1 Hs3 Ha Hu4 Hs5 Ht Hs6 Hs7 Hx Hg8 Hl9.
  cbn [answers map] in Hanswers.
  injection Hanswers as H1 H2 H3 H4 H5 H6 H7 H8 H9.
  assert (Hrun : E2E.workflow w =
    (Val tt,
     exchange (request "execution.list" E2E.execution_list_params 1)
    (exchange (request "execution.get" (E2E.execution_get_params x) 1)
    (exchange (request "run" (E2E.run_params a) 1)
    (exchange (request "binding.create" (E2E.bind_params a t) 1)
    (exchange (request "auth.pat" E2E.auth_params 1)
    (exchange (request "action.update" (E2E.update_params a) 1)
    (exchange (request "action.register" E2E.register_params 1)
    (exchange (request "action.delete" E2E.delete_params 1)
    (exchange (request0 "health" 1) w)))))))))).
  { unfold E2E.workflow.
    rewrite bind_run, step_health_run. answered H1.
    rewrite Hs1. cbn [py_assert mbind result_bind].
    rewrite bind_run, step_clean_run. answered H2.
    rewrite bind_run, step_register_run. answered H3.
    unfold E2E.register_handle. rewrite Hs3. cbn [mbind result_bind].
    rewrite Ha.
    unfold E2E.after_register.
    rewrite bind_run, step_update_run. answered H4.
    rewrite Hu4. cbn [py_assert mbind result_bind].
    rewrite bind_run, step_auth_run. cbv zeta. answered H5.
    rewrite Hs5. cbn [mbind result_bind]. rewrite Ht.
    unfold E2E.after_auth.
    rewrite bind_run, step_bind_run. cbv zeta. answered H6.
    rewrite Hs6. cbn [mbind result_bind].
    rewrite bind_run, step_run_run. answered H7.
    rewrite Hs7. cbn [py_assert mbind result_bind]. rewrite Hx.
    rewrite bind_run, step_execution_get_run. answered H8.
    rewrite Hg8. cbn [py_assert mbind result_bind].
    rewrite step_execution_list_run. answered H9.
    rewrite Hl9. reflexivity. }
  rewrite Hrun. split; [ reflexivity | ].
  cbn [snd]. rewrite !trace_exchange. unfold next_line.
  rewrite !child_out_exchange, <- !app_assoc. reflexivity.
Qed.
End Undisturbed.

Lemma undisturbed_run_witness :
  fst (@E2E.workflow no_floats happy_world) = Val tt.
Proof.
  refine (proj1 (@undisturbed_run no_floats happy_world
    (JObj [(s2u "jsonrpc", JStr "2.0"); (s2u "id", JInt 1);
           (s2u "result", JObj [(s2u "status", JStr "ok")])])
    (JObj [(s2u "jsonrpc", JStr "2.0"); (s2u "id", JInt 1);
           (s2u "error", JObj [(s2u "code", JInt (-32000));
                               (s2u "message", JStr "not found")])])
    (JObj [(s2u "jsonrpc", JStr "2.0"); (s2u "id", JInt 1);
           (s2u "result",
            JObj [(s2u "action_trn",
                   JStr "trn:openact:test:action/github/get-user@v1")])])
    (JObj [(s2u "jsonrpc", JStr "2.0"); (s2u "id", JInt 1);
           (s2u "result", JObj [])])
    (JObj [(s2u "jsonrpc", JStr "2.0"); (s2u "id", JInt 1);
           (s2u "result",
            JObj [(s2u "connection_trn",
                   JStr "trn:openact:test:connection/github/user1")])])
    (JObj [(s2u "jsonrpc", JStr "2.0"); (s2u "id", JInt 1);
           (s2u "result", JObj [])])
    (JObj [(s2u "jsonrpc", JStr "2.0"); (s2u "id", JInt 1);
           (s2u "result",
            JObj [(s2u "execution_trn",
                   JStr "trn:openact:test:execution/1")])])
    (JObj [(s2u "jsonrpc", JStr "2.0"); (s2u "id", JInt 1);
           (s2u "result", JObj [(s2u "execution", JObj [])])])
    (JObj [(s2u "jsonrpc", JStr "2.0"); (s2u "id", JInt 1);
           (s2u "result", JObj [(s2u "executions", JArr [])])])
    (JStr "trn:openact:test:action/github/get-user@v1")
    (JStr "trn:openact:test:connection/github/user1")
    (JStr "trn:openact:test:execution/1")
    _ _ _ _ _ _ _ _ _ _ _ _)); vm_compute; reflexivity.
Defined.

(** ** Requests and reads in lockstep *)

Lemma lockstep_app (a b : list event) :
  lockstep a -> lockstep b -> lockstep (a ++ b).
Proof.
  induction 1 as [ | req line evs Hreq _ IH ]; intros Hb; [ exact Hb | ].
  cbn [app]. constructor; [ exact Hreq | exact (IH Hb) ].
Qed.

Lemma in_lockstep_ret {A} (a : A) : in_lockstep (mret a : M A).
Proof.
  intros w. exists []. cbn. rewrite app_nil_r. split; [ reflexivity | constructor ].
Qed.

Lemma in_lockstep_lift {A} (r : result A) : in_lockstep (lift r).
Proof.
  intros w. exists []. cbn. rewrite app_nil_r. split; [ reflexivity | constructor ].
Qed.

Lemma in_lockstep_bind {A B} (m : M A) (k : A -> M B) :
  in_lockstep m -> (forall a, in_lockstep (k a)) -> in_lockstep (m ≫= k).
Proof.
  intros Hm Hk w. rewrite bind_run.
  destruct (Hm w) as (evs1 & Ht1 & Hl1).
  destruct (m w) as [[a | e] w1]; cbn [snd] in *.
  - destruct (Hk a w1) as (evs2 & Ht2 & Hl2).
    exists (evs1 ++ evs2). rewrite Ht2, Ht1, app_assoc.
    split; [ reflexivity | apply lockstep_app; assumption ].
  - exists evs1. auto.
Qed.

Lemma in_lockstep_if {A} (b : bool) (x y : M A) :
  in_lockstep x -> in_lockstep y -> in_lockstep (if b then x else y).
Proof. destruct b; auto. Qed.

Section Lockstep.
Context {F : FloatSem}.

Lemma in_lockstep_e2e_send (method : str) (params : json) :
  in_lockstep (E2E.send_rpc_request method params 1).
Proof.
  intros w. rewrite e2e_send. cbn [snd]. eexists.
  split; [ apply trace_exchange | ].
  constructor; [ | constructor ].
  exists method. destruct params; cbn [e2e_request]; eauto.
Qed.

Lemma in_lockstep_basic_send (method : str) (params : json) :
  in_lockstep (Basic.send_rpc_request method params 1).
Proof.
  intros w. rewrite basic_send. cbn [snd]. eexists.
  split; [ apply trace_exchange | ].
  constructor; [ | constructor ].
  exists method. unfold basic_request. destruct (truthy params); eauto.
Qed.

Ltac lockstep_steps :=
  repeat first
    [ apply in_lockstep_e2e_send
    | apply in_lockstep_basic_send
    | apply in_lockstep_ret
    | apply in_lockstep_lift
    | apply in_lockstep_if
    | apply in_lockstep_bind; [ | intros ? ] ].

Lemma in_lockstep_workflow : in_lockstep E2E.workflow.
Proof.
  unfold E2E.workflow, E2E.step_health, E2E.step_clean, E2E.step_register,
    E2E.after_register, E2E.step_update, E2E.step_auth, E2E.after_auth,
    E2E.step_bind, E2E.step_run, E2E.step_execution_get,
    E2E.step_execution_list.
  lockstep_steps.
Qed.

Lemma in_lockstep_checks : in_lockstep Basic.checks.
Proof.
  unfold Basic.checks, Basic.check_result, Basic.check_error,
    Basic.check_register.
  lockstep_steps.
Qed.

(** X3.  Both scripts talk to the child in lockstep: whatever it answers,
    what a run of the workflow or of the smoke test's checks does is a sequence
    of requests each followed by one read of a line, and every request has
    the members [jsonrpc] (2.0), [method], [id] and at most [params], with
    the id 1: no request is sent before the answer to the one before was
    read, and no two requests can be told apart by their id. *)
Theorem requests_in_lockstep (w : world) :
  (exists evs, trace (snd (E2E.workflow w)) = trace w ++ evs /\
               lockstep evs) /\
  (exists evs, trace (snd (Basic.checks w)) = trace w ++ evs /\
               lockstep evs).
Proof. split; [ apply in_lockstep_workflow | apply in_lockstep_checks ]. Qed.
End Lockstep.

(** ** The smoke test as a whole *)

Lemma raises_exceptions_only_ret {A} (a : A) :
  raises_exceptions_only (mret a : M A).
Proof. intros w e w' H. discriminate H. Qed.

Lemma raises_exceptions_only_lift {A} (r : result A) :
  (forall e, r = Exc e -> is_Exception e = true) ->
  raises_exceptions_only (lift r).
Proof. intros Hr w e w' H. injection H as H _. exact (Hr e H). Qed.

Lemma raises_exceptions_only_bind {A B} (m : M A) (k : A -> M B) :
  raises_exceptions_only m -> (forall a, raises_exceptions_only (k a)) ->
  raises_exceptions_only (m ≫= k).
Proof.
  intros Hm Hk w e w'. rewrite bind_run.
  destruct (m w) as [[a | e1] w1] eqn:Hmw.
  - apply Hk.
  - intros H. injection H as <- _. exact (Hm _ _ _ Hmw).
Qed.

Lemma raises_exceptions_only_if {A} (b : bool) (x y : M A) :
  raises_exceptions_only x -> raises_exceptions_only y ->
  raises_exceptions_only (if b then x else y).
Proof. destruct b; auto. Qed.

Section SmokeTest.
Context {F : FloatSem}.

Lemma py_in_raises (k : str) (v : json) (e : exn) :
  py_in k v = Exc e -> is_Exception e = true.
Proof. destruct v; intros H; inversion H; reflexivity. Qed.

Lemma getitem_raises (v : json) (k : str) (e : exn) :
  getitem v k = Exc e -> is_Exception e = true.
Proof.
  destruct v; cbn [getitem]; try (intros H; inversion H; reflexivity).
  destruct (dict_get kvs k); intros H; inversion H; reflexivity.
Qed.

Lemma raises_exceptions_only_basic_send
    (method : str) (params : json) (id : Z) :
  raises_exceptions_only (Basic.send_rpc_request method params id).
Proof.
  intros w e w'. rewrite basic_send. unfold reply.
  destruct (bytes_decode (next_line w)); intros H; inversion H; reflexivity.
Qed.

Lemma raises_exceptions_only_checks : raises_exceptions_only Basic.checks.
Proof.
  unfold Basic.checks, Basic.check_result, Basic.check_error,
    Basic.check_register.
  repeat first
    [ apply raises_exceptions_only_basic_send
    | apply raises_exceptions_only_ret
    | apply raises_exceptions_only_if
    | apply raises_exceptions_only_bind; [ | intros ? ]
    | apply raises_exceptions_only_lift; intros e ].
  - unfold is_success. destruct (truthy a); [ apply py_in_raises | discriminate ].
  - unfold is_success. destruct (truthy a0); [ apply py_in_raises | discriminate ].
  - unfold is_success. destruct (truthy a1); [ apply py_in_raises | discriminate ].
  - destruct (truthy a2); [ apply py_in_raises | discriminate ].
  - apply py_in_raises.
  - apply py_in_raises.
  - destruct (getitem a3 "error") as [ err | e' ] eqn:Herr;
      cbn [mbind result_bind].
    + apply getitem_raises.
    + intros H. injection H as <-. exact (getitem_raises _ _ _ Herr).
Qed.

(** X4.  The smoke test cannot fail.  Whatever the host and the child do,
    [test_stdio_rpc] ends without an exception: a child that cannot be
    started, an answer that is no UTF-8 or no JSON, a check that does not pass
    or that raises, all end in the [except Exception] clause or in a [print].
    When the child cannot be started nothing at all is done; when it can, it
    is terminated and waited for. *)
Theorem smoke_test_never_fails (w : world) :
  fst (Basic.test_stdio_rpc w) = Val tt /\
  (spawn_ok w = false -> snd (Basic.test_stdio_rpc w) = w) /\
  (spawn_ok w = true ->
   exists evs,
     trace (snd (Basic.test_stdio_rpc w)) =
       trace w ++
       [Popen ["cargo"; "run"; "-q"; "-p"; "openact-stdio"] Basic.env] ++
       evs ++ [Terminate; Wait None] /\
     lockstep evs).
Proof.
  destruct (spawn_ok w) eqn:Hspawn.
  - set (w0 := log (Popen ["cargo"; "run"; "-q"; "-p"; "openact-stdio"]
                          Basic.env) w).
    assert (Hrun : Basic.test_stdio_rpc w =
                   try_finally (try_except Basic.checks (mret tt))
                     (terminate ;; wait None) w0).
    { unfold Basic.test_stdio_rpc. rewrite bind_run.
      unfold try_except at 1. rewrite bind_run. unfold popen.
      rewrite Hspawn. reflexivity. }
    rewrite Hrun. unfold try_finally, try_except.
    destruct (in_lockstep_checks w0) as (evs & Htrace & Hlock).
    pose proof (raises_exceptions_only_checks w0) as Hexc.
    assert (Hend : forall (r : result unit) (w1 : world),
              trace w1 = trace w0 ++ evs ->
              trace (snd ((terminate ;; wait None) w1)) =
              trace w ++
              [Popen ["cargo"; "run"; "-q"; "-p"; "openact-stdio"]
                 Basic.env] ++ evs ++ [Terminate; Wait None]).
    { intros _ w1 Hw1. rewrite bind_run. unfold terminate, emit, wait.
      cbn [snd]. rewrite !trace_log, Hw1. unfold w0.
      rewrite trace_log, <- !app_assoc. reflexivity. }
    destruct (Basic.checks w0) as [[[] | e] w1]; cbn [snd] in Htrace.
    + specialize (Hend (Val tt) w1 Htrace).
      destruct ((terminate ;; wait None) w1) as [[[] | e] w2] eqn:Hfin;
        [ | rewrite bind_run in Hfin; discriminate Hfin ].
      split; [ reflexivity | ]. split; [ discriminate | ].
      intros _. exists evs. split; [ exact Hend | exact Hlock ].
    + rewrite (Hexc e w1 eq_refl). unfold mret, M_ret.
      specialize (Hend (Val tt) w1 Htrace).
      destruct ((terminate ;; wait None) w1) as [[[] | e'] w2] eqn:Hfin;
        [ | rewrite bind_run in Hfin; discriminate Hfin ].
      split; [ reflexivity | ]. split; [ discriminate | ].
      intros _. exists evs. split; [ exact Hend | exact Hlock ].
  - assert (Hrun : Basic.test_stdio_rpc w = (Val tt, w)).
    { unfold Basic.test_stdio_rpc. rewrite bind_run.
      unfold try_except at 1. rewrite bind_run. unfold popen.
      rewrite Hspawn. reflexivity. }
    rewrite Hrun. split; [ reflexivity | ].
    split; [ reflexivity | discriminate ].
Qed.
End SmokeTest.

(** ** Step 5: the binding and its fallback *)

Section Binding.
Context {F : FloatSem}.

(** X5.  When [binding.create] is not a success, step 5 asks for the binding
    with [binding.get], a request that names the tenant and the action and
    not the auth connection, and passes exactly when that call succeeds;
    when it does not, the workflow ends there, and [run] is never called. *)
Theorem binding_fallback (w : world) (a t r : json) :
  reply w = Val r ->
  is_success r = Val false ->
  let w1 := exchange (request "binding.create" (E2E.bind_params a t) 1) w in
  let w2 := exchange (request "binding.get" (E2E.binding_get_params a) 1) w1 in
  snd (E2E.step_bind a t w) = w2 /\
  getitem (E2E.binding_get_params a) "auth_trn" = Exc KeyError /\
  (fst (E2E.step_bind a t w) = Val tt <->
   exists rg, reply w1 = Val rg /\ is_success rg = Val true) /\
  (fst (E2E.step_bind a t w) <> Val tt ->
   exists e,
     E2E.after_auth a t w = (Exc e, w2) /\
     calls (trace w2) =
       calls (trace w) ++ [JStr "binding.create"; JStr "binding.get"]).
Proof.
  intros Hr Hfail w1 w2.
  assert (Hstep : E2E.step_bind a t w =
                  (rg ← reply w1; py_assert (is_success rg), w2)).
  { rewrite step_bind_run. cbv zeta. rewrite Hr. cbn [mbind result_bind].
    rewrite Hfail. reflexivity. }
  rewrite Hstep. cbn [fst snd].
  split; [ reflexivity | ]. split; [ reflexivity | ]. split.
  - destruct (reply w1) as [rg | e]; cbn [mbind result_bind].
    + unfold py_assert. cbn [mbind result_bind].
      destruct (is_success rg) as [ [ | ] | e ] eqn:Hok;
        cbn [mbind result_bind].
      * split; [ eauto | reflexivity ].
      * split; [ discriminate | ]. intros (rg' & Hrg & Hs).
        injection Hrg as <-. congruence.
      * split; [ discriminate | ]. intros (rg' & Hrg & Hs).
        injection Hrg as <-. congruence.
    + split; [ discriminate | ]. intros (rg' & Hrg & _). discriminate.
  - destruct (rg ← reply w1; py_assert (is_success rg)) as [ [] | e ];
      intros Hno; [ congruence | ].
    exists e. split.
    + unfold E2E.after_auth. rewrite bind_run, Hstep. reflexivity.
    + unfold w2, w1. rewrite !calls_exchange, <- app_assoc. reflexivity.
Qed.
End Binding.

(** The child refuses [binding.create] and then finds the binding. *)
Lemma binding_fallback_witness :
  fst (@E2E.step_bind no_floats (JStr "a") (JStr "t")
         (world_of (lines
            ["{'jsonrpc':'2.0','id':1,'error':{'code':-32000,'message':'exists'}}";
             "{'jsonrpc':'2.0','id':1,'result':{}}"]))) = Val tt.
Proof.
  refine (proj2 (proj1 (proj2 (proj2
    (@binding_fallback no_floats _ (JStr "a") (JStr "t")
       (JObj [(s2u "jsonrpc", JStr "2.0"); (s2u "id", JInt 1);
              (s2u "error", JObj [(s2u "code", JInt (-32000));
                                  (s2u "message", JStr "exists")])])
       _ _)))) _).
  - vm_compute. reflexivity.
  - vm_compute. reflexivity.
  - eexists. split; vm_compute; reflexivity.
Defined.

(** ** Steps 6 to 8: the run and the executions *)

Section Executions.
Context {F : FloatSem}.

Lemma is_success_object (kvs : list (str * json)) :
  is_success (JObj kvs) = Val (has_key "result" kvs).
Proof. unfold is_success. destruct kvs; reflexivity. Qed.

(** X6.  What steps 6 to 8 ask of an answer that is a JSON object.  [run]
    must have a [result] that is an object with an [execution_trn], which is
    handed on whatever it is; [execution.get] and [execution.list] pass
    exactly when the [result] object has a member [execution], respectively
    [executions].  An answer without [result] fails the assertion; a
    [result] that is [null] raises [TypeError], and one without
    [execution_trn] raises [KeyError], in place of the assertion. *)
Theorem execution_steps (w : world) (a x : json) (kvs : list (str * json)) :
  reply w = Val (JObj kvs) ->
  (dict_get kvs "result" = None ->
   fst (E2E.step_run a w) = Exc AssertionError /\
   fst (E2E.step_execution_get x w) = Exc AssertionError /\
   fst (E2E.step_execution_list w) = Exc AssertionError) /\
  (dict_get kvs "result" = Some JNull ->
   fst (E2E.step_run a w) = Exc TypeError /\
   fst (E2E.step_execution_get x w) = Exc TypeError /\
   fst (E2E.step_execution_list w) = Exc TypeError) /\
  (forall res,
     dict_get kvs "result" = Some (JObj res) ->
     fst (E2E.step_run a w) =
       match dict_get res "execution_trn" with
       | Some v => Val v
       | None => Exc KeyError
       end /\
     fst (E2E.step_execution_get x w) =
       (if has_key "execution" res then Val tt else Exc AssertionError) /\
     fst (E2E.step_execution_list w) =
       (if has_key "executions" res then Val tt else Exc AssertionError)).
Proof.
  intros Hr.
  rewrite step_run_run, step_execution_get_run, step_execution_list_run, Hr.
  cbn [fst mbind result_bind].
  unfold E2E.has_result_field, E2E.result_field, py_assert.
  rewrite is_success_object. unfold has_key, getitem.
  split; [ | split ].
  - intros ->. cbn. auto.
  - intros ->. cbn. auto.
  - intros res ->. cbn [mbind result_bind py_in].
    split; [ destruct (dict_get res "execution_trn"); reflexivity | ].
    unfold has_key.
    split; [ destruct (dict_get res "execution"); reflexivity
           | destruct (dict_get res "executions"); reflexivity ].
Qed.
End Executions.

Lemma execution_steps_witness :
  fst (@E2E.step_run no_floats (JStr "a")
         (world_of (lines
            ["{'jsonrpc':'2.0','id':1,'result':{'execution_trn':7}}"]))) =
  Val (JInt 7).
Proof.
  refine (proj1 (proj2 (proj2
    (@execution_steps no_floats _ (JStr "a") JNull
       [(s2u "jsonrpc", JStr "2.0"); (s2u "id", JInt 1);
        (s2u "result", JObj [(s2u "execution_trn", JInt 7)])] _))
    [(s2u "execution_trn", JInt 7)] _)).
  - vm_compute. reflexivity.
  - vm_compute. reflexivity.
Defined.

(** ** Before the child is there, and a child that says nothing *)

Section Startup.
Context {F : FloatSem}.

Lemma main_started (w : world) :
  spawn_ok w = true ->
  cargo_on_path w = true \/ binary_exists w = true ->
  E2E.main w =
  try_finally E2E.workflow E2E.stop
    (log (Popen (chosen_command w) (E2E.harness_env ∪ environ w)) w).
Proof.
  intros Hspawn Hcmd.
  unfold E2E.main, E2E.choose_command, chosen_command in *.
  rewrite bind_run, ask_run. cbv beta iota.
  rewrite bind_run, bind_run, ask_run. cbv beta iota.
  destruct (cargo_on_path w) eqn:Hc.
  - unfold mret, M_ret. cbv beta iota.
    rewrite bind_run. unfold popen. rewrite Hspawn. reflexivity.
  - destruct Hcmd as [Hcmd | Hb]; [ discriminate | ].
    rewrite bind_run, ask_run. cbv beta iota. rewrite Hb.
    rewrite bind_run, ask_run. unfold mret, M_ret. cbv beta iota.
    rewrite bind_run. unfold popen. rewrite Hspawn. reflexivity.
Qed.

(** X7.  [main] before the [try].  With no cargo on the path and no binary
    beside the script, [main] exits with status 1; when the command it chose
    cannot be started, the exception of [Popen] leaves [main].  In both cases
    nothing was started, so nothing is sent and nothing is stopped.  When the
    child starts, the command is cargo's whenever cargo is on the path,
    binary or not, and the binary otherwise. *)
Theorem main_before_the_child (w : world) :
  (cargo_on_path w = false -> binary_exists w = false ->
   E2E.main w = (Exc (SystemExit 1), w)) /\
  (cargo_on_path w = true \/ binary_exists w = true ->
   spawn_ok w = false ->
   E2E.main w = (Exc OSError, w)) /\
  (cargo_on_path w = true \/ binary_exists w = true ->
   spawn_ok w = true ->
   exists rest,
     trace (snd (E2E.main w)) =
       trace w ++
       Popen (if cargo_on_path w
              then ["cargo"; "run"; "-q"; "-p"; "openact-stdio"]
              else [binary_path w])
             (E2E.harness_env ∪ environ w) :: rest).
Proof.
  split; [ | split ].
  - intros Hc Hb. unfold E2E.main, E2E.choose_command.
    rewrite bind_run, ask_run. cbv beta iota.
    rewrite bind_run, bind_run, ask_run. cbv beta iota. rewrite Hc.
    rewrite bind_run, ask_run. cbv beta iota. rewrite Hb. reflexivity.
  - intros Hcmd Hspawn. unfold E2E.main, E2E.choose_command.
    rewrite bind_run, ask_run. cbv beta iota.
    rewrite bind_run, bind_run, ask_run. cbv beta iota.
    destruct (cargo_on_path w) eqn:Hc.
    + unfold mret, M_ret. cbv beta iota.
      rewrite bind_run. unfold popen. rewrite Hspawn. reflexivity.
    + destruct Hcmd as [Hcmd | Hb]; [ discriminate | ].
      rewrite bind_run, ask_run. cbv beta iota. rewrite Hb.
      rewrite bind_run, ask_run. unfold mret, M_ret. cbv beta iota.
      rewrite bind_run. unfold popen. rewrite Hspawn. reflexivity.
  - intros Hcmd Hspawn. rewrite (main_started w Hspawn Hcmd).
    unfold try_finally.
    destruct (exchanges_only_workflow
                (log (Popen (chosen_command w)
                            (E2E.harness_env ∪ environ w)) w))
      as (evs & Htrace & _ & _).
    destruct (E2E.workflow _) as [r w1]. cbn [snd] in Htrace.
    rewrite stop_run.
    exists (evs ++ [Terminate; Wait (Some 5)] ++
            (if exits_in_time w1 then [] else [Kill])).
    fold (chosen_command w).
    destruct (exits_in_time w1); cbn [snd]; rewrite !trace_log, Htrace,
      trace_log, <- !app_assoc; reflexivity.
Qed.

End Startup.


(** ** The two [send_rpc_request] *)

Section TwoSenders.
Context {F : FloatSem}.


End TwoSenders.


(** ** A request is one line *)

Lemma no_control_app (a b : str) :
  no_control a -> no_control b -> no_control (a ++ b).
Proof. unfold no_control. intros Ha Hb. apply Forall_app. split; assumption. Qed.

Lemma no_control_s2u (s : string) :
  forallb (fun c => 32 <=? c) (s2u s) = true -> no_control (s2u s).
Proof.
  unfold no_control. intros H. apply Forall_forall. intros c Hc.
  rewrite forallb_forall in H. apply N.leb_le. apply H.
  apply list_elem_of_In. exact Hc.
Qed.

Lemma uint_chars_no_control (u : Decimal.uint) : no_control (uint_chars u).
Proof.
  unfold no_control.
  induction u; cbn [uint_chars]; constructor; try assumption; lia.
Qed.

Lemma int_repr_no_control (z : Z) : no_control (int_repr z).
Proof.
  destruct z; unfold int_repr; try apply uint_chars_no_control.
  constructor; [ lia | apply uint_chars_no_control ].
Qed.

Lemma hexdigit_no_control (d : N) : 32 <= hexdigit d.
Proof. unfold hexdigit. destruct (d <? 10); lia. Qed.

Lemma uescape_no_control (n : N) : no_control (uescape n).
Proof.
  unfold no_control, uescape.
  repeat constructor; try lia; apply hexdigit_no_control.
Qed.

Lemma escape_char_no_control (c : N) : no_control (escape_char c).
Proof.
  unfold escape_char.
  repeat match goal with
         | |- context [if ?b then _ else _] => destruct b eqn:?
         end;
    try (unfold no_control; repeat constructor; lia);
    try apply uescape_no_control.
  - match goal with
    | H : (32 <=? c) && (c <=? 126) = true |- _ =>
        apply andb_true_iff in H; destruct H as [H _]; apply N.leb_le in H
    end.
    unfold no_control. repeat constructor. lia.
  - apply no_control_app; apply uescape_no_control.
Qed.

Lemma encode_basestring_ascii_no_control (s : str) :
  no_control (encode_basestring_ascii s).
Proof.
  unfold encode_basestring_ascii.
  change (34 :: flat_map escape_char s ++ [34])
    with ([34] ++ flat_map escape_char s ++ [34]).
  apply no_control_app; [ unfold no_control; repeat constructor; lia | ].
  apply no_control_app; [ | unfold no_control; repeat constructor; lia ].
  induction s as [ | c s IH ]; cbn [flat_map].
  - constructor.
  - apply no_control_app; [ apply escape_char_no_control | exact IH ].
Qed.

Lemma join_no_control (sep : str) (parts : list str) :
  no_control sep -> Forall no_control parts -> no_control (join sep parts).
Proof.
  intros Hsep Hparts. induction Hparts as [ | p ps Hp Hps IH ]; cbn [join].
  - constructor.
  - destruct ps as [ | q ps ]; [ exact Hp | ].
    apply no_control_app; [ exact Hp | ].
    apply no_control_app; [ exact Hsep | exact IH ].
Qed.

Lemma readline_through (body rest : bytes) :
  ~ In x0a body -> readline (body ++ x0a :: rest) = (body ++ [x0a], rest).
Proof.
  induction body as [ | b body IH ]; intros Hbody.
  - reflexivity.
  - cbn [app readline].
    destruct (Byte.eqb b x0a) eqn:Hb.
    + exfalso. apply Hbody. left. apply Byte.byte_dec_bl. exact Hb.
    + rewrite IH; [ reflexivity | ].
      intros Hin. apply Hbody. right. exact Hin.
Qed.

Section Framing.
Context {F : FloatSem}.
Hypothesis float_repr_no_control : forall lit, no_control (float_repr lit).

Lemma dumps_no_control (v : json) : no_control (dumps v).
Proof.
  induction v as [ | b | z | lit | s | xs IH | kvs IH ] using json_ind'.
  - apply no_control_s2u. reflexivity.
  - destruct b; apply no_control_s2u; reflexivity.
  - apply int_repr_no_control.
  - apply float_repr_no_control.
  - apply encode_basestring_ascii_no_control.
  - rewrite dumps_JArr.
    apply (no_control_app [91]); [ unfold no_control; repeat constructor; lia | ].
    apply no_control_app; [ | unfold no_control; repeat constructor; lia ].
    apply join_no_control; [ apply no_control_s2u; reflexivity | ].
    induction IH as [ | x xs Hx Hxs IHxs ]; cbn [map]; constructor; assumption.
  - rewrite dumps_JObj.
    apply (no_control_app [123]); [ unfold no_control; repeat constructor; lia | ].
    apply no_control_app; [ | unfold no_control; repeat constructor; lia ].
    apply join_no_control; [ apply no_control_s2u; reflexivity | ].
    induction IH as [ | [k x] kvs Hx Hkvs IHkvs ]; cbn [map fst snd];
      constructor; [ | assumption ].
    apply no_control_app; [ apply encode_basestring_ascii_no_control | ].
    apply no_control_app; [ apply no_control_s2u; reflexivity | exact Hx ].
Qed.

(** X10.  Every request is written as exactly one line.  Provided floats
    print without control characters (as Python's do), the bytes written for
    a request are a body that holds neither a line feed nor a carriage return,
    followed by one line feed: whatever the method and the parameters are,
    line feeds included, a reader that takes its input line by line gets the
    whole request and nothing of the next. *)
Theorem request_is_one_line (req : json) :
  exists body : bytes,
    wire req = Some (body ++ [x0a]) /\
    ~ In x0a body /\ ~ In x0d body /\
    forall rest, readline ((body ++ [x0a]) ++ rest) = (body ++ [x0a], rest).
Proof.
  exists (map byte_of_N (dumps req)).
  assert (Hbody : forall b, In b (map byte_of_N (dumps req)) ->
                            32 <= Byte.to_N b).
  { intros b Hb. apply in_map_iff in Hb. destruct Hb as (c & <- & Hc).
    pose proof (dumps_no_control req) as Hlow.
    pose proof (dumps_ascii req) as Hhigh.
    unfold no_control, ascii_text in *. rewrite Forall_forall in Hlow, Hhigh.
    apply list_elem_of_In in Hc.
    specialize (Hlow c Hc). specialize (Hhigh c Hc). cbv beta in Hlow, Hhigh.
    rewrite to_N_byte_of_N by lia. exact Hlow. }
  assert (Hlf : ~ In x0a (map byte_of_N (dumps req))).
  { intros Hin. apply Hbody in Hin. vm_compute in Hin. apply Hin. reflexivity. }
  split; [ | split; [ exact Hlf | split ] ].
  - rewrite wire_eq, map_app. reflexivity.
  - intros Hin. apply Hbody in Hin. vm_compute in Hin. apply Hin. reflexivity.
  - intros rest. rewrite <- app_assoc. apply readline_through. exact Hlf.
Qed.
End Framing.

Lemma request_is_one_line_witness :
  exists body : bytes,
    @wire no_floats (request "action.delete" E2E.delete_params 1) =
      Some (body ++ [x0a]) /\
    ~ In x0a body.
Proof.
  destruct (@request_is_one_line no_floats (fun _ => List.Forall_nil _)
              (request "action.delete" E2E.delete_params 1))
    as (body & Hwire & Hlf & _).
  exists body. split; assumption.
Defined.

(** ** The five checks of the smoke test *)

Section FiveChecks.
Context {F : FloatSem}.





End FiveChecks.


(** ** Blanks around an answer *)

Lemma lstrip_blank_app (pre s : str) : blank pre -> lstrip (pre ++ s) = lstrip s.
Proof.
  induction 1 as [ | c pre Hc _ IH ]; [ reflexivity | ].
  cbn [app lstrip]. rewrite Hc. exact IH.
Qed.

Lemma lstrip_blank (s : str) : blank s -> lstrip s = [].
Proof.
  intros Hs. rewrite <- (app_nil_r s). rewrite lstrip_blank_app by exact Hs.
  reflexivity.
Qed.

Lemma blank_rev (s : str) : blank s -> blank (rev s).
Proof. unfold blank. intros Hs. apply Forall_rev. exact Hs. Qed.

Lemma rstrip_app_blank (s post : str) :
  blank post -> rstrip (s ++ post) = rstrip s.
Proof.
  intros Hpost. unfold rstrip. rewrite rev_app_distr.
  rewrite lstrip_blank_app by (apply blank_rev; exact Hpost). reflexivity.
Qed.

Lemma lstrip_app (s post : str) :
  lstrip s <> [] -> lstrip (s ++ post) = lstrip s ++ post.
Proof.
  induction s as [ | c s IH ]; intros Hs; [ contradiction | ].
  cbn [app lstrip] in *. destruct (isspace c); [ exact (IH Hs) | reflexivity ].
Qed.

Lemma lstrip_all_blank (s : str) : lstrip s = [] -> blank s.
Proof.
  induction s as [ | c s IH ]; intros Hs; [ constructor | ].
  cbn [lstrip] in Hs. destruct (isspace c) eqn:Hc; [ | discriminate ].
  constructor; [ exact Hc | exact (IH Hs) ].
Qed.

Lemma strip_blanks (pre text post : str) :
  blank pre -> blank post -> strip (pre ++ text ++ post) = strip text.
Proof.
  intros Hpre Hpost. unfold strip.
  rewrite lstrip_blank_app by exact Hpre.
  destruct (lstrip text) as [ | c t ] eqn:Htext.
  - apply lstrip_all_blank in Htext.
    rewrite lstrip_blank; [ reflexivity | ].
    unfold blank in *. apply Forall_app. split; assumption.
  - rewrite lstrip_app by (rewrite Htext; discriminate).
    rewrite Htext. apply rstrip_app_blank. exact Hpost.
Qed.

(** X12.  Blanks around an answer.  What a line decodes to does not depend
    on the blanks before and after its text, so an answer that ends in a
    carriage return and a line feed is read like one that ends in a line
    feed; and a line of blanks only is an answer like any other, read as
    [None]: blank lines are not skipped. *)
Theorem answer_blanks (pre text post : str) :
  blank pre -> blank post ->
  decode_response (pre ++ text ++ post) = decode_response text /\
  decode_response (pre ++ post) = JNull.
Proof.
  intros Hpre Hpost. unfold decode_response. split.
  - rewrite strip_blanks by assumption. reflexivity.
  - rewrite <- (app_nil_l post), strip_blanks by assumption. reflexivity.
Qed.

Lemma answer_blanks_witness :
  decode_response (s2u "{}" ++ [13; 10]) = JObj [].
Proof.
  refine (eq_trans (proj1 (answer_blanks [] (s2u "{}") [13; 10] _ _)) _).
  - constructor.
  - repeat constructor.
  - vm_compute. reflexivity.
Defined.

(** ** The port of the callback listener *)










(** ** The callback handler *)

(** *** Splitting *)

Lemma filter_all {A} (p : A -> bool) (l : list A) :
  forallb p l = true -> List.filter p l = l.
Proof.
  induction l as [ | x l IH ]; [ reflexivity | ].
  cbn [forallb List.filter]. intros H. apply andb_true_iff in H.
  destruct H as [Hx Hl]. rewrite Hx, (IH Hl). reflexivity.
Qed.

Lemma split_once_none (sep : N) (s : str) :
  forallb (fun c => negb (c =? sep)) s = true -> split_once sep s = None.
Proof.
  induction s as [ | c s IH ]; [ reflexivity | ].
  cbn [forallb split_once]. intros H. apply andb_true_iff in H.
  destruct H as [Hc Hs]. apply negb_true_iff in Hc. rewrite Hc, (IH Hs).
  reflexivity.
Qed.

Lemma split_once_app (sep : N) (a b : str) :
  forallb (fun c => negb (c =? sep)) a = true ->
  split_once sep (a ++ sep :: b) = Some (a, b).
Proof.
  induction a as [ | c a IH ]; cbn [app forallb split_once]; intros H.
  - rewrite N.eqb_refl. reflexivity.
  - apply andb_true_iff in H. destruct H as [Hc Ha].
    apply negb_true_iff in Hc. rewrite Hc, (IH Ha). reflexivity.
Qed.


Lemma pieces_app (sep : N) (a b : str) :
  forallb (fun c => negb (c =? sep)) a = true ->
  pieces sep (a ++ sep :: b) = (a, split_all sep b).
Proof.
  unfold split_all.
  induction a as [ | c a IH ]; cbn [app forallb pieces]; intros H.
  - rewrite N.eqb_refl. destruct (pieces sep b). reflexivity.
  - apply andb_true_iff in H. destruct H as [Hc Ha].
    apply negb_true_iff in Hc. rewrite (IH Ha), Hc.
    destruct (pieces sep b). reflexivity.
Qed.

Lemma forallb_weaken {A} (p q : A -> bool) (l : list A) :
  (forall x, p x = true -> q x = true) ->
  forallb p l = true -> forallb q l = true.
Proof.
  intros Hpq. induction l as [ | x l IH ]; [ reflexivity | ].
  cbn [forallb]. intros H. apply andb_true_iff in H. destruct H as [Hx Hl].
  rewrite (Hpq x Hx), (IH Hl). reflexivity.
Qed.

Lemma forallb_app_true {A} (p : A -> bool) (a b : list A) :
  forallb p a = true -> forallb p b = true -> forallb p (a ++ b) = true.
Proof. intros Ha Hb. rewrite forallb_app, Ha, Hb. reflexivity. Qed.

(** *** The query of a callback path *)

Lemma url_query_callback (q : str) :
  query_safe q = true ->
  url_query (s2u "/oauth/callback?" ++ q) = q.
Proof.
  intros Hq. unfold url_query.
  assert (Hsafe : query_safe (s2u "/oauth/callback?" ++ q) = true)
    by (apply forallb_app_true; [ reflexivity | exact Hq ]).
  assert (H1 : forallb (fun c => negb ((c =? 9) || (c =? 13) || (c =? 10)))
                       (s2u "/oauth/callback?" ++ q) = true).
  { revert Hsafe. apply forallb_weaken. intros c Hc.
    apply negb_true_iff in Hc. apply negb_true_iff.
    apply orb_false_iff in Hc. apply Hc. }
  assert (H2 : forallb (fun c => negb (c =? 35))
                       (s2u "/oauth/callback?" ++ q) = true).
  { revert Hsafe. apply forallb_weaken. intros c Hc.
    apply negb_true_iff in Hc. apply negb_true_iff.
    apply orb_false_iff in Hc. apply Hc. }
  rewrite (filter_all _ _ H1), (split_once_none _ _ H2).
  change (s2u "/oauth/callback?" ++ q)
    with (s2u "/oauth/callback" ++ 63 :: q).
  rewrite split_once_app by reflexivity. reflexivity.
Qed.

(** *** Fields and their first values *)

Lemma qs_add_first (d : list (str * (str * list str))) (n v k : str) :
  first_value (qs_add d n v) k =
  match first_value d k with
  | Some x => Some x
  | None => if str_eqb n k then Some v else None
  end.
Proof.
  induction d as [ | [k0 [v0 vs]] d IH ]; [ reflexivity | ].
  cbn [qs_add first_value].
  destruct (str_eqb k0 n) eqn:Hn; cbn [first_value].
  - destruct (str_eqb k0 k) eqn:Hk; [ reflexivity | ].
    apply str_eqb_eq in Hn. subst k0. rewrite Hk.
    destruct (first_value d k); reflexivity.
  - destruct (str_eqb k0 k); [ reflexivity | exact IH ].
Qed.

Lemma first_value_fold (l : list (str * str))
    (d : list (str * (str * list str))) (k : str) :
  first_value (fold_left (fun d nv => qs_add d (fst nv) (snd nv)) l d) k =
  match first_value d k with
  | Some x => Some x
  | None => first_in l k
  end.
Proof.
  revert d. induction l as [ | [n v] l IH ]; intros d.
  - cbn. destruct (first_value d k); reflexivity.
  - cbn [fold_left fst snd first_in]. rewrite IH, qs_add_first.
    destruct (first_value d k); [ reflexivity | ].
    destruct (str_eqb n k); reflexivity.
Qed.

(** The first value of a parameter is that of the first field that has its
    name. *)
Lemma first_value_parse_qs (qs k : str) :
  first_value (parse_qs qs) k = first_in (parse_qsl qs) k.
Proof. unfold parse_qs. rewrite first_value_fold. reflexivity. Qed.

Lemma parse_qsl_field (f rest : str) :
  forallb (fun c => negb (c =? 38)) f = true ->
  parse_qsl (f ++ 38 :: rest) = parse_field f ++ parse_qsl rest.
Proof.
  intros Hf. unfold parse_qsl at 1.
  destruct (f ++ 38 :: rest) as [ | c s ] eqn:Hs;
    [ destruct f; discriminate | ].
  rewrite <- Hs. unfold split_all at 1. rewrite pieces_app by exact Hf.
  cbn [flat_map]. f_equal.
  unfold parse_qsl. destruct rest as [ | c' rest' ]; reflexivity.
Qed.


Lemma plus_to_space_plain (s : str) :
  forallb (fun c => negb (c =? 43)) s = true -> plus_to_space s = s.
Proof.
  unfold plus_to_space. induction s as [ | c s IH ]; [ reflexivity | ].
  cbn [forallb map]. intros H. apply andb_true_iff in H.
  destruct H as [Hc Hs]. apply negb_true_iff in Hc. rewrite Hc, (IH Hs).
  reflexivity.
Qed.

Lemma unquote_plain (s : str) :
  forallb (fun c => negb (c =? 37)) s = true -> unquote s = s.
Proof.
  intros Hs. unfold unquote.
  assert (Hno : existsb (N.eqb 37) s = false).
  { induction s as [ | c s IH ]; [ reflexivity | ].
    cbn [forallb existsb] in *. apply andb_true_iff in Hs.
    destruct Hs as [Hc Hs]. apply negb_true_iff in Hc.
    rewrite N.eqb_sym, Hc, (IH Hs). reflexivity. }
  rewrite Hno. reflexivity.
Qed.

Lemma plain_parts (s : str) :
  plain s = true ->
  query_safe s = true /\
  forallb (fun c => negb (c =? 38)) s = true /\
  forallb (fun c => negb (c =? 43)) s = true /\
  forallb (fun c => negb (c =? 37)) s = true.
Proof.
  unfold plain. intros H. apply andb_true_iff in H. destruct H as [Hq Hp].
  split; [ exact Hq | ].
  repeat split; revert Hp; apply forallb_weaken; intros c Hc;
    apply negb_true_iff in Hc; apply negb_true_iff;
    repeat (apply orb_false_iff in Hc; destruct Hc as [Hc ?]);
    assumption.
Qed.

(** A field [name=value] with a plain value that is not empty. *)
Lemma parse_field_plain (name value : str) :
  forallb (fun c => negb (c =? 61)) name = true ->
  plain name = true -> plain value = true -> value <> [] ->
  parse_field (name ++ 61 :: value) = [(name, value)].
Proof.
  intros Heq Hname Hvalue Hne. unfold parse_field.
  rewrite split_once_app by exact Heq.
  destruct value as [ | c value ]; [ contradiction | ].
  destruct (plain_parts _ Hname) as (_ & _ & Hn43 & Hn37).
  destruct (plain_parts _ Hvalue) as (_ & _ & Hv43 & Hv37).
  rewrite !plus_to_space_plain, !unquote_plain by assumption.
  reflexivity.
Qed.

(** *** What the handler does *)

Lemma callback_query (h : CallbackHandler.host) (q : str) :
  query_safe q = true ->
  CallbackHandler.do_GET h (s2u "/oauth/callback?" ++ q) =
  match CallbackHandler.given (first_in (parse_qsl q) "error") with
  | Some error =>
      CallbackHandler.write_page
        [CallbackHandler.SendResponse 400; CallbackHandler.content_type;
         CallbackHandler.EndHeaders]
        (CallbackHandler.error_page error)
  | None =>
      match CallbackHandler.given (first_in (parse_qsl q) "code") with
      | Some code =>
          if CallbackHandler.can_open h then
            if CallbackHandler.can_encode h code then
              CallbackHandler.write_page
                [CallbackHandler.OpenForWriting CallbackHandler.code_file;
                 CallbackHandler.FileWrite code;
                 CallbackHandler.SendResponse 200;
                 CallbackHandler.content_type; CallbackHandler.EndHeaders]
                CallbackHandler.success_page
            else ([CallbackHandler.OpenForWriting CallbackHandler.code_file],
                  Exc UnicodeEncodeError)
          else ([], Exc OSError)
      | None =>
          CallbackHandler.write_page
            [CallbackHandler.SendResponse 400; CallbackHandler.content_type;
             CallbackHandler.EndHeaders]
            CallbackHandler.missing_page
      end
  end.
Proof.
  intros Hq. unfold CallbackHandler.do_GET.
  change (starts_with "/oauth/callback" (s2u "/oauth/callback?" ++ q))
    with true. cbv iota.
  rewrite (url_query_callback q Hq), !first_value_parse_qs. reflexivity.
Qed.

Lemma success_page_bytes :
  exists body, str_encode CallbackHandler.success_page = Some body.
Proof. eexists. vm_compute. reflexivity. Qed.

(** X14.  A plain code is saved as it came.  For a request
    [/oauth/callback?code=CODE&REST] whose code is not empty and holds no
    [&], [+], [%], [#], tab, carriage return or line feed, and whose other
    parameters name no error, on a host where the file can be written: the
    file is opened, the code is written to it unchanged, and the success
    page is sent with status 200.  Nothing else in the request matters: the
    state is not looked at, and of several codes the first one counts. *)
Theorem callback_saves_the_code
    (h : CallbackHandler.host) (code rest : str) :
  plain code = true -> code <> [] ->
  query_safe rest = true ->
  first_value (parse_qs rest) "error" = None ->
  CallbackHandler.can_open h = true ->
  CallbackHandler.can_encode h code = true ->
  exists body,
    str_encode CallbackHandler.success_page = Some body /\
    CallbackHandler.do_GET h
      (s2u "/oauth/callback?code=" ++ code ++ 38 :: rest) =
    ([CallbackHandler.OpenForWriting "/tmp/github_auth_code.txt";
      CallbackHandler.FileWrite code;
      CallbackHandler.SendResponse 200;
      CallbackHandler.SendHeader "Content-type" "text/html; charset=utf-8";
      CallbackHandler.EndHeaders;
      CallbackHandler.Write body], Val tt).
Proof.
  intros Hcode Hne Hrest Herror Hopen Hencode.
  destruct success_page_bytes as [body Hbody]. exists body.
  split; [ exact Hbody | ].
  destruct (plain_parts _ Hcode) as (Hsafe & Hamp & _ & _).
  change (s2u "/oauth/callback?code=" ++ code ++ 38 :: rest)
    with (s2u "/oauth/callback?" ++ (s2u "code" ++ 61 :: code) ++ 38 :: rest).
  rewrite callback_query.
  2: { apply forallb_app_true; [ | exact Hrest ].
       apply forallb_app_true; [ reflexivity | ].
       apply (forallb_app_true _ [61]); [ reflexivity | exact Hsafe ]. }
  rewrite parse_qsl_field
    by (apply forallb_app_true; [ reflexivity | ];
        apply (forallb_app_true _ [61]); [ reflexivity | exact Hamp ]).
  rewrite (parse_field_plain "code" code eq_refl eq_refl Hcode Hne).
  cbn [app first_in].
  change (str_eqb (s2u "code") (s2u "error")) with false.
  change (str_eqb (s2u "code") (s2u "code")) with true. cbv iota.
  rewrite <- first_value_parse_qs, Herror.
  destruct code as [ | c code ]; [ contradiction | ].
  cbn [CallbackHandler.given]. rewrite Hopen, Hencode.
  unfold CallbackHandler.write_page. rewrite Hbody. reflexivity.
Qed.

Lemma callback_saves_the_code_witness :
  exists body,
    CallbackHandler.do_GET utf8_host
      (s2u "/oauth/callback?code=abc123&state=xyz&code=other") =
    ([CallbackHandler.OpenForWriting "/tmp/github_auth_code.txt";
      CallbackHandler.FileWrite "abc123";
      CallbackHandler.SendResponse 200;
      CallbackHandler.SendHeader "Content-type" "text/html; charset=utf-8";
      CallbackHandler.EndHeaders;
      CallbackHandler.Write body], Val tt).
Proof.
  destruct (callback_saves_the_code utf8_host "abc123" "state=xyz&code=other"
              eq_refl ltac:(discriminate) eq_refl eq_refl eq_refl eq_refl)
    as (body & _ & Hrun).
  exists body. exact Hrun.
Defined.

(** X15.  An error wins, and is echoed as it came.  For a request
    [/oauth/callback?error=ERROR&REST] whose error is ASCII, not empty, and
    holds no [&], [+], [%], [#], tab, carriage return or line feed: whatever
    the other parameters are, a code among them or not, no file is touched,
    the status is 400, and the page sent is the error between two fixed
    pieces of HTML, character for character: the markup it may hold is not
    escaped. *)
Theorem callback_error_is_echoed
    (h : CallbackHandler.host) (error rest : str) :
  plain error = true -> error <> [] -> ascii_text error ->
  query_safe rest = true ->
  CallbackHandler.do_GET h
    (s2u "/oauth/callback?error=" ++ error ++ 38 :: rest) =
  ([CallbackHandler.SendResponse 400;
    CallbackHandler.SendHeader "Content-type" "text/html; charset=utf-8";
    CallbackHandler.EndHeaders;
    CallbackHandler.Write
      (map byte_of_N (s2u "<h1>OAuth error: " ++ error ++ s2u "</h1>"))],
   Val tt).
Proof.
  intros Herror Hne Hascii Hrest.
  destruct (plain_parts _ Herror) as (Hsafe & Hamp & _ & _).
  change (s2u "/oauth/callback?error=" ++ error ++ 38 :: rest)
    with (s2u "/oauth/callback?" ++ (s2u "error" ++ 61 :: error) ++ 38 :: rest).
  rewrite callback_query.
  2: { apply forallb_app_true; [ | exact Hrest ].
       apply forallb_app_true; [ reflexivity | ].
       apply (forallb_app_true _ [61]); [ reflexivity | exact Hsafe ]. }
  rewrite parse_qsl_field
    by (apply forallb_app_true; [ reflexivity | ];
        apply (forallb_app_true _ [61]); [ reflexivity | exact Hamp ]).
  rewrite (parse_field_plain "error" error eq_refl eq_refl Herror Hne).
  cbn [app first_in].
  change (str_eqb (s2u "error") (s2u "error")) with true. cbv iota.
  destruct error as [ | c error ]; [ contradiction | ].
  cbn [CallbackHandler.given].
  unfold CallbackHandler.write_page, CallbackHandler.error_page, str_encode.
  rewrite utf8_encode_ascii.
  - reflexivity.
  - apply ascii_text_app; [ apply ascii_text_s2u; reflexivity | ].
    apply ascii_text_app; [ exact Hascii | apply ascii_text_s2u; reflexivity ].
Qed.

Lemma callback_error_is_echoed_witness :
  fst (CallbackHandler.do_GET utf8_host
         (s2u "/oauth/callback?error=<b>no</b>&code=abc")) =
  [CallbackHandler.SendResponse 400;
   CallbackHandler.SendHeader "Content-type" "text/html; charset=utf-8";
   CallbackHandler.EndHeaders;
   CallbackHandler.Write
     (map byte_of_N (s2u "<h1>OAuth error: <b>no</b></h1>"))].
Proof.
  exact (f_equal fst
           (callback_error_is_echoed utf8_host "<b>no</b>" "code=abc"
              eq_refl ltac:(discriminate)
              ltac:(apply ascii_text_s2u; reflexivity) eq_refl)).
Defined.





Lemma missing_page_bytes :
  str_encode CallbackHandler.missing_page =
  Some (map byte_of_N (s2u "<h1>Authorization code not found</h1>")).
Proof. vm_compute. reflexivity. Qed.

(** X17.  A blank code is no code.  A request on the callback path with
    [code=] and nothing after it, or with no code at all, and with no error,
    is answered with status 400 and the page that says the code was not
    found; no file is touched. *)
Theorem callback_blank_code (h : CallbackHandler.host) (rest : str) :
  query_safe rest = true ->
  first_value (parse_qs rest) "code" = None ->
  first_value (parse_qs rest) "error" = None ->
  CallbackHandler.do_GET h (s2u "/oauth/callback?code=" ++ 38 :: rest) =
    ([CallbackHandler.SendResponse 400;
      CallbackHandler.SendHeader "Content-type" "text/html; charset=utf-8";
      CallbackHandler.EndHeaders;
      CallbackHandler.Write
        (map byte_of_N (s2u "<h1>Authorization code not found</h1>"))],
     Val tt) /\
  CallbackHandler.do_GET h (s2u "/oauth/callback?" ++ rest) =
    CallbackHandler.do_GET h (s2u "/oauth/callback?code=" ++ 38 :: rest).
Proof.
  intros Hrest Hcode Herror.
  assert (Hbare : CallbackHandler.do_GET h (s2u "/oauth/callback?" ++ rest) =
    ([CallbackHandler.SendResponse 400;
      CallbackHandler.SendHeader "Content-type" "text/html; charset=utf-8";
      CallbackHandler.EndHeaders;
      CallbackHandler.Write
        (map byte_of_N (s2u "<h1>Authorization code not found</h1>"))],
     Val tt)).
  { rewrite callback_query by exact Hrest.
    rewrite <- !first_value_parse_qs, Hcode, Herror.
    cbn [CallbackHandler.given]. unfold CallbackHandler.write_page.
    rewrite missing_page_bytes. reflexivity. }
  assert (Hblank :
    CallbackHandler.do_GET h (s2u "/oauth/callback?code=" ++ 38 :: rest) =
    ([CallbackHandler.SendResponse 400;
      CallbackHandler.SendHeader "Content-type" "text/html; charset=utf-8";
      CallbackHandler.EndHeaders;
      CallbackHandler.Write
        (map byte_of_N (s2u "<h1>Authorization code not found</h1>"))],
     Val tt)).
  { change (s2u "/oauth/callback?code=" ++ 38 :: rest)
      with (s2u "/oauth/callback?" ++ s2u "code=" ++ 38 :: rest).
    rewrite callback_query
      by (apply forallb_app_true; [ reflexivity | exact Hrest ]).
    rewrite parse_qsl_field by reflexivity.
    change (parse_field (s2u "code=")) with (@nil (str * str)).
    cbn [app]. rewrite <- !first_value_parse_qs, Hcode, Herror.
    cbn [CallbackHandler.given]. unfold CallbackHandler.write_page.
    rewrite missing_page_bytes. reflexivity. }
  split; [ exact Hblank | ]. rewrite Hbare, Hblank. reflexivity.
Qed.

Lemma callback_blank_code_witness :
  fst (CallbackHandler.do_GET utf8_host
         (s2u "/oauth/callback?code=&state=xyz")) =
  [CallbackHandler.SendResponse 400;
   CallbackHandler.SendHeader "Content-type" "text/html; charset=utf-8";
   CallbackHandler.EndHeaders;
   CallbackHandler.Write
     (map byte_of_N (s2u "<h1>Authorization code not found</h1>"))].
Proof.
  exact (f_equal fst
           (proj1 (callback_blank_code utf8_host "state=xyz"
                     eq_refl eq_refl eq_refl))).
Defined.

(** *** Percent escapes *)











(** *** UTF-8, read back *)










(** ** What counts as a success *)

Section SuccessTest.
Context {F : FloatSem}.

Lemma existsb_is_JStr (k : str) (xs : list json) :
  existsb (is_JStr k) xs = true <-> In (JStr k) xs.
Proof.
  rewrite existsb_exists. split.
  - intros (x & Hx & Hk). destruct x; try discriminate Hk.
    cbn [is_JStr] in Hk. apply str_eqb_eq in Hk. subst. exact Hx.
  - intros Hin. exists (JStr k). split; [ exact Hin | ].
    cbn [is_JStr]. apply str_eqb_refl.
Qed.

(** X19.  The test [r and "result" in r] does not ask for an object.
    The health check passes exactly when the answer is an object with a
    member [result], a list that has the string [result] among its elements,
    or a string in which [result] occurs; an answer that is [true] or a
    number other than zero raises [TypeError]; every other answer, [None]
    for a line that is no JSON included, fails the assertion. *)
Theorem health_check_is_duck_typed (w : world) (r : json) :
  reply w = Val r ->
  (fst (E2E.step_health w) = Val tt <->
   (exists kvs, r = JObj kvs /\ has_key "result" kvs = true) \/
   (exists xs, r = JArr xs /\ In (JStr "result") xs) \/
   (exists s, r = JStr s /\ contains "result" s = true)) /\
  (fst (E2E.step_health w) = Exc TypeError <->
   r = JBool true \/ (exists z, r = JInt z /\ z <> 0%Z) \/
   (exists lit, r = JFloat lit /\ float_truthy lit = true)) /\
  (fst (E2E.step_health w) = Val tt \/
   fst (E2E.step_health w) = Exc TypeError \/
   fst (E2E.step_health w) = Exc AssertionError).
Proof.
  intros Hr. rewrite step_health_run, Hr. cbn [fst mbind result_bind].
  unfold py_assert, is_success.
  destruct r as [ | [ | ] | z | lit | s | xs | kvs ];
    cbn [truthy py_in mbind result_bind].
  - split; [ | split; [ | auto ] ].
    + split; [ discriminate | ].
      intros [(? & H & _) | [(? & H & _) | (? & H & _)]]; discriminate H.
    + split; [ discriminate | ].
      intros [H | [(? & H & _) | (? & H & _)]]; discriminate H.
  - split; [ | split; [ | auto ] ].
    + split; [ discriminate | ].
      intros [(? & H & _) | [(? & H & _) | (? & H & _)]]; discriminate H.
    + split; [ auto | reflexivity ].
  - split; [ | split; [ | auto ] ].
    + split; [ discriminate | ].
      intros [(? & H & _) | [(? & H & _) | (? & H & _)]]; discriminate H.
    + split; [ discriminate | ].
      intros [H | [(? & H & _) | (? & H & _)]]; discriminate H.
  - destruct (Z.eqb_spec z 0) as [-> | Hz]; cbn [negb mbind result_bind].
    + split; [ | split; [ | auto ] ].
      * split; [ discriminate | ].
        intros [(? & H & _) | [(? & H & _) | (? & H & _)]]; discriminate H.
      * split; [ discriminate | ].
        intros [H | [(z & H & Hz) | (? & H & _)]]; try discriminate H.
        injection H as <-. contradiction.
    + split; [ | split; [ | auto ] ].
      * split; [ discriminate | ].
        intros [(? & H & _) | [(? & H & _) | (? & H & _)]]; discriminate H.
      * split; [ eauto | reflexivity ].
  - destruct (float_truthy lit) eqn:Hlit; cbn [mbind result_bind].
    + split; [ | split; [ | auto ] ].
      * split; [ discriminate | ].
        intros [(? & H & _) | [(? & H & _) | (? & H & _)]]; discriminate H.
      * split; [ eauto | reflexivity ].
    + split; [ | split; [ | auto ] ].
      * split; [ discriminate | ].
        intros [(? & H & _) | [(? & H & _) | (? & H & _)]]; discriminate H.
      * split; [ discriminate | ].
        intros [H | [(? & H & _) | (l & H & Hl)]]; try discriminate H.
        injection H as <-. congruence.
  - replace (if match s with [] => false | _ :: _ => true end
             then Val (contains "result" s) else Val false)
      with (@Val bool (contains "result" s))
      by (destruct s; reflexivity).
    cbn [mbind result_bind].
    destruct (contains "result" s) eqn:Hc.
    + split; [ | split; [ | auto ] ].
      * split; [ eauto | reflexivity ].
      * split; [ discriminate | ].
        intros [H | [(? & H & _) | (? & H & _)]]; discriminate H.
    + split; [ | split; [ | auto ] ].
      * split; [ discriminate | ].
        intros [(? & H & _) | [(? & H & _) | (s' & H & Hs')]];
          try discriminate H.
        injection H as <-. congruence.
      * split; [ discriminate | ].
        intros [H | [(? & H & _) | (? & H & _)]]; discriminate H.
  - replace (if match xs with [] => false | _ :: _ => true end
             then Val (existsb (is_JStr "result") xs) else Val false)
      with (@Val bool (existsb (is_JStr "result") xs))
      by (destruct xs; reflexivity).
    cbn [mbind result_bind].
    destruct (existsb (is_JStr "result") xs) eqn:Hx.
    + split; [ | split; [ | auto ] ].
      * split; [ | reflexivity ]. intros _. right. left.
        exists xs. split; [ reflexivity | ].
        apply existsb_is_JStr. exact Hx.
      * split; [ discriminate | ].
        intros [H | [(? & H & _) | (? & H & _)]]; discriminate H.
    + split; [ | split; [ | auto ] ].
      * split; [ discriminate | ].
        intros [(? & H & _) | [(xs' & H & Hin) | (? & H & _)]];
          try discriminate H.
        injection H as <-. apply existsb_is_JStr in Hin. congruence.
      * split; [ discriminate | ].
        intros [H | [(? & H & _) | (? & H & _)]]; discriminate H.
  - replace (if match kvs with [] => false | _ :: _ => true end
             then Val (has_key "result" kvs) else Val false)
      with (@Val bool (has_key "result" kvs))
      by (destruct kvs; reflexivity).
    cbn [mbind result_bind].
    destruct (has_key "result" kvs) eqn:Hk.
    + split; [ | split; [ | auto ] ].
      * split; [ eauto | reflexivity ].
      * split; [ discriminate | ].
        intros [H | [(? & H & _) | (? & H & _)]]; discriminate H.
    + split; [ | split; [ | auto ] ].
      * split; [ discriminate | ].
        intros [(kvs' & H & Hk') | [(? & H & _) | (? & H & _)]];
          try discriminate H.
        injection H as <-. congruence.
      * split; [ discriminate | ].
        intros [H | [(? & H & _) | (? & H & _)]]; discriminate H.
Qed.
End SuccessTest.

(** The child answers the health check with a list of strings. *)
Lemma health_check_is_duck_typed_witness :
  fst (@E2E.step_health no_floats
         (world_of (lines ["['no','result']"]))) = Val tt.
Proof.
  refine (proj2 (proj1 (@health_check_is_duck_typed no_floats _
                          (JArr [JStr "no"; JStr "result"]) _)) _).
  - vm_compute. reflexivity.
  - right. left. eexists. split; [ reflexivity | ].
    right. left. reflexivity.
Defined.

(** *** The route *)

Lemma url_query_after (pre q : str) :
  segment pre = true -> query_safe q = true ->
  url_query (pre ++ 63 :: q) = q.
Proof.
  intros Hpre Hq. unfold url_query.
  assert (Hsafe : query_safe (pre ++ 63 :: q) = true).
  { apply forallb_app_true.
    - revert Hpre. apply forallb_weaken. intros c Hc.
      apply negb_true_iff in Hc. apply negb_true_iff.
      apply orb_false_iff in Hc. apply Hc.
    - apply (forallb_app_true _ [63]); [ reflexivity | exact Hq ]. }
  assert (H1 : forallb (fun c => negb ((c =? 9) || (c =? 13) || (c =? 10)))
                       (pre ++ 63 :: q) = true).
  { revert Hsafe. apply forallb_weaken. intros c Hc.
    apply negb_true_iff in Hc. apply negb_true_iff.
    apply orb_false_iff in Hc. apply Hc. }
  assert (H2 : forallb (fun c => negb (c =? 35)) (pre ++ 63 :: q) = true).
  { revert Hsafe. apply forallb_weaken. intros c Hc.
    apply negb_true_iff in Hc. apply negb_true_iff.
    apply orb_false_iff in Hc. apply Hc. }
  rewrite (filter_all _ _ H1), (split_once_none _ _ H2).
  rewrite split_once_app; [ reflexivity | ].
  revert Hpre. apply forallb_weaken. intros c Hc.
  apply negb_true_iff in Hc. apply negb_true_iff.
  apply orb_false_iff in Hc. apply Hc.
Qed.

Lemma starts_with_app (p s : str) : starts_with p (p ++ s) = true.
Proof.
  unfold starts_with.
  assert (H : strip_prefix p (p ++ s) = Some s).
  { induction p as [ | c p IH ]; [ reflexivity | ].
    cbn [app strip_prefix]. rewrite N.eqb_refl. exact IH. }
  rewrite H. reflexivity.
Qed.

(** X20.  The route is a prefix.  Every path that starts with
    [/oauth/callback] is the callback: whatever follows these characters
    before the question mark, a longer name or further segments, the request
    is handled as the same query sent to [/oauth/callback] itself. *)
Theorem callback_route_is_a_prefix
    (h : CallbackHandler.host) (more q : str) :
  segment more = true -> query_safe q = true ->
  CallbackHandler.do_GET h (s2u "/oauth/callback" ++ more ++ 63 :: q) =
  CallbackHandler.do_GET h (s2u "/oauth/callback?" ++ q).
Proof.
  intros Hmore Hq. unfold CallbackHandler.do_GET.
  rewrite starts_with_app.
  change (s2u "/oauth/callback?" ++ q) with (s2u "/oauth/callback" ++ 63 :: q).
  rewrite starts_with_app.
  rewrite (url_query_after (s2u "/oauth/callback") q eq_refl Hq).
  rewrite app_assoc.
  rewrite (url_query_after (s2u "/oauth/callback" ++ more) q); [ reflexivity | | exact Hq ].
  apply forallb_app_true; [ reflexivity | exact Hmore ].
Qed.

Lemma callback_route_is_a_prefix_witness :
  CallbackHandler.do_GET utf8_host (s2u "/oauth/callback-old/x?code=abc") =
  CallbackHandler.do_GET utf8_host (s2u "/oauth/callback?code=abc").
Proof.
  exact (callback_route_is_a_prefix utf8_host "-old/x" "code=abc"
           eq_refl eq_refl).
Defined.
